(** * Coursework utilities: booking CRUD, product tracker, text analyzer

    A shallow embedding of the pure and file-backed logic of

    - [Task 5/streamlit_service_app.py]: the CSV-backed appointment store
      ([read_appointments], [append_appointment], [overwrite_appointments],
      [delete_appointment], [update_appointment], [find_conflict],
      [filter_appointments]);
    - [Task 6/ecommerce_tracker.py]: the product helpers and the cart;
    - [Task_3.py]: [analyze_text].

    Python strings are sequences of code points; a CSV file is the sequence
    of records that [csv.writer] wrote and [csv.reader] yields back (the
    quoting of the [csv] module is taken to be faithful, for text it can
    encode and fields within its size limit); the files of the working
    directory form a finite map from paths to files.
    Library functions whose value depends on Unicode tables or on the
    interpreter version ([int], [str.lower], [datetime.fromisoformat], float
    arithmetic, ...) are the fields of a type class, with an ASCII instance
    for running the definitions on concrete inputs. *)

From Stdlib Require Import ZArith NArith QArith Qcanon Ascii String.
From stdpp Require Import base option numbers list sorting strings pretty gmap.

Open Scope Z_scope.

(** ** Python strings *)

(** A [str] is a list of code points. *)
Abbreviation pystr := (list N).

(** The string literal [s] as a [str]. *)
Definition str (s : string) : pystr :=
  (λ a, N_of_ascii a) <$> list_ascii_of_string s.

(** [str.isspace] on one code point: the code points for which CPython's
    [_PyUnicode_IsWhitespace] holds; [strip()] and [split()] use it. *)
Definition isspace (c : N) : bool :=
  ((9 <=? c) && (c <=? 13) || (28 <=? c) && (c <=? 32)
   || (c =? 133) || (c =? 160) || (c =? 5760)
   || (8192 <=? c) && (c <=? 8202)
   || (c =? 8232) || (c =? 8233) || (c =? 8239) || (c =? 8287)
   || (c =? 12288))%N.

Fixpoint lstrip (s : pystr) : pystr :=
  match s with
  | c :: s' => if isspace c then lstrip s' else s
  | [] => []
  end.

Definition rstrip (s : pystr) : pystr := reverse (lstrip (reverse s)).

(** [s.strip()] *)
Definition strip (s : pystr) : pystr := rstrip (lstrip s).

(** [s.split()]: the maximal runs of non-whitespace code points. [w] is the
    word being scanned. *)
Fixpoint split_go (w s : pystr) : list pystr :=
  match s with
  | [] => match w with [] => [] | _ => [w] end
  | c :: s' =>
      if isspace c
      then match w with [] => split_go [] s' | _ => w :: split_go [] s' end
      else split_go (w ++ [c]) s'
  end.

Definition split (s : pystr) : list pystr := split_go [] s.

(** [s.split(sep)] for a one-character separator. *)
Fixpoint split_on_go (sep : N) (w s : pystr) : list pystr :=
  match s with
  | [] => [w]
  | c :: s' =>
      if (c =? sep)%N then w :: split_on_go sep [] s'
      else split_on_go sep (w ++ [c]) s'
  end.

Definition split_on (sep : N) (s : pystr) : list pystr := split_on_go sep [] s.

Fixpoint startswith (p s : pystr) : bool :=
  match p, s with
  | [], _ => true
  | a :: p', b :: s' => (a =? b)%N && startswith p' s'
  | _ :: _, [] => false
  end.

(** [q in s] on strings: [q] occurs in [s] as a contiguous run. *)
Fixpoint str_in (q s : pystr) : bool :=
  startswith q s || match s with [] => false | _ :: s' => str_in q s' end.

(** [a < b] on strings: lexicographic on code points. *)
Fixpoint str_lt (a b : pystr) : bool :=
  match a, b with
  | _, [] => false
  | [], _ :: _ => true
  | x :: a', y :: b' => (x <? y)%N || (x =? y)%N && str_lt a' b'
  end.

(** A calendar date, compared as the triple (year, month, day). *)
Record date := Date { year : Z; month : Z; day : Z }.

Definition date_lt (a b : date) : bool :=
  (year a <? year b)
  || (year a =? year b) && ((month a <? month b)
                            || (month a =? month b) && (day a <? day b)).

(** Library functions of strings left abstract. [None] stands for the
    exception the function raises on a string it does not accept. *)
Class PyStr := {
  (** [int(s)] *)
  py_int : pystr → option Z;
  (** [s.lower()], [s.upper()], [s.title()] *)
  lower : pystr → pystr;
  upper : pystr → pystr;
  title : pystr → pystr;
  (** [datetime.fromisoformat(s).date()] *)
  fromisoformat : pystr → option date;
  (** [str(l)] for a list of strings *)
  str_of_list : list pystr → pystr;
  (** lowercasing maps the empty string, and only it, to the empty string *)
  lower_nil : ∀ s, lower s = [] ↔ s = [];
}.

(** ** Python dicts *)

(** A dict is its items in insertion order; keys occur once. *)
Section dict.
Context {K V : Type} `{EqDecision K}.

(** [d.get(k)] *)
Fixpoint dict_get (k : K) (d : list (K * V)) : option V :=
  match d with
  | [] => None
  | (k', v) :: d' => if decide (k = k') then Some v else dict_get k d'
  end.

(** [d[k] = v]: an existing key keeps its place. *)
Fixpoint dict_set (k : K) (v : V) (d : list (K * V)) : list (K * V) :=
  match d with
  | [] => [(k, v)]
  | (k', v') :: d' =>
      if decide (k = k') then (k, v) :: d' else (k', v') :: dict_set k v d'
  end.

(** [list(d.keys())] *)
Definition dict_keys (d : list (K * V)) : list K := d.*1.

(** [dict(items)] *)
Definition dict_of (items : list (K * V)) : list (K * V) :=
  fold_left (λ d kv, dict_set kv.1 kv.2 d) items [].

(** The loop behind [dict(items)], from any dict [d]. *)
Definition dict_update (d items : list (K * V)) : list (K * V) :=
  fold_left (λ d kv, dict_set kv.1 kv.2 d) items d.

(** [d1 == d2] for dicts: the same keys with the same values. *)
Definition dict_eq (d1 d2 : list (K * V)) : Prop :=
  ∀ k, dict_get k d1 = dict_get k d2.
End dict.

(** A value of a row read by [csv.DictReader]: a field, [None] for a field
    the line lacks, or the list of surplus fields. *)
Inductive value := VNone | VStr (s : pystr) | VList (l : list pystr).

#[global] Instance value_eq_dec : EqDecision value.
Proof. solve_decision. Defined.

(** Keys of such a row: a field name, or [None] for the surplus fields. *)
Abbreviation key := (option pystr).
Abbreviation rdict := (list (key * value)).

(** A row of the declared type [Dict[str, str]]. *)
Abbreviation sdict := (list (pystr * pystr)).

Definition of_sdict (d : sdict) : rdict :=
  (λ kv, (Some kv.1, VStr kv.2)) <$> d.

(** [bool(v)] *)
Definition truthy (v : value) : bool :=
  match v with
  | VNone => false
  | VStr s => negb (bool_decide (s = []))
  | VList l => negb (bool_decide (l = []))
  end.

(** Row [r] has only string keys and string values: it is a
    [Dict[str, str]]. *)
Definition str_dict (r : rdict) : Prop :=
  Forall (λ kv, is_Some kv.1 ∧ ∃ s, kv.2 = VStr s) r.

Definition str_dictb (r : rdict) : bool :=
  forallb (λ kv, match kv with (Some _, VStr _) => true | _ => false end) r.

(** ** The CSV store of [Task 5/streamlit_service_app.py] *)

(** One record, as [csv.writer.writerow] takes it and [csv.reader] yields
    it; the record with no field is a blank line. *)
Abbreviation record := (list pystr).

(** The files of the working directory, by path: each a sequence of
    records. *)
Abbreviation fsys := (gmap pystr (list record)).

Inductive exn := ValueError | ZeroDivisionError.

(** The result of a call: a value or a raised exception, with the files
    as the call leaves them. *)
Inductive outcome (A : Type) :=
  | Ret (a : A) (fs : fsys)
  | Raise (e : exn) (fs : fsys).
Arguments Ret {A} a fs.
Arguments Raise {A} e fs.

Definition M (A : Type) : Type := fsys → outcome A.

#[global] Instance M_ret : MRet M := λ A a fs, Ret a fs.
#[global] Instance M_bind : MBind M := λ A B k c fs,
  match c fs with
  | Ret a fs' => k a fs'
  | Raise e fs' => Raise e fs'
  end.

(** Read from, and replace, the files. *)
Definition gets {A} (f : fsys → A) : M A := λ fs, Ret (f fs) fs.
Definition modify (f : fsys → fsys) : M unit := λ fs, Ret tt (f fs).
Definition raise {A} (e : exn) : M A := λ fs, Raise e fs.

Definition APP_CSV : pystr := str "appointments.csv".

(** The header line that [ensure_csv_exists] and [overwrite_appointments]
    write. *)
Definition HEADER : record :=
  str <$> ["timestamp"; "name"; "contact"; "date"; "time"; "issue_type";
           "notes"]%string.

Definition ensure_csv_exists (path : pystr) : M unit :=
  exists_ ← gets (λ fs, bool_decide (is_Some (fs !! path)));
  if negb exists_ then modify (λ fs, <[path := [HEADER]]> fs) else mret tt.

(** Opened in mode ["a"], the file gets one more record. *)
Definition append_appointment (path : pystr) (row : record) : M unit :=
  ensure_csv_exists path ;;
  modify (λ fs, <[path := default [] (fs !! path) ++ [row]]> fs).

(** ** [csv.DictReader] *)

(** The dict of one line: [dict(zip(fieldnames, row))], the surplus fields
    under the key [None], and [None] for each field name the line does not
    reach. *)
Definition row_dict (fieldnames row : record) : rdict :=
  let d := dict_of (zip (Some <$> fieldnames) (VStr <$> row)) in
  let lf := length fieldnames in
  let lr := length row in
  if (lf <? lr)%nat then dict_set None (VList (drop lf row)) d
  else if (lr <? lf)%nat
       then fold_left (λ d k, dict_set (Some k) VNone d) (drop lr fieldnames) d
       else d.

(** [list(csv.DictReader(f))]: the first record holds the field names, and
    blank lines among the others are skipped. *)
Definition DictReader (f : list record) : list rdict :=
  match f with
  | [] => []
  | fieldnames :: rows =>
      row_dict fieldnames
        <$> List.filter (λ row, negb (bool_decide (row = []))) rows
  end.

Definition read_appointments (path : pystr) (fs : fsys) : list rdict :=
  match fs !! path with
  | None => []
  | Some f => DictReader f
  end.

(** ** [csv.DictWriter] *)

Section writer.
Context `{PyStr}.

(** The text [csv.writer] writes for a field. *)
Definition field_str (v : value) : pystr :=
  match v with
  | VNone => []
  | VStr s => s
  | VList l => str_of_list l
  end.

(** [writeheader]: the field names themselves, as [writerow] writes
    them. *)
Definition header_record (fieldnames : list key) : record :=
  (λ k, match k with Some s => s | None => [] end) <$> fieldnames.

(** [DictWriter._dict_to_list] with [extrasaction="raise"] and
    [restval=""]: [None] stands for the [ValueError] raised on a key that
    is no field name. *)
Definition dict_to_list (fieldnames : list key) (rowdict : rdict)
  : option record :=
  if forallb (λ k, bool_decide (k ∈ fieldnames)) (dict_keys rowdict)
  then Some ((λ k, field_str (default (VStr []) (dict_get k rowdict)))
               <$> fieldnames)
  else None.

(** [for r in rows: writer.writerow(r)] into the open file [f]: the file
    as the loop leaves it, and whether a row raised. *)
Fixpoint writerows (fieldnames : list key) (rows : list rdict)
    (f : list record) : list record * option exn :=
  match rows with
  | [] => (f, None)
  | r :: rows' =>
      match dict_to_list fieldnames r with
      | Some rec => writerows fieldnames rows' (f ++ [rec])
      | None => (f, Some ValueError)
      end
  end.

Definition overwrite_appointments (path : pystr) (rows : list rdict)
  : M unit :=
  match rows with
  | [] => modify (λ fs, <[path := [HEADER]]> fs)
  | r0 :: _ =>
      let keys := dict_keys r0 in
      let tmp := path ++ str ".tmp" in
      match writerows keys rows [header_record keys] with
      | (f, None) =>
          modify (λ fs, <[tmp := f]> fs) ;;
          (* os.replace(tmp, path) *)
          modify (λ fs, delete tmp (<[path := f]> fs))
      | (f, Some e) =>
          modify (λ fs, <[tmp := f]> fs) ;; raise e
      end
  end.

(** [r.get("timestamp") != timestamp] *)
Definition ts_differs (timestamp : pystr) (r : rdict) : bool :=
  negb (bool_decide (dict_get (Some (str "timestamp")) r
                     = Some (VStr timestamp))).

Definition delete_appointment (path timestamp : pystr) : M bool :=
  rows ← gets (read_appointments path);
  let new_rows := List.filter (ts_differs timestamp) rows in
  if (length new_rows =? length rows)%nat then mret false
  else overwrite_appointments path new_rows ;; mret true.

(** The loop of [update_appointment]: the rows with the first match
    replaced, and the flag [updated]. *)
Fixpoint update_rows (timestamp : pystr) (new_row : rdict)
    (rows : list rdict) : list rdict * bool :=
  match rows with
  | [] => ([], false)
  | r :: rows' =>
      if negb (ts_differs timestamp r) then (new_row :: rows', true)
      else let '(rows'', updated) := update_rows timestamp new_row rows' in
           (r :: rows'', updated)
  end.

Definition update_appointment (path timestamp : pystr) (new_row : rdict)
  : M bool :=
  rows ← gets (read_appointments path);
  let '(rows, updated) := update_rows timestamp new_row rows in
  (if updated then overwrite_appointments path rows else mret tt) ;;
  mret updated.

(** [h, m = map(int, t.split(":")); h * 60 + m], [None] when any step
    raises. *)
Definition minutes (t : pystr) : option Z :=
  match split_on 58 t with
  | [h; m] =>
      match py_int h, py_int m with
      | Some h, Some m => Some (h * 60 + m)
      | _, _ => None
      end
  | _ => None
  end.

(** [minutes] of a value read from a row: only a string has [split]. *)
Definition value_minutes (v : value) : option Z :=
  match v with
  | VStr s => minutes s
  | _ => None
  end.

(** The loop of [find_conflict] over the rows read. *)
Fixpoint find_conflict_rows (rows : list rdict) (appt_date appt_time : pystr)
    (ignore_ts : option pystr) (buffer_minutes : Z) (req_total : option Z)
  : bool :=
  match rows with
  | [] => false
  | r :: rows' =>
      let continue :=
        find_conflict_rows rows' appt_date appt_time ignore_ts
          buffer_minutes req_total in
      if match ignore_ts with
         | Some ts => negb (bool_decide (ts = [])) && negb (ts_differs ts r)
         | None => false
         end
      then continue
      else if negb (bool_decide (dict_get (Some (str "date")) r
                                 = Some (VStr appt_date)))
      then continue
      else
        match dict_get (Some (str "time")) r with
        | None => continue
        | Some other_time =>
            if negb (truthy other_time) then continue
            else
              match req_total with
              | Some req_total' =>
                  match value_minutes other_time with
                  | None =>
                      if bool_decide (other_time = VStr appt_time) then true
                      else continue
                  | Some other_total =>
                      if negb (buffer_minutes =? 0)
                         && (Z.abs (other_total - req_total')
                             <=? buffer_minutes)
                      then true
                      else if (other_total =? req_total')
                              && (buffer_minutes =? 0)
                      then true
                      else continue
                  end
              | None =>
                  if bool_decide (other_time = VStr appt_time) then true
                  else continue
              end
        end
  end.

(** The time of a stored row in minutes, when its time field is a string
    that parses. *)
Definition row_minutes (r : rdict) : option Z :=
  dict_get (Some (str "time")) r ≫= value_minutes.

(** [find_conflict] skips row [r]: [ignore_ts] is a non-empty string and
    the row's timestamp. *)
Definition ignored (ignore_ts : option pystr) (r : rdict) : Prop :=
  ∃ ts, ignore_ts = Some ts ∧ ts ≠ []
        ∧ dict_get (Some (str "timestamp")) r = Some (VStr ts).

(** The date and time of a stored row, as [find_conflict] reads them. *)
Definition date_time (r : rdict) : option value * option value :=
  (dict_get (Some (str "date")) r, dict_get (Some (str "time")) r).

(** The row that the booking form appends, and the dict that the edit
    form hands to [update_appointment]. *)
Definition form_row (timestamp name contact nd nt issue_type notes : pystr)
  : record :=
  [timestamp; name; contact; nd; nt; issue_type; notes].

Definition edit_row (timestamp name contact nd nt issue_type notes : pystr)
  : rdict :=
  [(Some (str "timestamp"), VStr timestamp); (Some (str "name"), VStr name);
   (Some (str "contact"), VStr contact); (Some (str "date"), VStr nd);
   (Some (str "time"), VStr nt); (Some (str "issue_type"), VStr issue_type);
   (Some (str "notes"), VStr notes)].

Definition find_conflict (path appt_date appt_time : pystr)
    (ignore_ts : option pystr) (buffer_minutes : Z) (fs : fsys) : bool :=
  find_conflict_rows (read_appointments path fs) appt_date appt_time
    ignore_ts buffer_minutes (minutes appt_time).
End writer.

(** ** [filter_appointments]

    Modelled on rows of its declared type [Dict[str, str]]. *)
Section filter.
Context `{PyStr}.

(** [r.get(k, "")] *)
Definition get_or_empty (k : string) (r : sdict) : pystr :=
  default [] (dict_get (str k) r).

(** The text searched: name, contact and notes, lowercased, with one space
    between them. *)
Definition hay (r : sdict) : pystr :=
  lower (get_or_empty "name" r) ++ str " "
  ++ lower (get_or_empty "contact" r) ++ str " "
  ++ lower (get_or_empty "notes" r).

(** [(query or "").strip().lower()] *)
Definition needle (query : option pystr) : pystr :=
  lower (strip (default [] query)).

(** The loop of [filter_appointments]: [out], in the order of [rows]. *)
Fixpoint filter_rows (rows : list sdict) (date_from date_to : date)
    (types : list pystr) (q : pystr) : list sdict :=
  match rows with
  | [] => []
  | r :: rows' =>
      let continue := filter_rows rows' date_from date_to types q in
      match dict_get (str "date") r ≫= fromisoformat with
      | None => continue
      | Some rd =>
          if date_lt rd date_from || date_lt date_to rd then continue
          else if negb (bool_decide (types = []))
                  && negb (match dict_get (str "issue_type") r with
                           | Some t => bool_decide (t ∈ types)
                           | None => false
                           end)
          then continue
          else if negb (bool_decide (q = [])) && negb (str_in q (hay r))
          then continue
          else r :: continue
      end
  end.

(** The key of the final sort, and [<] on such keys. *)
Definition sort_key (x : sdict) : pystr * pystr :=
  (get_or_empty "date" x, get_or_empty "time" x).

Definition key_lt (a b : pystr * pystr) : bool :=
  str_lt a.1 b.1 || bool_decide (a.1 = b.1) && str_lt a.2 b.2.

(** [list.sort(key=...)] is stable: a row goes before the first row whose
    key is not smaller than its own. *)
Fixpoint insert_row (x : sdict) (l : list sdict) : list sdict :=
  match l with
  | [] => [x]
  | y :: l' =>
      if key_lt (sort_key y) (sort_key x) then y :: insert_row x l'
      else x :: l
  end.

Definition sort_rows (l : list sdict) : list sdict := foldr insert_row [] l.

Definition filter_appointments (rows : list sdict) (date_from date_to : date)
    (types : list pystr) (query : option pystr) : list sdict :=
  let q := needle query in
  sort_rows (filter_rows rows date_from date_to types q).
End filter.

(** ** [Task 6/ecommerce_tracker.py] *)

(** The result of a call that touches no file. *)
Inductive result (A : Type) :=
  | Ok (a : A)
  | Error (e : exn).
Arguments Ok {A} a.
Arguments Error {A} e.

(** The numbers of the price fields and the library functions on them. *)
Class PyNum := {
  num : Type;
  (** [sum(xs)] *)
  py_sum : list num → num;
  (** [x / n] for an integer [n] other than zero *)
  truediv : num → nat → num;
  (** the text that [summary] builds from its four values *)
  summary_text : nat → num → list pystr → gset pystr → pystr;
}.

Module Tracker.
Section tracker.
Context `{PyStr} `{PyNum}.

(** A product: a dict with the keys ["name"], ["category"] and
    ["price"]. *)
Record product := Product { name : pystr; category : pystr; price : num }.

(** [x / len(products)]: dividing by zero raises. *)
Definition div_len (x : num) (n : nat) : result num :=
  if (n =? 0)%nat then Error ZeroDivisionError else Ok (truediv x n).

Definition average_price (products : list product) : result num :=
  div_len (py_sum (price <$> products)) (length products).

Definition product_names_tuple (products : list product) : list pystr :=
  name <$> products.

Definition unique_categories (products : list product) : gset pystr :=
  list_to_set (category <$> products).

Fixpoint find_products_by_keyword (products : list product) (kw : pystr)
  : list product :=
  let kw_low := lower kw in
  match products with
  | [] => []
  | p :: products' =>
      let name_low := lower (name p) in
      if str_in kw_low name_low
      then p :: find_products_by_keyword products' kw
      else find_products_by_keyword products' kw
  end.

(** The cart is a list that both functions change in place: each returns
    the cart as it leaves it. *)
Definition add_to_cart (cart : list product) (p : product) : list product :=
  cart ++ [p].

Fixpoint remove_from_cart (cart : list product) (product_name : pystr)
  : list product :=
  match cart with
  | [] => []
  | p :: cart' =>
      if bool_decide (name p = product_name) then cart'
      else p :: remove_from_cart cart' product_name
  end.

Definition cart_total (cart : list product) : num := py_sum (price <$> cart).

Definition summary (products : list product) : result pystr :=
  match average_price products with
  | Error e => Error e
  | Ok avg =>
      let names := product_names_tuple products in
      let cats := unique_categories products in
      Ok (summary_text (length products) avg names cats)
  end.
End tracker.
End Tracker.

(** ** [Task_3.py] *)

Module TextAnalyzer.
Section analyzer.
Context `{PyStr}.

(** The dict that [analyze_text] returns, by key. *)
Record analysis := Analysis {
  original : pystr;
  processed : pystr;
  length_ : nat;
  count_char : nat;
  word_count : nat;
  title_ : pystr;
  lower_ : pystr;
  upper_ : pystr;
  is_title : bool;
  is_lower : bool;
  is_upper : bool;
}.

Definition analyze_text (s : pystr) (strip_spaces : bool) : analysis :=
  let s_proc := if strip_spaces then strip s else s in
  let length' := length s_proc in
  let words := split s_proc in
  let word_count := length words in
  let title := title s_proc in
  let lower := lower s_proc in
  let upper := upper s_proc in
  let is_title := bool_decide (s_proc = title) in
  let is_lower := bool_decide (s_proc = lower) in
  let is_upper := bool_decide (s_proc = upper) in
  {| original := s; processed := s_proc; length_ := length';
     count_char := length'; word_count := word_count;
     title_ := title; lower_ := lower; upper_ := upper;
     is_title := is_title; is_lower := is_lower; is_upper := is_upper |}.
End analyzer.
End TextAnalyzer.

(** ** The library functions on ASCII text

    An instance of [PyStr] for running the definitions: it follows CPython
    3.11 on ASCII strings. [int] is decimal [int(s)] with the default limit
    of 4300 digits; [fromisoformat] knows only the form [YYYY-MM-DD] and
    takes every other string, also the other ISO 8601 forms that Python
    accepts, as one that does not parse; [str_of_list] is [repr] of the
    strings, as [str(list)] prints them. *)
Module AsciiLib.
Definition is_digit (c : N) : bool := ((48 <=? c) && (c <=? 57))%N.
Definition is_upper (c : N) : bool := ((65 <=? c) && (c <=? 90))%N.
Definition is_lower (c : N) : bool := ((97 <=? c) && (c <=? 122))%N.

(** Digits, single underscores between them allowed; [acc] is the value
    so far and [prev_digit] tells whether a digit came last. *)
Fixpoint digits (acc : Z) (prev_digit : bool) (s : pystr) : option Z :=
  match s with
  | [] => if prev_digit then Some acc else None
  | c :: s' =>
      if is_digit c then digits (acc * 10 + Z.of_N (c - 48)) true s'
      else if (c =? 95)%N && prev_digit then digits acc false s'
      else None
  end.

(** The whitespace that [int] skips at both ends of an ASCII string: tab
    to carriage return, and the space. *)
Definition is_space (c : N) : bool := ((9 <=? c) && (c <=? 13) || (c =? 32))%N.

Fixpoint skip_spaces (s : pystr) : pystr :=
  match s with
  | c :: s' => if is_space c then skip_spaces s' else s
  | [] => []
  end.

(** More than 4300 digits raise [ValueError]; underscores and the sign do
    not count. *)
Definition within_limit (s : pystr) : bool :=
  (N.of_nat (length (List.filter is_digit s)) <=? 4300)%N.

Definition int (s : pystr) : option Z :=
  let s := reverse (skip_spaces (reverse (skip_spaces s))) in
  if within_limit s
  then match s with
       | 45 :: s' => Z.opp <$> digits 0 false s'
       | 43 :: s' => digits 0 false s'
       | s' => digits 0 false s'
       end%N
  else None.

Definition lower_char (c : N) : N := if is_upper c then (c + 32)%N else c.
Definition upper_char (c : N) : N := if is_lower c then (c - 32)%N else c.

(** [prev_cased]: the previous character is a letter. *)
Fixpoint title_go (prev_cased : bool) (s : pystr) : pystr :=
  match s with
  | [] => []
  | c :: s' =>
      (if prev_cased then lower_char c else upper_char c)
        :: title_go (is_upper c || is_lower c) s'
  end.

Definition is_leap (y : Z) : bool :=
  (y mod 4 =? 0) && (negb (y mod 100 =? 0) || (y mod 400 =? 0)).

Definition days_in_month (y m : Z) : Z :=
  if m =? 2 then (if is_leap y then 29 else 28)
  else if (m =? 4) || (m =? 6) || (m =? 9) || (m =? 11) then 30 else 31.

Definition number (s : pystr) : option Z :=
  if forallb is_digit s then digits 0 false s else None.

Definition isodate (s : pystr) : option date :=
  match s with
  | [y1; y2; y3; y4; 45; m1; m2; 45; d1; d2]%N =>
      y ← number [y1; y2; y3; y4];
      m ← number [m1; m2];
      d ← number [d1; d2];
      if (1 <=? y) && (1 <=? m) && (m <=? 12) && (1 <=? d)
         && (d <=? days_in_month y m)
      then Some (Date y m d) else None
  | _ => None
  end.

Fixpoint join (sep : pystr) (l : list pystr) : pystr :=
  match l with
  | [] => []
  | [s] => s
  | s :: l' => s ++ sep ++ join sep l'
  end.

(** [repr(s)] for an ASCII string: in double quotes when it holds an
    apostrophe and no double quote, else in apostrophes; the quote and the
    backslash escaped, and the control characters written as escapes. *)
Definition hex_digit (n : N) : N := (if n <? 10 then 48 + n else 87 + n)%N.

Definition repr_char (quote c : N) : pystr :=
  (if (c =? quote) || (c =? 92) then [92; c]
   else if c =? 9 then [92; 116]
   else if c =? 10 then [92; 110]
   else if c =? 13 then [92; 114]
   else if (c <? 32) || (c =? 127)
        then [92; 120; hex_digit (c / 16); hex_digit (c mod 16)]
   else [c])%N.

Definition repr (s : pystr) : pystr :=
  let quote :=
    if bool_decide (39%N ∈ s) && negb (bool_decide (34%N ∈ s))
    then 34%N else 39%N in
  [quote] ++ List.flat_map (repr_char quote) s ++ [quote].

Definition list_repr (l : list pystr) : pystr :=
  str "[" ++ join (str ", ") (repr <$> l) ++ str "]".

#[export] Instance ascii : PyStr.
Proof.
  refine {| py_int := int;
            lower := fmap lower_char;
            upper := fmap upper_char;
            title := title_go false;
            fromisoformat := isodate;
            str_of_list := list_repr |}.
  intros s. by destruct s.
Defined.
End AsciiLib.


(** Exact rational arithmetic as numbers, for running the product helpers
    on concrete inputs. *)
Module Rational.
#[export] Instance rational : PyNum := {|
  num := Qc;
  py_sum := foldr Qcplus 0%Qc;
  truediv := λ x n, (x / Qc_of_Z (Z.of_nat n))%Qc;
  summary_text := λ _ _ names _, AsciiLib.join (str ", ") names;
|}.
End Rational.

(** ** The vocabulary of the statements *)

Section vocabulary.
Context `{PyStr}.
Implicit Types (r : rdict) (rows : list rdict) (fs : fsys) (ks : list key).
Implicit Types (path : pystr).

(** The number of places where a word starts: a code point that is no
    whitespace, at the start or right after whitespace. *)
Fixpoint word_starts (after_space : bool) (s : pystr) : nat :=
  match s with
  | [] => 0
  | c :: s' =>
      (if after_space && negb (isspace c) then 1 else 0)
      + word_starts (isspace c) s'
  end%nat.

(** Whether one row, whose time parses to [m], is in conflict with the
    request for minute [n] of date [d]. *)
Definition row_conflicts (d : pystr) (ign : option pystr) (b n : Z) r
  : Prop :=
  ¬ ignored ign r
  ∧ dict_get (Some (str "date")) r = Some (VStr d)
  ∧ ∃ m, row_minutes r = Some m
         ∧ (0 < b ∧ Z.abs (m - n) ≤ b ∨ b = 0 ∧ m = n).

(** The record that [DictWriter] writes for row [r] under the field names
    [ks], and the row that [DictReader] makes of it. *)
Definition to_record ks r : record :=
  (λ k, field_str (default (VStr []) (dict_get k r))) <$> ks.

Definition conform ks r : rdict :=
  (λ k, (k, VStr (field_str (default (VStr []) (dict_get k r))))) <$> ks.

(** The files after a successful [overwrite_appointments] that wrote [f]. *)
Definition replaced path (f : list record) fs : fsys :=
  delete (path ++ str ".tmp")
    (<[path := f]> (<[path ++ str ".tmp" := f]> fs)).

(** Rows that form a table with the columns [ks]: every row is a
    [Dict[str, str]] with exactly these keys, in this order. *)
Definition table ks rows : Prop :=
  NoDup ks ∧ ks ≠ []
  ∧ Forall (λ r, str_dict r ∧ dict_keys r = ks) rows.

(** Rows with one non-empty set of string keys and string values. *)
Definition uniform rows : Prop :=
  Forall (λ r, str_dict r ∧ NoDup (dict_keys r) ∧ dict_keys r ≠ []) rows
  ∧ ∀ r r', r ∈ rows → r' ∈ rows →
            ∀ k, k ∈ dict_keys r ↔ k ∈ dict_keys r'.

(** [p <= q] on sort keys: [q] is not smaller than [p]. *)
Definition key_le (p q : pystr * pystr) : Prop := key_lt q p = false.

(** Rows in the order of their sort keys. *)
Definition sorted_rows (l : list sdict) : Prop :=
  StronglySorted (λ x y, key_le (sort_key x) (sort_key y)) l.

(** [a <= b] on dates. *)
Definition date_le (a b : date) : Prop :=
  year a < year b
  ∨ year a = year b
    ∧ (month a < month b ∨ month a = month b ∧ day a ≤ day b).

(** The rows that [filter_appointments] is to return: the date parses and
    lies in the range; the issue type is one of [types], when there are
    any; the text searched contains the stripped, lowercased query, when
    the query is not blank. *)
Definition wanted (date_from date_to : date) (types : list pystr)
    (query : option pystr) (r : sdict) : Prop :=
  (∃ s rd, dict_get (str "date") r = Some s ∧ fromisoformat s = Some rd
           ∧ date_le date_from rd ∧ date_le rd date_to)
  ∧ (types ≠ [] →
     ∃ t, dict_get (str "issue_type") r = Some t ∧ t ∈ types)
  ∧ (strip (default [] query) ≠ [] →
     ∃ l l', hay r = l ++ lower (strip (default [] query)) ++ l').

(** [kept] holds exactly the rows of [rows] that satisfy [P], as often
    and in the order in which they occur. *)
Inductive selected (P : sdict → Prop) : list sdict → list sdict → Prop :=
  | selected_nil : selected P [] []
  | selected_keep (r : sdict) (rows kept : list sdict) :
      P r → selected P rows kept → selected P (r :: rows) (r :: kept)
  | selected_skip (r : sdict) (rows kept : list sdict) :
      ¬ P r → selected P rows kept → selected P (r :: rows) kept.
End vocabulary.

(** ** Example data *)

Module Examples.
Import AsciiLib Rational Tracker.

(** Two bookings in the file of the application. *)
Definition ann : record :=
  form_row (str "2025-01-01T09:00:00.000001") (str "Ann")
    (str "ann@example.org") (str "2025-01-10") (str "10:00") (str "Other") [].
Definition bob : record :=
  form_row (str "2025-01-01T09:05:00.000002") (str "Bob")
    (str "bob@example.org") (str "2025-01-11") (str "11:00")
    (str "Engine Problem") (str "noise").
Definition two_bookings : fsys := {[ APP_CSV := [HEADER; ann; bob] ]}.

(** Two bookings saved under one timestamp. *)
Definition bob_same_ts : record :=
  form_row (str "2025-01-01T09:00:00.000001") (str "Bob")
    (str "bob@example.org") (str "2025-01-11") (str "11:00")
    (str "Engine Problem") (str "noise").
Definition shared_timestamp : fsys :=
  {[ APP_CSV := [HEADER; ann; bob_same_ts] ]}.

(** A third booking whose line has one field more than the header. *)
Definition cy_surplus : record :=
  form_row (str "2025-01-02T08:00:00.000003") (str "Cy")
    (str "cy@example.org") (str "2025-01-12") (str "12:30") (str "Other") []
  ++ [str "x"].
Definition surplus_field : fsys :=
  {[ APP_CSV := [HEADER; ann; bob; cy_surplus] ]}.

(** The products of the tracker, with their prices as exact decimals. *)
Definition price_of (cents : Z) : Qc := Q2Qc (cents # 100).

Definition PRODUCTS : list product :=
  [Product (str "Wireless Earbuds") (str "Electronics") (price_of 5999);
   Product (str "Yoga Mat") (str "Sports") (price_of 2450);
   Product (str "Stainless Water Bottle") (str "Outdoor") (price_of 1995);
   Product (str "Bluetooth Speaker") (str "Electronics") (price_of 8999);
   Product (str "Smart LED Bulb") (str "Home") (price_of 1299)].
End Examples.

(** ** More string methods *)

(** [s.replace(old, new)]: the occurrences of [old] are replaced from the
    left and do not overlap; an empty [old] puts [new] around every code
    point. [fuel] bounds the steps of the scan. *)
Fixpoint replace_go (fuel : nat) (old new s : pystr) : pystr :=
  match fuel with
  | O => s
  | S fuel' =>
      if startswith old s
      then new ++ replace_go fuel' old new (drop (length old) s)
      else match s with
           | [] => []
           | c :: s' => c :: replace_go fuel' old new s'
           end
  end.

Definition str_replace (old new s : pystr) : pystr :=
  match old with
  | [] => new ++ List.flat_map (λ c, c :: new) s
  | _ => replace_go (S (length s)) old new s
  end.

(** The place in a sequence of length [len] that an index of a slice
    stands for: a negative index counts from the end, and both ends
    clamp. *)
Definition slice_index (len : nat) (i : Z) : nat :=
  Z.to_nat (if i <? 0 then Z.max 0 (Z.of_nat len + i)
            else Z.min i (Z.of_nat len)).

(** [l[start:stop]], either bound left out when it is [None]. *)
Definition slice {A} (start stop : option Z) (l : list A) : list A :=
  let a := from_option (slice_index (length l)) O start in
  let b := from_option (slice_index (length l)) (length l) stop in
  drop a (take b l).

(** [s.find(q)] and [s.rfind(q)]: the lowest and the highest index at which
    [q] occurs in [s], or [-1]; [i] is the index of the head of [s]. *)
Fixpoint find_from (i : Z) (q s : pystr) : Z :=
  if startswith q s then i
  else match s with
       | [] => -1
       | _ :: s' => find_from (i + 1) q s'
       end.

Fixpoint rfind_from (i : Z) (q s : pystr) : Z :=
  match s with
  | [] => if startswith q [] then i else -1
  | _ :: s' =>
      let later := rfind_from (i + 1) q s' in
      if later =? -1 then (if startswith q s then i else -1) else later
  end.

Definition find (s q : pystr) : Z := find_from 0 q s.
Definition rfind (s q : pystr) : Z := rfind_from 0 q s.

(** The character class left abstract: [c.isalpha()] on one code point. *)
Class PyChars := {
  isalpha_char : N → bool;
}.

(** [s.isalpha()]: at least one code point, and all of them alphabetic. *)
Definition isalpha `{PyChars} (s : pystr) : bool :=
  negb (bool_decide (s = [])) && forallb isalpha_char s.

(** The text of [f"{x:.2f}"] for a number, left abstract. *)
Class PyFormat `{PyNum} := {
  format_2f : num → pystr;
}.

(** ** More of [Task 6/ecommerce_tracker.py] *)

Module Buyer.
Section buyer.
Context `{PyStr} `{PyChars} `{PyNum} `{!PyFormat}.
Import Tracker.

Definition FORBIDDEN_IN_ID : list pystr := str <$> [" "; "-"; "."; "#"]%string.

Definition sanitize_buyer_id (bid : pystr) : pystr :=
  fold_left (λ s ch, str_replace ch [] s) FORBIDDEN_IN_ID bid.

Definition validate_name (name : pystr) : bool :=
  isalpha (str_replace (str " ") [] name).

Definition show_product_slices (p : product) : pystr :=
  let name := name p in
  let first3 := slice None (Some 3) name in
  let last3 := slice (Some (-3)) None name in
  str "'" ++ name ++ str "' -> first3: '" ++ first3 ++ str "', last3: '"
  ++ last3 ++ str "'".

(** One line of [cart_summary]. *)
Definition cart_line (p : product) : pystr :=
  str "- " ++ name p ++ str " (" ++ category p ++ str ") - $"
  ++ format_2f (price p).

Definition cart_summary (cart : list product) : pystr :=
  match cart with
  | [] => str "Cart is empty."
  | _ =>
      let lines := cart_line <$> cart in
      let total := cart_total cart in
      AsciiLib.join [10%N] lines
      ++ [10%N; 10%N] ++ str "Total (" ++ str (pretty (length cart))
      ++ str " items): $" ++ format_2f total
  end.

(** [email.split("@")[0] if "@" in email else email] *)
Definition username_of (email : pystr) : pystr :=
  if str_in (str "@") email
  then match split_on 64 email with
       | user :: _ => user
       | [] => []
       end
  else email.

(** The positions that [interactive] prints with a match. *)
Definition match_positions (keyword : pystr) (p : product) : Z * Z :=
  let name_low := lower (name p) in
  (find name_low (lower keyword), rfind name_low (lower keyword)).
End buyer.
End Buyer.

(** ** More of [Task_3.py] *)

Module Repl.
Section repl.
Context `{PyStr}.
Import TextAnalyzer.

(** What [main] prints, call by call: the banner, the three messages, and
    [pretty_print] of a result. *)
Inductive output :=
  | Banner
  | EndOfInput
  | EmptyString
  | Exiting
  | PrettyPrint (result : analysis).

(** The loop of [main] over the lines that [input] returns, one after the
    other; after the last of them [input] raises [EOFError]. *)
Fixpoint loop (lines : list pystr) : list output :=
  match lines with
  | [] => [EndOfInput]
  | s :: lines' =>
      if bool_decide (s = []) then EmptyString :: loop lines'
      else if bool_decide (lower s ∈ [str "exit"; str "quit"]) then [Exiting]
      else PrettyPrint (analyze_text s true) :: loop lines'
  end.

Definition main (lines : list pystr) : list output := Banner :: loop lines.
End repl.
End Repl.

(** ** More of [Task 5/streamlit_service_app.py] *)

(** A time of day, to the minute. *)
Record time := Time { hour : Z; minute : Z }.

(** The text of ["%0wd" % n] for a number of at most [width] digits: its
    decimal digits, with zeros in front. *)
Fixpoint zero_padded (width : nat) (n : Z) : pystr :=
  match width with
  | O => []
  | S width' => zero_padded width' (n / 10) ++ [Z.to_N (48 + n mod 10)]
  end.

(** [d.isoformat()] and [t.strftime("%H:%M")] *)
Definition isoformat (d : date) : pystr :=
  zero_padded 4 (year d) ++ str "-" ++ zero_padded 2 (month d) ++ str "-"
  ++ zero_padded 2 (day d).

Definition strftime_HM (t : time) : pystr :=
  zero_padded 2 (hour t) ++ str ":" ++ zero_padded 2 (minute t).

(** The values that [datetime.date] and [datetime.time] hold, the latter to
    the minute; [t < u] on times, and the minute of the day. *)
Definition is_date (d : date) : Prop :=
  1 ≤ year d ≤ 9999 ∧ 1 ≤ month d ≤ 12
  ∧ 1 ≤ day d ≤ AsciiLib.days_in_month (year d) (month d).

Definition is_time (t : time) : Prop := 0 ≤ hour t < 24 ∧ 0 ≤ minute t < 60.

Definition time_lt (t u : time) : bool :=
  (hour t <? hour u) || (hour t =? hour u) && (minute t <? minute u).

Definition minute_of_day (t : time) : Z := hour t * 60 + minute t.

(** Row [r] holds the date string [nd] and the time [t] as the booking
    form writes it. *)
Definition slot_of (r : rdict) (nd : pystr) (t : time) : Prop :=
  is_time t
  ∧ date_time r = (Some (VStr nd), Some (VStr (strftime_HM t))).

(** Bookings of one date are more than [b] minutes apart. *)
Definition spaced (b : Z) (rows : list rdict) : Prop :=
  ∀ i j r r' nd t t',
    i ≠ j → rows !! i = Some r → rows !! j = Some r' →
    slot_of r nd t → slot_of r' nd t' →
    b < Z.abs (minute_of_day t - minute_of_day t').

(** What the booking form shows. *)
Inductive notice :=
  | NameRequired
  | ContactRequired
  | DateInPast
  | ConflictFound (buffer : Z)
  | Saved.

Section pages.
Context `{PyStr}.

(** The handler of the booking form, from the values of its widgets, the
    buffer of the session, today's date and the time stamp of the clock. *)
Definition appointment_form_submit (name contact : pystr)
    (appt_date : date) (appt_time : time) (issue_type notes : pystr)
    (today : date) (buffer : Z) (timestamp : pystr) : M (list notice) :=
  let errors :=
    (if bool_decide (strip name = []) then [NameRequired] else [])
    ++ (if bool_decide (strip contact = []) then [ContactRequired] else [])
    ++ (if date_lt appt_date today then [DateInPast] else []) in
  if negb (bool_decide (errors = [])) then mret errors
  else
    let nd := isoformat appt_date in
    let nt := strftime_HM appt_time in
    conflict ← gets (find_conflict APP_CSV nd nt None buffer);
    if (conflict : bool) then mret [ConflictFound buffer]
    else
      let row := [timestamp; strip name; strip contact; nd; nt; issue_type;
                  strip notes] in
      append_appointment APP_CSV row ;; mret [Saved].

(** The number of pages, the page after the two buttons, and the rows of a
    page. *)
Definition pages (total page_size : Z) : Z :=
  Z.max 1 ((total + page_size - 1) / page_size).

Definition page_after (page total page_size : Z) (prev next : bool) : Z :=
  let pages := pages total page_size in
  let page := if pages <? page then pages else page in
  let page := if prev && (1 <? page) then page - 1 else page in
  if next && (page <? pages) then page + 1 else page.

Definition page_rows {A} (filtered : list A) (page page_size : Z) : list A :=
  let start := (page - 1) * page_size in
  let end_ := start + page_size in
  slice (Some start) (Some end_) filtered.

(** The text of the export of rows with string values, as
    [filter_appointments] takes them, before it is encoded: [None] when
    there is no row, and no download is offered. *)
Definition export_csv (rows : list sdict) : option pystr :=
  match rows with
  | [] => None
  | r0 :: _ =>
      let keys := dict_keys r0 in
      Some (AsciiLib.join [10%N]
              (AsciiLib.join (str ",") keys
               :: ((λ r, AsciiLib.join (str ",")
                           ((λ k, default [] (dict_get k r)) <$> keys))
                     <$> rows)))
  end.
End pages.

Arguments str : simpl never.

(** * Facts about strings *)

Section strings.
Implicit Types s p q w : pystr.

Lemma startswith_spec p s : startswith p s = true ↔ ∃ r, s = p ++ r.
Proof.
  revert s. induction p as [|a p IH]; intros s; simpl.
  - split; eauto.
  - destruct s as [|b s].
    + split; [done | by intros [r ?]].
    + rewrite andb_true_iff, N.eqb_eq, IH. split.
      * intros [-> [r ->]]. by exists r.
      * intros [r [= -> ->]]. eauto.
Qed.

(** [q in s] holds exactly when [q] is a contiguous part of [s]. *)
Lemma str_in_spec q s : str_in q s = true ↔ ∃ l r, s = l ++ q ++ r.
Proof.
  induction s as [|c s IH]; simpl.
  - rewrite orb_false_r, startswith_spec. split.
    + intros [r Hr]. by exists [], r.
    + intros (l & r & Hlr). destruct l; [by exists r | done].
  - rewrite orb_true_iff, startswith_spec, IH. split.
    + intros [[r Hr] | (l & r & ->)].
      * by exists [], r.
      * by exists (c :: l), r.
    + intros (l & r & Hlr). destruct l as [|c' l].
      * left. by exists r.
      * right. injection Hlr as -> ->. by exists l, r.
Qed.

Lemma str_in_nil s : str_in [] s = true.
Proof. apply str_in_spec. by exists [], s. Qed.

(** [lstrip] removes a whitespace prefix, and what is left does not start
    with whitespace. *)
Lemma lstrip_spec s :
  ∃ l, s = l ++ lstrip s ∧ forallb isspace l = true
       ∧ ∀ c, head (lstrip s) = Some c → isspace c = false.
Proof.
  induction s as [|c s (l & Hl & Hsp & Hhd)]; simpl.
  - by exists [].
  - destruct (isspace c) eqn:Hc.
    + exists (c :: l). simpl. rewrite Hc, <- Hl. done.
    + exists []. simpl. split_and!; [done..|]. by intros ? [= <-].
Qed.

Lemma rstrip_spec s :
  ∃ r, s = rstrip s ++ r ∧ forallb isspace r = true
       ∧ ∀ c, last (rstrip s) = Some c → isspace c = false.
Proof.
  unfold rstrip. destruct (lstrip_spec (reverse s)) as (l & Hl & Hsp & Hhd).
  exists (reverse l). split_and!.
  - rewrite <- reverse_app, <- Hl. by rewrite reverse_involutive.
  - rewrite forallb_forall in *. intros c Hc. apply Hsp.
    by rewrite <- list_elem_of_In, elem_of_reverse, list_elem_of_In in Hc.
  - intros c. rewrite last_reverse. apply Hhd.
Qed.

(** [strip] removes whitespace at both ends, and only that. *)
Lemma strip_spec s :
  ∃ l r, s = l ++ strip s ++ r
         ∧ forallb isspace l = true ∧ forallb isspace r = true
         ∧ (∀ c, head (strip s) = Some c → isspace c = false)
         ∧ (∀ c, last (strip s) = Some c → isspace c = false).
Proof.
  unfold strip.
  destruct (lstrip_spec s) as (l & Hl & Hsl & Hhd).
  destruct (rstrip_spec (lstrip s)) as (r & Hr & Hsr & Hlast).
  exists l, r. split_and!; [congruence | done.. | | done].
  intros c Hc. apply Hhd. rewrite Hr.
  destruct (rstrip (lstrip s)); [done|]. done.
Qed.


Lemma length_split_go w s :
  length (split_go w s)
  = match w with
    | [] => word_starts true s
    | _ => S (word_starts false s)
    end.
Proof.
  revert w. induction s as [|c s IH]; intros w; simpl.
  - by destruct w.
  - destruct (isspace c) eqn:Hc; simpl.
    + destruct w; simpl; rewrite (IH []); done.
    + rewrite IH. destruct w; simpl; done.
Qed.

Lemma length_split s : length (split s) = word_starts true s.
Proof. apply (length_split_go [] s). Qed.

(** Every word of [split] is non-empty and free of whitespace. *)
Lemma split_go_words w s :
  forallb (λ c, negb (isspace c)) w = true →
  Forall (λ x, x ≠ [] ∧ forallb (λ c, negb (isspace c)) x = true)
    (split_go w s).
Proof.
  revert w. induction s as [|c s IH]; intros w Hw; simpl.
  - destruct w; repeat constructor; done.
  - destruct (isspace c) eqn:Hc.
    + destruct w; [by apply IH|]. constructor; [done | by apply IH].
    + apply IH. rewrite forallb_app, Hw. simpl. by rewrite Hc.
Qed.

Lemma split_words s :
  Forall (λ x, x ≠ [] ∧ forallb (λ c, negb (isspace c)) x = true)
    (split s).
Proof. by apply split_go_words. Qed.
End strings.

(** * [analyze_text] *)

Section analyzer_facts.
Import TextAnalyzer.
Context `{PyStr}.

(** C7: with [strip_spaces=True], [analyze_text] returns the input as
    ['original'], the input without its leading and trailing whitespace as
    ['processed'], the length of the processed string as ['length'] and
    ['count_char'], the number of its whitespace-separated words as
    ['word_count'], and flags that hold exactly when the processed string
    equals its lowercase, uppercase and title-case form. *)
Theorem analyze_text_strip (s : pystr) :
  let a := analyze_text s true in
  original a = s
  ∧ processed a = strip s
  ∧ (∃ l r, s = l ++ processed a ++ r
            ∧ forallb isspace l = true ∧ forallb isspace r = true
            ∧ (∀ c, head (processed a) = Some c → isspace c = false)
            ∧ (∀ c, last (processed a) = Some c → isspace c = false))
  ∧ length_ a = length (processed a)
  ∧ count_char a = length (processed a)
  ∧ word_count a = length (split (processed a))
  ∧ word_count a = word_starts true (processed a)
  ∧ (is_lower a = true ↔ processed a = lower (processed a))
  ∧ (is_upper a = true ↔ processed a = upper (processed a))
  ∧ (is_title a = true ↔ processed a = title (processed a)).
Proof.
  simpl. split_and!; try done.
  - apply strip_spec.
  - apply length_split.
  - apply bool_decide_eq_true.
  - apply bool_decide_eq_true.
  - apply bool_decide_eq_true.
Qed.
End analyzer_facts.

(** * The product tracker *)

Section tracker_facts.
Import Tracker.
Context `{PyStr} `{PyNum}.
Implicit Types (cart products : list product) (p : product).

Lemma remove_from_cart_absent cart n :
  Forall (λ q, name q ≠ n) cart → remove_from_cart cart n = cart.
Proof.
  induction 1 as [|q cart Hq _ IH]; simpl; [done|].
  rewrite bool_decide_eq_false_2 by done. by rewrite IH.
Qed.

Lemma remove_from_cart_first l q r :
  Forall (λ x, name x ≠ name q) l →
  remove_from_cart (l ++ q :: r) (name q) = l ++ r.
Proof.
  induction 1 as [|x l Hx _ IH]; simpl.
  - by rewrite bool_decide_eq_true_2.
  - rewrite bool_decide_eq_false_2 by done. by rewrite IH.
Qed.

(** C6: adding a product whose name is not in the cart and then removing
    that name gives back the cart; [remove_from_cart] takes out only the
    first item of the given name, and changes nothing when no item has
    it. *)
Theorem cart_add_remove cart p :
  (Forall (λ q, name q ≠ name p) cart →
   remove_from_cart (add_to_cart cart p) (name p) = cart)
  ∧ (∀ l q r, cart = l ++ q :: r → Forall (λ x, name x ≠ name q) l →
              remove_from_cart cart (name q) = l ++ r)
  ∧ (∀ n, Forall (λ q, name q ≠ n) cart → remove_from_cart cart n = cart).
Proof.
  split_and!.
  - intros Hcart. unfold add_to_cart.
    rewrite remove_from_cart_first by done. apply app_nil_r.
  - intros l q r -> Hl. by apply remove_from_cart_first.
  - apply remove_from_cart_absent.
Qed.

Lemma find_products_by_keyword_filter products kw :
  find_products_by_keyword products kw
  = List.filter (λ p, str_in (lower kw) (lower (name p))) products.
Proof.
  induction products as [|p products IH]; simpl; [done|].
  rewrite IH. done.
Qed.

(** C10: [find_products_by_keyword] returns, in the order of the input,
    the products whose lowercased name contains the lowercased keyword;
    for the empty keyword these are all the products. *)
Theorem find_products_by_keyword_spec products kw :
  find_products_by_keyword products kw
  = List.filter (λ p, str_in (lower kw) (lower (name p))) products
  ∧ (∀ p, p ∈ find_products_by_keyword products kw
          ↔ p ∈ products
            ∧ ∃ l r, lower (name p) = l ++ lower kw ++ r)
  ∧ find_products_by_keyword products [] = products.
Proof.
  split_and!.
  - apply find_products_by_keyword_filter.
  - intros p. rewrite find_products_by_keyword_filter.
    rewrite !list_elem_of_In, filter_In, str_in_spec. done.
  - rewrite find_products_by_keyword_filter.
    assert (lower [] = []) as -> by by apply lower_nil.
    apply forallb_filter_id, forallb_forall. intros. apply str_in_nil.
Qed.

(** C9: on a non-empty list [average_price] returns the sum of the prices
    divided by their number and [summary] returns its text; on the empty
    list the division raises [ZeroDivisionError] in [average_price], and
    so in [summary]. *)
Theorem average_price_nonempty products :
  (products ≠ [] →
   average_price products
   = Ok (truediv (py_sum (price <$> products)) (length products))
   ∧ ∃ text, summary products = Ok text)
  ∧ (products = [] →
     average_price products = Error ZeroDivisionError
     ∧ summary products = Error ZeroDivisionError)
  ∧ ((∃ avg, average_price products = Ok avg) ↔ products ≠ [])
  ∧ ((∃ text, summary products = Ok text) ↔ products ≠ []).
Proof.
  unfold summary, average_price, div_len.
  destruct products as [|p products]; simpl.
  - split_and!; [done | done | |]; (split; [by intros [? ?] | done]).
  - split_and!; [eauto | done | |]; (split; [done | eauto]).
Qed.
End tracker_facts.

(** * The conflict check *)

Section conflict.
Context `{PyStr}.
Implicit Types (r : rdict) (rows : list rdict) (fs : fsys).

Lemma minutes_nil : minutes [] = None.
Proof. reflexivity. Qed.

Lemma row_minutes_time r m :
  row_minutes r = Some m →
  ∃ s, dict_get (Some (str "time")) r = Some (VStr s) ∧ s ≠ []
       ∧ minutes s = Some m.
Proof.
  unfold row_minutes. destruct (dict_get _ r) as [[|s|l]|]; try done.
  simpl. intros Hm. exists s. split_and!; [done| |done].
  intros ->. by rewrite minutes_nil in Hm.
Qed.


Lemma ignored_test ign r :
  match ign with
  | Some ts => negb (bool_decide (ts = [])) && negb (ts_differs ts r)
  | None => false
  end = true ↔ ignored ign r.
Proof.
  unfold ignored, ts_differs. destruct ign as [ts|].
  - rewrite andb_true_iff, !negb_true_iff, negb_false_iff,
      bool_decide_eq_false, bool_decide_eq_true.
    split; [intros []; eauto | intros (? & [= <-] & ? & ?); done].
  - split; [done | by intros (? & ? & _)].
Qed.

Lemma find_conflict_rows_spec rows d t ign b n :
  Forall (λ r, is_Some (row_minutes r)) rows →
  find_conflict_rows rows d t ign b (Some n) = true
  ↔ ∃ r, r ∈ rows ∧ row_conflicts d ign b n r.
Proof.
  induction 1 as [|r rows [m Hm] _ IH].
  - simpl. split; [done | intros (r & Hr & _); by apply elem_of_nil in Hr].
  - assert (∀ P : Prop, (P ∨ ∃ r', r' ∈ rows ∧ row_conflicts d ign b n r')
              ↔ (P ∨ find_conflict_rows rows d t ign b (Some n) = true))
      as Hrest by (intros; by rewrite IH).
    transitivity (row_conflicts d ign b n r
                  ∨ find_conflict_rows rows d t ign b (Some n) = true).
    2:{ rewrite <- Hrest. split.
        - intros [?|(r' & ? & ?)]; [exists r | exists r'];
            (split; [by constructor | done]).
        - intros (r' & [->|?]%elem_of_cons & ?); eauto. }
    destruct (row_minutes_time _ _ Hm) as (s & Htime & Hs & Hmin).
    unfold row_conflicts. rewrite Hm. simpl. rewrite Htime. simpl.
    rewrite Hmin.
    rewrite (bool_decide_eq_false_2 (s = [])) by done. simpl.
    pose proof (ignored_test ign r) as Hign.
    destruct (match ign with Some _ => _ | None => _ end).
    { split; [auto | intros [(Hn & _)|?]; [|done]].
      destruct Hn. by apply Hign. }
    assert (¬ ignored ign r) as Hnign by (rewrite <- Hign; done).
    case_bool_decide as Hd; simpl.
    2:{ split; [auto | intros [(_ & ? & _)|?]; done]. }
    destruct (Z.eqb_spec b 0) as [->|Hb]; simpl.
    + destruct (Z.eqb_spec m n) as [->|Hmn]; simpl.
      * split; [|done]. intros _. left. split_and!; [done..|].
        exists n. split; [done|]. right. done.
      * split; [auto|]. intros [(_ & _ & m' & [= <-] & Hc)|?]; [|done].
        destruct Hc as [[? _]|[_ ?]]; [lia | done].
    + destruct (Z.leb_spec (Z.abs (m - n)) b) as [Hle|Hgt]; simpl.
      * split; [|done]. intros _. left. split_and!; [done..|].
        exists m. split; [done|]. left. lia.
      * rewrite andb_false_r.
        split; [auto|]. intros [(_ & _ & m' & [= <-] & Hc)|?]; [|done].
        destruct Hc as [[_ ?]|[? _]]; [lia | done].
Qed.

(** C2: when the requested time and the time of every stored row parse as
    hours and minutes, [find_conflict] returns [True] exactly when some
    stored row is not ignored (no [ignore_ts], an empty one, or another
    timestamp), has the requested date, and lies within [b] minutes for
    [b > 0], or at the same minute for [b = 0]. *)
Theorem find_conflict_spec path d t ign b fs n :
  minutes t = Some n →
  Forall (λ r, is_Some (row_minutes r)) (read_appointments path fs) →
  find_conflict path d t ign b fs = true
  ↔ ∃ r m, r ∈ read_appointments path fs
           ∧ (ign = None ∨ ign = Some []
              ∨ dict_get (Some (str "timestamp")) r ≠ VStr <$> ign)
           ∧ dict_get (Some (str "date")) r = Some (VStr d)
           ∧ row_minutes r = Some m
           ∧ (0 < b ∧ Z.abs (m - n) ≤ b ∨ b = 0 ∧ m = n).
Proof.
  intros Ht Hrows. unfold find_conflict. rewrite Ht.
  rewrite find_conflict_rows_spec by done. unfold row_conflicts, ignored.
  split.
  - intros (r & Hr & Hign & Hd & m & Hm & Hc). exists r, m.
    split_and!; try done.
    destruct ign as [ts|]; [|by left]. right.
    destruct (decide (ts = [])) as [->|Hts]; [by left|]. right.
    simpl. intros Heq. apply Hign. eauto.
  - intros (r & m & Hr & Hign & Hd & Hm & Hc). exists r.
    split_and!; try done; [|eauto].
    intros (ts & -> & Hts & Heq).
    destruct Hign as [?|[[= ->]|Hne]]; done.
Qed.
End conflict.

(** * Facts about dicts *)

Section dict_facts.
Context {K V : Type} `{EqDecision K}.
Implicit Types (d : list (K * V)) (k : K) (v : V).

Lemma dict_get_Some_elem d k v : dict_get k d = Some v → (k, v) ∈ d.
Proof.
  induction d as [|[k' v'] d IH]; simpl; [done|].
  case_decide as Hk.
  - intros [= ->]. subst. by left.
  - intros. right. auto.
Qed.

Lemma dict_get_None d k : dict_get k d = None ↔ k ∉ dict_keys d.
Proof.
  unfold dict_keys. induction d as [|[k' v'] d IH]; simpl.
  - split; [intros _; apply not_elem_of_nil | done].
  - rewrite not_elem_of_cons, <- IH. case_decide as Hk.
    + split; [done | by intros [? _]].
    + split; [done | by intros [_ ?]].
Qed.

Lemma dict_get_elem d k v :
  NoDup (dict_keys d) → (k, v) ∈ d → dict_get k d = Some v.
Proof.
  unfold dict_keys. induction d as [|[k' v'] d IH]; simpl.
  - by intros _ ?%elem_of_nil.
  - intros [Hk' Hd]%NoDup_cons [[= -> ->]|Hin]%elem_of_cons.
    + by rewrite decide_True.
    + rewrite decide_False; [auto|]. intros ->. apply Hk'.
      apply list_elem_of_fmap. by exists (k', v).
Qed.

Lemma dict_get_set d k k' v :
  dict_get k' (dict_set k v d)
  = if decide (k' = k) then Some v else dict_get k' d.
Proof.
  induction d as [|[k0 v0] d IH]; simpl.
  - done.
  - destruct (decide (k = k0)) as [->|Hk]; simpl.
    + repeat case_decide; congruence.
    + rewrite IH. repeat case_decide; congruence.
Qed.

Lemma dict_set_fresh d k v :
  k ∉ dict_keys d → dict_set k v d = d ++ [(k, v)].
Proof.
  unfold dict_keys. induction d as [|[k0 v0] d IH]; simpl; [done|].
  intros [Hk Hd]%not_elem_of_cons.
  rewrite decide_False by done. by rewrite IH.
Qed.

Lemma dict_keys_set d k v :
  dict_keys (dict_set k v d)
  = if decide (k ∈ dict_keys d) then dict_keys d else dict_keys d ++ [k].
Proof.
  unfold dict_keys. induction d as [|[k0 v0] d IH].
  - rewrite decide_False; [done | apply not_elem_of_nil].
  - cbn [dict_set]. rewrite fmap_cons. cbn [fst].
    destruct (decide (k = k0)) as [->|Hk].
    + rewrite decide_True; [done | by left].
    + rewrite fmap_cons, IH. cbn [fst]. destruct (decide (k ∈ d.*1)).
      * rewrite decide_True; [done | by right].
      * rewrite decide_False; [done|]. by intros [?|?]%elem_of_cons.
Qed.

Lemma dict_set_NoDup d k v :
  NoDup (dict_keys d) → NoDup (dict_keys (dict_set k v d)).
Proof.
  intros Hd. rewrite dict_keys_set. case_decide as Hk; [done|].
  apply NoDup_app. split_and!; [done| |apply NoDup_singleton].
  intros x Hx ->%list_elem_of_singleton. done.
Qed.

Lemma dict_set_nonempty d k v : dict_set k v d ≠ [].
Proof. destruct d as [|[k0 v0] d]; simpl; [done|]. by case_decide. Qed.


Lemma dict_update_NoDup d items :
  NoDup (dict_keys d) → NoDup (dict_keys (dict_update d items)).
Proof.
  revert d. induction items as [|[k v] items IH]; intros d Hd; simpl;
    [done|].
  apply IH. by apply dict_set_NoDup.
Qed.

Lemma dict_update_fresh d items :
  NoDup (dict_keys d ++ items.*1) → dict_update d items = d ++ items.
Proof.
  revert d. induction items as [|[k v] items IH]; intros d Hd; simpl.
  - by rewrite app_nil_r.
  - simpl in Hd. rewrite dict_set_fresh.
    + rewrite IH; [by rewrite <- app_assoc|].
      unfold dict_keys. rewrite fmap_app. simpl. by rewrite <- app_assoc.
    + apply NoDup_app in Hd as (_ & Hd & _). intros Hk.
      apply (Hd k Hk). by left.
Qed.

Lemma dict_update_keys d d' items items' :
  dict_keys d = dict_keys d' → items.*1 = items'.*1 →
  dict_keys (dict_update d items) = dict_keys (dict_update d' items').
Proof.
  revert d d' items'.
  induction items as [|[k v] items IH]; intros d d' [|[k' v'] items'];
    simpl; try done.
  intros Hd [= -> Hitems]. apply IH; [|done].
  rewrite !dict_keys_set, Hd. done.
Qed.

Lemma dict_update_nonempty d items :
  d ≠ [] ∨ items ≠ [] → dict_update d items ≠ [].
Proof.
  revert d. induction items as [|[k v] items IH]; intros d; simpl.
  - by intros [?|?].
  - intros _. apply IH. left. apply dict_set_nonempty.
Qed.

Lemma dict_of_NoDup_keys (items : list (K * V)) :
  NoDup (dict_keys (dict_of items)).
Proof. apply dict_update_NoDup, NoDup_nil_2. Qed.

Lemma dict_of_fresh (items : list (K * V)) :
  NoDup items.*1 → dict_of items = items.
Proof. intros. by apply (dict_update_fresh []). Qed.

(** The dict with keys [ks], in this order, and values [g k]. *)
Lemma dict_get_tabulate (g : K → V) (ks : list K) k :
  dict_get k ((λ k, (k, g k)) <$> ks)
  = if decide (k ∈ ks) then Some (g k) else None.
Proof.
  induction ks as [|k0 ks IH].
  - rewrite decide_False; [done | apply not_elem_of_nil].
  - rewrite fmap_cons. cbn [dict_get].
    destruct (decide (k = k0)) as [->|Hk].
    + rewrite decide_True; [done | by left].
    + rewrite IH. destruct (decide (k ∈ ks)).
      * rewrite decide_True; [done | by right].
      * rewrite decide_False; [done|]. by intros [?|?]%elem_of_cons.
Qed.

Lemma zip_tabulate (g : K → V) (ks : list K) :
  zip ks (g <$> ks) = (λ k, (k, g k)) <$> ks.
Proof. induction ks as [|k ks IH]; csimpl; [done | by rewrite IH]. Qed.

#[global] Instance dict_eq_equiv : Equivalence (@dict_eq K V _).
Proof.
  split.
  - by intros d k.
  - by intros d1 d2 Hd k.
  - intros d1 d2 d3 H1 H2 k. by rewrite H1.
Qed.
End dict_facts.

(** * Writing rows and reading them back *)

Section store_facts.
Context `{PyStr}.
Implicit Types (r : rdict) (rows : list rdict) (fs : fsys) (ks : list key).
Implicit Types (path : pystr).


Lemma str_dict_elem r k v :
  str_dict r → (k, v) ∈ r → is_Some k ∧ ∃ s, v = VStr s.
Proof. intros Hr Hin. by apply (proj1 (Forall_forall _ _) Hr (k, v)). Qed.

Lemma str_dict_get r k v :
  str_dict r → dict_get k r = Some v → ∃ s, v = VStr s.
Proof.
  intros Hr Hget%dict_get_Some_elem. by destruct (str_dict_elem _ _ _ Hr Hget).
Qed.

Lemma str_dict_keys r : str_dict r → Forall is_Some (dict_keys r).
Proof.
  intros Hr. apply Forall_fmap. eapply Forall_impl; [exact Hr|].
  by intros [k v] [? _].
Qed.

Lemma str_dictb_spec r : str_dictb r = true ↔ str_dict r.
Proof.
  unfold str_dictb, str_dict. rewrite forallb_forall, Forall_forall.
  split; intros Hr [k v] Hin.
  - apply list_elem_of_In, Hr in Hin. destruct k, v; try done.
    simpl. eauto.
  - apply list_elem_of_In, Hr in Hin. destruct Hin as [[? [= ->]] [s [= ->]]].
    done.
Qed.

Lemma of_sdict_str (d : sdict) : str_dict (of_sdict d).
Proof.
  unfold of_sdict. apply Forall_fmap, Forall_forall.
  intros [k v] _. simpl. eauto.
Qed.

Lemma dict_to_list_ok ks r :
  dict_keys r ⊆ ks → dict_to_list ks r = Some (to_record ks r).
Proof.
  intros Hsub. unfold dict_to_list.
  rewrite (proj2 (forallb_forall _ _)); [done|].
  intros k Hk%list_elem_of_In. apply bool_decide_eq_true. by apply Hsub.
Qed.

Lemma writerows_ok ks rows f :
  Forall (λ r, dict_keys r ⊆ ks) rows →
  writerows ks rows f = (f ++ (to_record ks <$> rows), None).
Proof.
  intros Hrows. revert f.
  induction Hrows as [|r rows Hr _ IH]; intros f; simpl.
  - by rewrite app_nil_r.
  - rewrite dict_to_list_ok by done. rewrite IH, <- app_assoc. done.
Qed.

Lemma tmp_ne path : path ++ str ".tmp" ≠ path.
Proof.
  intros Heq. apply (f_equal length) in Heq.
  rewrite length_app in Heq. simpl in Heq. lia.
Qed.


Lemma read_replaced path f fs :
  read_appointments path (replaced path f fs) = DictReader f.
Proof.
  unfold read_appointments, replaced.
  rewrite lookup_delete_ne by apply tmp_ne.
  by rewrite lookup_insert_eq.
Qed.

Lemma overwrite_ok path r0 rows fs :
  Forall (λ r, dict_keys r ⊆ dict_keys r0) (r0 :: rows) →
  overwrite_appointments path (r0 :: rows) fs
  = Ret tt (replaced path
              (header_record (dict_keys r0)
                 :: (to_record (dict_keys r0) <$> r0 :: rows)) fs).
Proof.
  intros Hrows. unfold overwrite_appointments.
  rewrite writerows_ok by done. done.
Qed.

Lemma header_record_keys ks :
  Forall is_Some ks → Some <$> header_record ks = ks.
Proof.
  unfold header_record. induction 1 as [|k ks [s ->] _ IH]; csimpl;
    [done | by rewrite IH].
Qed.

Lemma row_dict_written ks r :
  Forall is_Some ks → NoDup ks →
  row_dict (header_record ks) (to_record ks r) = conform ks r.
Proof.
  intros Hks Hnd. unfold row_dict, to_record, header_record.
  rewrite !length_fmap, Nat.ltb_irrefl.
  fold (header_record ks). rewrite header_record_keys by done.
  rewrite <- list_fmap_compose, zip_tabulate.
  rewrite dict_of_fresh; [done|]. rewrite <- list_fmap_compose.
  by rewrite (list_fmap_ext _ id ks), list_fmap_id.
Qed.

Lemma DictReader_written ks rows :
  ks ≠ [] → Forall is_Some ks → NoDup ks →
  DictReader (header_record ks :: (to_record ks <$> rows))
  = conform ks <$> rows.
Proof.
  intros Hne Hks Hnd. unfold DictReader.
  induction rows as [|r rows IH]; [done|].
  rewrite fmap_cons. cbn [List.filter].
  rewrite bool_decide_eq_false_2.
  - cbn [negb]. rewrite fmap_cons, IH, row_dict_written by done. done.
  - unfold to_record. by destruct ks.
Qed.

Lemma conform_id r :
  str_dict r → NoDup (dict_keys r) → conform (dict_keys r) r = r.
Proof.
  intros Hr Hnd. unfold conform, dict_keys. rewrite <- list_fmap_compose.
  etransitivity; [|apply list_fmap_id]. apply list_fmap_ext.
  intros i [k v] Hi%list_elem_of_lookup_2. simpl.
  rewrite (dict_get_elem r k v) by done.
  destruct (str_dict_elem _ _ _ Hr Hi) as [_ [s ->]]. done.
Qed.

Lemma conform_eq ks r :
  str_dict r → (∀ k, k ∈ ks ↔ k ∈ dict_keys r) → dict_eq (conform ks r) r.
Proof.
  intros Hr Hks k. unfold conform.
  rewrite (dict_get_tabulate
             (λ k, VStr (field_str (default (VStr []) (dict_get k r))))).
  destruct (dict_get k r) as [v|] eqn:Hget.
  - rewrite decide_True.
    + destruct (str_dict_get _ _ _ Hr Hget) as [s ->]. done.
    + apply Hks. apply dec_stable. rewrite <- dict_get_None. congruence.
  - rewrite decide_False; [done|]. rewrite Hks. by apply dict_get_None.
Qed.
End store_facts.

Section typed_rows.
Context `{PyStr}.
Implicit Types (r : rdict) (rows : list rdict) (fs : fsys) (ks : list key).
Implicit Types (path : pystr).

(** A line whose dict is a [Dict[str, str]] has as many fields as the
    header. *)
Lemma row_dict_str (fieldnames row : record) :
  str_dict (row_dict fieldnames row) → length row = length fieldnames.
Proof.
  unfold row_dict. intros Hr.
  destruct (Nat.ltb_spec (length fieldnames) (length row)) as [Hlt|Hge].
  { exfalso. eapply (str_dict_elem _ None) in Hr as [[? [=]] _].
    apply dict_get_Some_elem. rewrite dict_get_set. by rewrite decide_True. }
  destruct (Nat.ltb_spec (length row) (length fieldnames)) as [Hlt|Hle];
    [|lia].
  exfalso. pose proof (length_drop fieldnames (length row)) as Hlen.
  destruct (drop (length row) fieldnames) as [|k ks] using rev_ind;
    [simpl in Hlen; lia|].
  rewrite fold_left_app in Hr. simpl in Hr.
  eapply (str_dict_elem _ (Some k) VNone) in Hr as [_ [s [=]]].
  apply dict_get_Some_elem. rewrite dict_get_set. by rewrite decide_True.
Qed.

Lemma row_dict_full (fieldnames row : record) :
  length row = length fieldnames →
  row_dict fieldnames row
  = dict_of (zip (Some <$> fieldnames) (VStr <$> row)).
Proof. intros Hlen. unfold row_dict. by rewrite Hlen, Nat.ltb_irrefl. Qed.


Lemma table_sublist ks rows rows' :
  rows' ⊆ rows → table ks rows → table ks rows'.
Proof.
  intros Hsub (Hnd & Hne & Hrows). split_and!; [done..|].
  rewrite Forall_forall in *. auto.
Qed.

(** The rows read from a file are a table as soon as each of them is a
    [Dict[str, str]]. *)
Lemma DictReader_table f :
  Forall str_dict (DictReader f) → ∃ ks, table ks (DictReader f).
Proof.
  destruct f as [|fieldnames body]; simpl.
  { intros _. exists [None]. split_and!; [apply NoDup_singleton|done..]. }
  intros Hrows. rewrite Forall_fmap, Forall_forall in Hrows.
  assert (∀ row,
            row ∈ List.filter (λ row, negb (bool_decide (row = []))) body →
            row ≠ [] ∧ length row = length fieldnames) as Hrow.
  { intros row Hin. split.
    - apply list_elem_of_In, filter_In in Hin as [_ Hne].
      by apply negb_true_iff, bool_decide_eq_false in Hne.
    - apply row_dict_str. by apply Hrows. }
  destruct (decide (fieldnames = [])) as [->|Hfn].
  { exists [None]. split_and!; [apply NoDup_singleton|done|].
    apply Forall_fmap, Forall_forall. intros row [Hne Hlen]%Hrow.
    by destruct row. }
  exists (dict_keys (dict_of (zip (Some <$> fieldnames)
                                (VStr <$> fieldnames)))).
  split_and!.
  - apply dict_of_NoDup_keys.
  - intros Hks. apply (f_equal length) in Hks. unfold dict_keys in Hks.
    rewrite length_fmap in Hks. apply nil_length_inv in Hks.
    revert Hks. apply dict_update_nonempty. right. by destruct fieldnames.
  - apply Forall_fmap, Forall_forall. intros row Hin.
    destruct (Hrow _ Hin) as [_ Hlen]. simpl. split; [by apply Hrows|].
    rewrite row_dict_full by done.
    apply (dict_update_keys [] []); [done|].
    rewrite !fst_zip; [done | rewrite !length_fmap; lia..].
Qed.

Lemma read_appointments_table path fs :
  Forall str_dict (read_appointments path fs) →
  ∃ ks, table ks (read_appointments path fs).
Proof.
  unfold read_appointments. destruct (fs !! path) as [f|].
  - apply DictReader_table.
  - intros _. exists [None]. split_and!; [apply NoDup_singleton|done..].
Qed.


Lemma table_uniform ks rows : table ks rows → uniform rows.
Proof.
  intros (Hnd & Hne & Hrows). rewrite Forall_forall in Hrows. split.
  - apply Forall_forall. intros r [Hr Hk]%Hrows. by rewrite Hk.
  - intros r r' [_ ->]%Hrows [_ ->]%Hrows. done.
Qed.

(** What [overwrite_appointments] leaves, and what is then read. *)
Lemma overwrite_uniform path rows fs :
  uniform rows →
  ∃ fs', overwrite_appointments path rows fs = Ret tt fs'
         ∧ read_appointments path fs'
           = conform (default [] (dict_keys <$> head rows)) <$> rows.
Proof.
  intros [Hrows Hkeys]. destruct rows as [|r0 rows].
  { eexists. split; [done|]. simpl. unfold read_appointments.
    by rewrite lookup_insert_eq. }
  eexists. split.
  - apply overwrite_ok. apply Forall_forall. intros r Hr k.
    apply (Hkeys r r0); [done | by left].
  - apply Forall_cons in Hrows as [(Hr0 & Hnd & Hne) _].
    rewrite read_replaced.
    apply (DictReader_written (dict_keys r0) (r0 :: rows));
      [done | by apply str_dict_keys | done].
Qed.

Lemma overwrite_uniform_eq path rows fs :
  uniform rows →
  ∃ fs', overwrite_appointments path rows fs = Ret tt fs'
         ∧ Forall2 dict_eq (read_appointments path fs') rows.
Proof.
  intros Hu.
  destruct (overwrite_uniform path rows fs Hu) as (fs' & Hfs' & Hread).
  exists fs'. split; [done|]. rewrite Hread. destruct Hu as [Hrows Hkeys].
  apply Forall2_fmap_l, Forall_Forall2_diag, Forall_forall.
  intros r Hr. destruct (proj1 (Forall_forall _ _) Hrows r Hr) as (Hstr & _).
  apply conform_eq; [done|]. destruct rows as [|r0 rows].
  - by apply elem_of_nil in Hr.
  - simpl. intros k. apply (Hkeys r0 r); [by left | done].
Qed.

Lemma overwrite_table path ks rows fs :
  table ks rows →
  ∃ fs', overwrite_appointments path rows fs = Ret tt fs'
         ∧ read_appointments path fs' = rows.
Proof.
  intros Ht.
  destruct (overwrite_uniform path rows fs (table_uniform _ _ Ht))
    as (fs' & Hfs' & Hread).
  exists fs'. split; [done|]. rewrite Hread.
  destruct Ht as (Hnd & Hne & Hrows).
  etransitivity; [|apply list_fmap_id]. apply list_fmap_ext.
  intros i r Hr%list_elem_of_lookup_2.
  destruct (proj1 (Forall_forall _ _) Hrows r Hr) as [Hstr Hk].
  destruct rows as [|r0 rows]; [by apply elem_of_nil in Hr|]. simpl.
  apply Forall_cons in Hrows as [[_ ->] _]. rewrite <- Hk.
  apply conform_id; [done | by rewrite Hk].
Qed.
End typed_rows.

(** * The round trip, deleting and updating *)

Section crud.
Context `{PyStr}.
Implicit Types (r : rdict) (rows : list rdict) (fs : fsys) (ks : list key).
Implicit Types (path ts : pystr).


Lemma filter_length_eq {A} (f : A → bool) (l : list A) :
  length (List.filter f l) = length l → List.filter f l = l.
Proof.
  induction l as [|x l IH]; simpl; [done|].
  pose proof (filter_length_le f l). destruct (f x); simpl.
  - intros [= Hlen]. by rewrite IH.
  - lia.
Qed.

Lemma filter_id_Forall {A} (f : A → bool) (l : list A) :
  List.filter f l = l → Forall (λ x, f x = true) l.
Proof.
  intros Heq. apply Forall_forall. intros x Hx%list_elem_of_In.
  rewrite <- Heq in Hx. by apply filter_In in Hx as [_ ?].
Qed.

Lemma filter_length_ne {A} (f : A → bool) (l : list A) :
  length (List.filter f l) ≠ length l → ∃ x, x ∈ l ∧ f x = false.
Proof.
  induction l as [|x l IH]; simpl; [done|].
  destruct (f x) eqn:Hx; simpl.
  - intros Hlen. destruct IH as (y & ? & ?); [lia|].
    exists y. split; [by right | done].
  - intros _. exists x. split; [by left | done].
Qed.

Lemma delete_appointment_unfold path ts fs :
  delete_appointment path ts fs
  = let rows := read_appointments path fs in
    let new_rows := List.filter (ts_differs ts) rows in
    if (length new_rows =? length rows)%nat then Ret false fs
    else match overwrite_appointments path new_rows fs with
         | Ret _ fs' => Ret true fs'
         | Raise e fs' => Raise e fs'
         end.
Proof.
  unfold delete_appointment, mbind, M_bind, gets. simpl.
  by destruct (_ =? _)%nat.
Qed.

(** C3, as amended: when no stored row has the timestamp [ts],
    [delete_appointment] returns [False] and leaves the files as they are;
    when the stored rows are [Dict[str, str]], it leaves exactly the rows
    whose timestamp is not [ts], in their order, it returns [True] exactly
    when some stored row had the timestamp [ts], and when it returns
    [False] the files are as before. *)
Theorem delete_appointment_spec path ts fs :
  (Forall (λ r, dict_get (Some (str "timestamp")) r ≠ Some (VStr ts))
     (read_appointments path fs) →
   delete_appointment path ts fs = Ret false fs)
  ∧ (Forall str_dict (read_appointments path fs) →
     ∃ b fs',
       delete_appointment path ts fs = Ret b fs'
       ∧ read_appointments path fs'
         = List.filter
             (λ r, negb (bool_decide (dict_get (Some (str "timestamp")) r
                                      = Some (VStr ts))))
             (read_appointments path fs)
       ∧ (b = true
          ↔ ∃ r, r ∈ read_appointments path fs
                 ∧ dict_get (Some (str "timestamp")) r = Some (VStr ts))
       ∧ (b = false → fs' = fs)).
Proof.
  rewrite delete_appointment_unfold. simpl. split.
  { intros Hnone. rewrite forallb_filter_id, Nat.eqb_refl; [done|].
    apply forallb_forall. intros r Hr%list_elem_of_In.
    apply (proj1 (Forall_forall _ _) Hnone) in Hr. unfold ts_differs.
    by rewrite bool_decide_eq_false_2. }
  intros Hrows. fold (ts_differs ts).
  destruct (Nat.eqb_spec (length (List.filter (ts_differs ts)
                                    (read_appointments path fs)))
              (length (read_appointments path fs))) as [Hlen|Hlen].
  - apply filter_length_eq in Hlen. exists false, fs. split_and!; try done.
    split; [done|]. intros (r & Hr & Hts).
    apply filter_id_Forall in Hlen.
    apply (proj1 (Forall_forall _ _) Hlen) in Hr. unfold ts_differs in Hr.
    by rewrite bool_decide_eq_true_2 in Hr.
  - destruct (read_appointments_table _ _ Hrows) as [ks Ht].
    destruct (overwrite_table path ks
                (List.filter (ts_differs ts) (read_appointments path fs)) fs)
      as (fs' & -> & Hread).
    { eapply table_sublist; [|exact Ht].
      intros r Hr. apply list_elem_of_In, filter_In in Hr as [Hr _].
      by apply list_elem_of_In. }
    exists true, fs'. split_and!; try done.
    split; [|done]. intros _.
    apply filter_length_ne in Hlen as (r & Hr & Hts). exists r.
    split; [done|]. unfold ts_differs in Hts.
    by apply negb_false_iff, bool_decide_eq_true in Hts.
Qed.

(** The loop of [update_appointment] replaces the first row with the
    timestamp, or finds none. *)
Lemma update_rows_none ts new_row rows :
  Forall (λ r, dict_get (Some (str "timestamp")) r ≠ Some (VStr ts)) rows →
  update_rows ts new_row rows = (rows, false).
Proof.
  induction 1 as [|r rows Hr _ IH]; simpl; [done|]. unfold ts_differs.
  rewrite bool_decide_eq_false_2 by done. simpl. by rewrite IH.
Qed.

Lemma update_rows_first ts new_row l1 r l2 :
  Forall (λ r, dict_get (Some (str "timestamp")) r ≠ Some (VStr ts)) l1 →
  dict_get (Some (str "timestamp")) r = Some (VStr ts) →
  update_rows ts new_row (l1 ++ r :: l2) = (l1 ++ new_row :: l2, true).
Proof.
  intros Hl1 Hr. induction Hl1 as [|x l1 Hx _ IH]; simpl; unfold ts_differs.
  - by rewrite bool_decide_eq_true_2.
  - rewrite bool_decide_eq_false_2 by done. simpl. by rewrite IH.
Qed.

Lemma update_appointment_unfold path ts new_row fs :
  update_appointment path ts new_row fs
  = let '(rows, updated) :=
      update_rows ts new_row (read_appointments path fs) in
    if updated
    then match overwrite_appointments path rows fs with
         | Ret _ fs' => Ret true fs'
         | Raise e fs' => Raise e fs'
         end
    else Ret false fs.
Proof.
  unfold update_appointment, mbind, M_bind, gets. simpl.
  destruct (update_rows _ _ _) as [rows []]; [|done].
  by destruct (overwrite_appointments _ _ _).
Qed.

(** C4, as amended: when no stored row has the timestamp [ts],
    [update_appointment] returns [False] and leaves the files as they are;
    when the stored rows are [Dict[str, str]] and [new_row] is one with
    their keys, it replaces the first row with the timestamp [ts] by
    [new_row], leaves every other row as it is and where it is, and
    returns [True]. *)
Theorem update_appointment_spec path ts new_row fs :
  (Forall (λ r, dict_get (Some (str "timestamp")) r ≠ Some (VStr ts))
     (read_appointments path fs) →
   update_appointment path ts new_row fs = Ret false fs)
  ∧ (Forall str_dict (read_appointments path fs) →
     str_dict new_row → NoDup (dict_keys new_row) →
     (∀ r k, r ∈ read_appointments path fs →
             k ∈ dict_keys new_row ↔ k ∈ dict_keys r) →
     ∀ l1 r l2,
       read_appointments path fs = l1 ++ r :: l2 →
       Forall (λ r, dict_get (Some (str "timestamp")) r ≠ Some (VStr ts))
         l1 →
       dict_get (Some (str "timestamp")) r = Some (VStr ts) →
       ∃ fs', update_appointment path ts new_row fs = Ret true fs'
              ∧ Forall2 dict_eq (read_appointments path fs')
                  (l1 ++ new_row :: l2)).
Proof.
  split.
  - intros Hnone. rewrite update_appointment_unfold.
    by rewrite update_rows_none.
  - intros Hrows Hnew Hnd Hkeys l1 r l2 Heq Hl1 Hr.
    rewrite update_appointment_unfold, Heq, update_rows_first by done.
    destruct (read_appointments_table _ _ Hrows) as (ks & Hks & Hne & Ht).
    rewrite Heq in Ht, Hkeys. rewrite Forall_forall in Ht.
    assert (∀ k, k ∈ dict_keys new_row ↔ k ∈ ks) as Hnk.
    { assert (r ∈ l1 ++ r :: l2) as Hin
        by (apply elem_of_app; right; by left).
      intros k. rewrite (Hkeys r k Hin). by destruct (Ht r Hin) as [_ ->]. }
    destruct (overwrite_uniform_eq path (l1 ++ new_row :: l2) fs)
      as (fs' & -> & Hread); [|by exists fs'].
    assert (∀ x, x ∈ l1 ++ new_row :: l2 →
                 str_dict x ∧ NoDup (dict_keys x)
                 ∧ ∀ k, k ∈ dict_keys x ↔ k ∈ ks) as Hall.
    { intros x [Hx|[->|Hx]%elem_of_cons]%elem_of_app.
      - destruct (Ht x) as [? ->]; [apply elem_of_app; by left|]. done.
      - done.
      - destruct (Ht x) as [? ->];
          [apply elem_of_app; right; by right|]. done. }
    split.
    + apply Forall_forall. intros x Hx.
      destruct (Hall x Hx) as (? & ? & Hxk). split_and!; [done..|].
      intros Hnil. destruct ks as [|k ks]; [done|].
      assert (k ∈ dict_keys x) as Hk by (apply Hxk; by left).
      rewrite Hnil in Hk. by apply elem_of_nil in Hk.
    + intros x x' Hx Hx' k.
      destruct (Hall x Hx) as (_ & _ & Hxk).
      destruct (Hall x' Hx') as (_ & _ & Hxk'). by rewrite Hxk, Hxk'.
Qed.
End crud.

(** * No double booking *)

Section booking.
Context `{PyStr}.
Implicit Types (r : rdict) (rows : list rdict) (fs : fsys).
Implicit Types (path ts d t : pystr).

(** A row with the requested date and time is a conflict, whatever the
    buffer is set to zero for. *)
Lemma find_conflict_same_slot path d t ign fs r :
  Forall (λ r, is_Some (row_minutes r)) (read_appointments path fs) →
  r ∈ read_appointments path fs →
  ¬ ignored ign r →
  date_time r = (Some (VStr d), Some (VStr t)) →
  find_conflict path d t ign 0 fs = true.
Proof.
  intros Hrows Hr Hign [= Hd Ht].
  destruct (proj1 (Forall_forall _ _) Hrows r Hr) as [m Hm].
  assert (minutes t = Some m) as Hmin.
  { unfold row_minutes in Hm. by rewrite Ht in Hm. }
  unfold find_conflict. rewrite Hmin.
  apply find_conflict_rows_spec; [done|]. exists r. split; [done|].
  split_and!; [done..|]. exists m. split; [done|]. by right.
Qed.

Lemma append_appointment_read path row fs :
  (fs !! path = None ∨ ∃ body, fs !! path = Some (HEADER :: body)) →
  row ≠ [] →
  ∃ fs', append_appointment path row fs = Ret tt fs'
         ∧ read_appointments path fs'
           = read_appointments path fs ++ [row_dict HEADER row].
Proof.
  intros Hfile Hrow.
  unfold append_appointment, ensure_csv_exists, mbind, M_bind, gets, modify,
    mret, M_ret, read_appointments.
  assert (∀ body,
            DictReader ((HEADER :: body) ++ [row])
            = DictReader (HEADER :: body) ++ [row_dict HEADER row]) as Hrd.
  { intros body. simpl. rewrite List.filter_app, fmap_app. simpl.
    by rewrite bool_decide_eq_false_2. }
  destruct Hfile as [Hnone|[body Hsome]].
  - rewrite Hnone. rewrite bool_decide_eq_false_2 by by intros [? ?].
    simpl. eexists. split; [done|].
    rewrite !lookup_insert_eq. simpl. by rewrite bool_decide_eq_false_2.
  - rewrite Hsome. rewrite bool_decide_eq_true_2 by eauto.
    simpl. eexists. split; [done|].
    rewrite lookup_insert_eq, Hsome. apply Hrd.
Qed.

(** With the header of the application, rows that are [Dict[str, str]]
    form a table with its seven columns. *)
Lemma header_table path fs :
  (fs !! path = None ∨ ∃ body, fs !! path = Some (HEADER :: body)) →
  Forall str_dict (read_appointments path fs) →
  table (Some <$> HEADER) (read_appointments path fs).
Proof.
  intros Hfile Hrows.
  split_and!; [apply (bool_decide_unpack _); by vm_compute | done |].
  unfold read_appointments in *.
  destruct Hfile as [Hfs|[body Hfs]]; rewrite Hfs in *; [done|].
  simpl in *. rewrite Forall_fmap in *. eapply Forall_impl; [exact Hrows|].
  intros row Hrow. simpl in *. split; [done|].
  apply row_dict_str in Hrow as Hlen. rewrite row_dict_full by done.
  transitivity (dict_keys (dict_of (zip (Some <$> HEADER)
                                      (VStr <$> HEADER)))); [|done].
  apply (dict_update_keys [] []); [done|].
  rewrite !fst_zip; [done | rewrite !length_fmap; lia..].
Qed.

Lemma first_match ts rows :
  Forall (λ r, dict_get (Some (str "timestamp")) r ≠ Some (VStr ts)) rows
  ∨ ∃ l1 r l2,
      rows = l1 ++ r :: l2
      ∧ Forall (λ r, dict_get (Some (str "timestamp")) r ≠ Some (VStr ts))
          l1
      ∧ dict_get (Some (str "timestamp")) r = Some (VStr ts).
Proof.
  induction rows as [|r rows IH]; [by left|].
  destruct (decide (dict_get (Some (str "timestamp")) r = Some (VStr ts)))
    as [Hr|Hr].
  - right. by exists [], r, rows.
  - destruct IH as [IH|(l1 & r' & l2 & -> & Hl1 & Hr')].
    + left. by constructor.
    + right. exists (r :: l1), r', l2. split_and!; [done | | done].
      by constructor.
Qed.

(** [writer.writerow] either takes every row, or raises at one. *)
Lemma writerows_cases (ks : list key) rows (f : list record) :
  writerows ks rows f = (f ++ (to_record ks <$> rows), None)
  ∨ ∃ f', writerows ks rows f = (f', Some ValueError).
Proof.
  revert f. induction rows as [|r rows IH]; intros f; simpl.
  - left. by rewrite app_nil_r.
  - unfold dict_to_list. destruct (forallb _ _); [|right; by eexists].
    fold (to_record ks r).
    destruct (IH (f ++ [to_record ks r])) as [->|[f' ->]].
    + left. by rewrite <- app_assoc.
    + right. by eexists.
Qed.

Lemma zip_fmap_pair {A B C} (g : A → B) (h : A → C) (l : list A) :
  zip (g <$> l) (h <$> l) = (λ x, (g x, h x)) <$> l.
Proof. induction l as [|x l IH]; csimpl; [done | by rewrite IH]. Qed.

(** The row that [DictReader] makes of the record written for [r], under
    any field names that are written as distinct strings: the key [None]
    comes back as the empty string, and every value as a string. *)
Lemma row_dict_rewritten (ks : list key) r :
  NoDup (header_record ks) →
  row_dict (header_record ks) (to_record ks r)
  = (λ k, (Some (match k with Some s => s | None => [] end),
           VStr (field_str (default (VStr []) (dict_get k r))))) <$> ks.
Proof.
  intros Hnd. unfold row_dict, to_record, header_record in *.
  rewrite !length_fmap, Nat.ltb_irrefl.
  rewrite <- !list_fmap_compose, zip_fmap_pair.
  rewrite dict_of_fresh; [done|].
  rewrite <- list_fmap_compose.
  apply (NoDup_fmap_2 Some) in Hnd. rewrite <- list_fmap_compose in Hnd.
  exact Hnd.
Qed.

Lemma dict_get_rewritten (ks : list key) r (name : pystr) :
  NoDup (header_record ks) → name ≠ [] → Some name ∈ ks →
  dict_get (Some name) (row_dict (header_record ks) (to_record ks r))
  = Some (VStr (field_str (default (VStr []) (dict_get (Some name) r)))).
Proof.
  intros Hnd Hname Hin. rewrite row_dict_rewritten by done. clear Hnd.
  induction ks as [|k ks IH]; [by apply elem_of_nil in Hin|].
  rewrite fmap_cons. cbn [dict_get]. case_decide as Hk.
  - destruct k as [s|]; injection Hk as Hk; [by subst | done].
  - apply IH. apply elem_of_cons in Hin as [<-|?]; done.
Qed.

(** A row read under the header of the application has its seven keys,
    and the key [None] after them when the line had more fields; when its
    time parses, its date and its time are strings. *)
Lemma HEADER_row (line : record) :
  (dict_keys (row_dict HEADER line) = Some <$> HEADER
   ∨ dict_keys (row_dict HEADER line) = (Some <$> HEADER) ++ [None])
  ∧ (is_Some (row_minutes (row_dict HEADER line)) →
     ∃ d t, date_time (row_dict HEADER line)
            = (Some (VStr d), Some (VStr t))).
Proof.
  destruct line as [|a [|b [|c [|d [|e [|f [|g [|h rest]]]]]]]];
    (split;
     [ first [by left | by right]
     | intros [m Hm];
       first [exfalso; by vm_compute in Hm | by eexists _, _] ]).
Qed.

Lemma read_appointments_HEADER path fs :
  (fs !! path = None ∨ ∃ body, fs !! path = Some (HEADER :: body)) →
  Forall (λ r, ∃ line, r = row_dict HEADER line) (read_appointments path fs).
Proof.
  unfold read_appointments. intros [->|[body ->]]; [done|]. simpl.
  apply Forall_fmap, Forall_forall. intros line _. by exists line.
Qed.

(** What [overwrite_appointments] does to rows that have the keys of the
    application, the key [None] perhaps among them, and strings for date
    and time: it returns, and the rows read afterwards have the same dates
    and times; or it raises [ValueError], and the rows read are those that
    were there. *)
Lemma overwrite_keeps_slots path rows fs :
  Forall (λ r, (dict_keys r = Some <$> HEADER
                ∨ dict_keys r = (Some <$> HEADER) ++ [None])
               ∧ ∃ d t, date_time r = (Some (VStr d), Some (VStr t))) rows →
  ∃ fs',
    (overwrite_appointments path rows fs = Ret tt fs'
     ∧ date_time <$> read_appointments path fs' = date_time <$> rows)
    ∨ (overwrite_appointments path rows fs = Raise ValueError fs'
       ∧ read_appointments path fs' = read_appointments path fs).
Proof.
  intros Hrows. destruct rows as [|r0 rest].
  { eexists. left. split; [done|].
    unfold read_appointments. by rewrite lookup_insert_eq. }
  unfold overwrite_appointments.
  set (ks := dict_keys r0). set (rows := r0 :: rest) in *.
  assert (NoDup (header_record ks) ∧ ks ≠ []
          ∧ Some (str "date") ∈ ks ∧ Some (str "time") ∈ ks)
    as (Hnd & Hne & Hdate & Htime).
  { apply Forall_cons in Hrows as [[Hks _] _]. fold ks in Hks.
    destruct Hks as [->| ->];
      (split_and!; [apply (bool_decide_unpack _); by vm_compute | done
                   | apply (bool_decide_unpack _); by vm_compute..]). }
  destruct (writerows_cases ks rows [header_record ks]) as [->|[f' ->]].
  - eexists. left. split; [done|].
    change (read_appointments path ?fs')
      with (read_appointments path
              (replaced path ([header_record ks] ++ (to_record ks <$> rows))
                 fs)).
    rewrite read_replaced. clearbody rows. simpl.
    induction Hrows as [|r rows' [_ (d & t & Hdt)] _ IH]; [done|].
    rewrite fmap_cons. cbn [List.filter].
    rewrite bool_decide_eq_false_2
      by (unfold to_record; by destruct ks).
    cbn [negb]. rewrite !fmap_cons, IH. f_equal.
    unfold date_time in *. rewrite !dict_get_rewritten by done.
    injection Hdt as -> ->. done.
  - eexists. right. split; [done|].
    unfold read_appointments. by rewrite lookup_insert_ne by apply tmp_ne.
Qed.

(** C1, as amended: in a store with the header of the application whose
    rows have pairwise distinct (date, time) pairs and times that parse, a
    row appended after [find_conflict], with no buffer, returned [False]
    for its date and time leaves the pairs distinct; and so does
    [update_appointment] after [find_conflict], ignoring the timestamp of
    the edited row, returned [False], when at most one row has that
    timestamp: whether it returns or [DictWriter] raises [ValueError], the
    pairs of the rows then stored are distinct. *)
Theorem no_double_booking path fs d t ts name contact issue notes :
  (fs !! path = None ∨ ∃ body, fs !! path = Some (HEADER :: body)) →
  NoDup (date_time <$> read_appointments path fs) →
  Forall (λ r, is_Some (row_minutes r)) (read_appointments path fs) →
  (find_conflict path d t None 0 fs = false →
   ∃ fs', append_appointment path (form_row ts name contact d t issue notes)
            fs = Ret tt fs'
          ∧ NoDup (date_time <$> read_appointments path fs'))
  ∧ ((∀ i j r r',
        read_appointments path fs !! i = Some r →
        read_appointments path fs !! j = Some r' →
        dict_get (Some (str "timestamp")) r = Some (VStr ts) →
        dict_get (Some (str "timestamp")) r' = Some (VStr ts) →
        i = j) →
     find_conflict path d t (Some ts) 0 fs = false →
     ∃ fs',
       ((∃ b, update_appointment path ts
                (edit_row ts name contact d t issue notes) fs = Ret b fs')
        ∨ update_appointment path ts
            (edit_row ts name contact d t issue notes) fs
          = Raise ValueError fs')
       ∧ NoDup (date_time <$> read_appointments path fs')).
Proof.
  intros Hfile Hnd Hmin. split.
  - intros Hfree.
    destruct (append_appointment_read path
                (form_row ts name contact d t issue notes) fs)
      as (fs' & Happ & Hread); [done..|].
    exists fs'. split; [done|]. rewrite Hread, fmap_app.
    apply NoDup_app. split_and!; [done | | apply NoDup_singleton].
    intros p Hp ->%list_elem_of_singleton.
    apply list_elem_of_fmap in Hp as (r & Hdt & Hr).
    rewrite (find_conflict_same_slot path d t None fs r) in Hfree;
      [done.. | by intros (? & ? & _) | by rewrite <- Hdt].
  - intros Huniq Hfree.
    rewrite update_appointment_unfold.
    destruct (first_match ts (read_appointments path fs))
      as [Hnone|(l1 & r & l2 & Heq & Hl1 & Hr)].
    { rewrite update_rows_none by done. exists fs. split; [|done].
      left. by exists false. }
    pose proof (read_appointments_HEADER _ _ Hfile) as Hlines.
    assert (Forall (λ r, (dict_keys r = Some <$> HEADER
                          ∨ dict_keys r = (Some <$> HEADER) ++ [None])
                         ∧ ∃ d t, date_time r
                                  = (Some (VStr d), Some (VStr t)))
              (read_appointments path fs)) as Hshape.
    { apply Forall_forall. intros x Hx.
      destruct (proj1 (Forall_forall _ _) Hlines x Hx) as [line ->].
      destruct (HEADER_row line) as [Hks Hdt]. split; [done|].
      apply Hdt. by apply (proj1 (Forall_forall _ _) Hmin). }
    rewrite Heq in *. rewrite update_rows_first by done.
    assert (NoDup (date_time
                     <$> l1 ++ edit_row ts name contact d t issue notes
                               :: l2)) as Hnew.
    { rewrite fmap_app, fmap_cons in *.
      apply NoDup_app in Hnd as (Hnd1 & Hdisj & [_ Hnd2]%NoDup_cons).
      assert (∀ x, x ∈ l1 ++ l2 → ¬ ignored (Some ts) x) as Hign.
      { intros x Hx (ts' & [= <-] & _ & Hts).
        apply elem_of_app in Hx as [Hx|Hx].
        - by apply (proj1 (Forall_forall _ _) Hl1 x Hx).
        - apply list_elem_of_lookup in Hx as [j Hj].
          assert (length l1 = length l1 + S j)%nat; [|lia].
          apply (Huniq _ _ r x); [|  |done..].
          + by rewrite list_lookup_middle.
          + rewrite lookup_app_r by lia.
            by replace (length l1 + S j - length l1)%nat with (S j)
              by lia. }
      assert (∀ x, x ∈ l1 ++ l2 →
                   date_time x ≠ (Some (VStr d), Some (VStr t))) as Hfresh.
      { intros x Hx Hdt.
        rewrite (find_conflict_same_slot path d t (Some ts) fs x) in Hfree;
          [done | by rewrite Heq | | by apply Hign | done].
        rewrite Heq. apply elem_of_app in Hx as [?|?]; apply elem_of_app;
          [by left | right; by right]. }
      apply NoDup_app. split_and!.
      - done.
      - intros p Hp [->|Hp2]%elem_of_cons.
        + apply list_elem_of_fmap in Hp as (x & Hdt & Hx).
          apply (Hfresh x); [apply elem_of_app; by left | done].
        + apply (Hdisj p Hp). by right.
      - constructor; [|done]. intros Hp.
        apply list_elem_of_fmap in Hp as (x & Hdt & Hx).
        apply (Hfresh x); [apply elem_of_app; by right | done]. }
    destruct (overwrite_keeps_slots path
                (l1 ++ edit_row ts name contact d t issue notes :: l2) fs)
      as (fs' & [[-> Hread]|[-> Hread]]).
    { apply Forall_app in Hshape as [Hs1 [_ Hs2]%Forall_cons].
      apply Forall_app. split; [done|]. constructor; [|done].
      split; [by left | by eexists _, _]. }
    + exists fs'. split; [left; by exists true|]. by rewrite Hread.
    + exists fs'. split; [by right|]. by rewrite Hread, Heq.
Qed.
End booking.

(** * [filter_appointments] *)

Section order.
Implicit Types a b c : pystr.

Lemma str_lt_irrefl a : str_lt a a = false.
Proof.
  induction a as [|x a IH]; simpl; [done|].
  by rewrite N.ltb_irrefl, N.eqb_refl, IH.
Qed.

Lemma str_lt_trans a b c :
  str_lt a b = true → str_lt b c = true → str_lt a c = true.
Proof.
  revert b c. induction a as [|x a IH]; intros [|y b] [|z c]; simpl;
    try done.
  rewrite !orb_true_iff, !andb_true_iff, !N.ltb_lt, !N.eqb_eq.
  intros [?|[-> ?]] [?|[-> ?]]; [left; lia | by left | by left |].
  right. split; [done|]. by apply (IH b).
Qed.

Lemma str_lt_total a b :
  str_lt a b = false → str_lt b a = false → a = b.
Proof.
  revert b. induction a as [|x a IH]; intros [|y b]; simpl; try done.
  rewrite !orb_false_iff, !andb_false_iff, !N.ltb_ge, !N.eqb_neq.
  intros [? [?|?]] [? [?|?]]; try lia.
  assert (x = y) as -> by lia. f_equal. by apply IH.
Qed.

Lemma key_lt_irrefl (p : pystr * pystr) : key_lt p p = false.
Proof.
  unfold key_lt. rewrite !str_lt_irrefl. by rewrite andb_false_r.
Qed.

Lemma key_lt_trans (p q r : pystr * pystr) :
  key_lt p q = true → key_lt q r = true → key_lt p r = true.
Proof.
  unfold key_lt. destruct p as [a1 a2], q as [b1 b2], r as [c1 c2]. simpl.
  rewrite !orb_true_iff, !andb_true_iff, !bool_decide_eq_true.
  intros [?|[-> ?]] [?|[-> ?]]; eauto using str_lt_trans.
Qed.

Lemma key_lt_total (p q : pystr * pystr) :
  key_lt p q = false → key_lt q p = false → p = q.
Proof.
  unfold key_lt. destruct p as [a1 a2], q as [b1 b2]. simpl.
  rewrite !orb_false_iff, !andb_false_iff, !bool_decide_eq_false.
  intros [H1 H2] [H3 H4].
  assert (a1 = b1) as -> by by apply str_lt_total.
  f_equal. apply str_lt_total; [by destruct H2 | by destruct H4].
Qed.


Lemma key_lt_le p q : key_lt p q = true → key_le p q.
Proof.
  unfold key_le. intros Hpq. destruct (key_lt q p) eqn:Hqp; [|done].
  by rewrite <- (key_lt_irrefl p), <- (key_lt_trans p q p).
Qed.

Lemma key_le_trans p q r : key_le p q → key_le q r → key_le p r.
Proof.
  unfold key_le. intros Hpq Hqr. destruct (key_lt r p) eqn:Hrp; [|done].
  destruct (key_lt p q) eqn:Hlt.
  - by rewrite (key_lt_trans r p q) in Hqr.
  - assert (p = q) as -> by by apply key_lt_total. congruence.
Qed.
End order.

Section filter_facts.
Context `{PyStr}.
Implicit Types (r x y : sdict) (rows l : list sdict).


Lemma insert_row_perm x l : insert_row x l ≡ₚ x :: l.
Proof.
  induction l as [|y l IH]; simpl; [done|].
  destruct (key_lt _ _); [|done]. rewrite IH. apply Permutation_swap.
Qed.

Lemma insert_row_sorted x l : sorted_rows l → sorted_rows (insert_row x l).
Proof.
  unfold sorted_rows. induction 1 as [|y l Hl IH Hy]; simpl.
  - by repeat constructor.
  - destruct (key_lt (sort_key y) (sort_key x)) eqn:Hlt.
    + constructor; [done|]. rewrite insert_row_perm.
      constructor; [by apply key_lt_le | done].
    + constructor; [by constructor|]. constructor; [done|].
      eapply Forall_impl; [exact Hy|]. intros z Hz.
      by apply (key_le_trans _ (sort_key y)).
Qed.

Lemma sort_rows_perm l : sort_rows l ≡ₚ l.
Proof.
  induction l as [|x l IH]; simpl; [done|].
  by rewrite insert_row_perm, IH.
Qed.

Lemma sort_rows_sorted l : sorted_rows (sort_rows l).
Proof.
  induction l as [|x l IH]; simpl; [constructor|].
  by apply insert_row_sorted.
Qed.

(** The sort is stable: rows with one key keep their order. *)
Lemma insert_row_stable k x l :
  sorted_rows l →
  List.filter (λ y, bool_decide (sort_key y = k)) (insert_row x l)
  = List.filter (λ y, bool_decide (sort_key y = k)) (x :: l).
Proof.
  unfold sorted_rows. induction 1 as [|y l Hl IH Hy]; [done|].
  cbn [insert_row]. destruct (key_lt (sort_key y) (sort_key x)) eqn:Hlt;
    [|done].
  cbn [List.filter] in *. rewrite IH.
  case_bool_decide as Hx; [|done]. case_bool_decide as Hy'; [|done].
  rewrite Hx, Hy' in Hlt. by rewrite key_lt_irrefl in Hlt.
Qed.

Lemma sort_rows_stable k l :
  List.filter (λ y, bool_decide (sort_key y = k)) (sort_rows l)
  = List.filter (λ y, bool_decide (sort_key y = k)) l.
Proof.
  induction l as [|x l IH]; [done|]. cbn [sort_rows foldr].
  rewrite insert_row_stable by apply sort_rows_sorted.
  cbn [List.filter]. fold (sort_rows l). by rewrite IH.
Qed.
End filter_facts.

Section filter_spec.
Context `{PyStr}.
Implicit Types (r : sdict) (rows kept : list sdict).

Lemma StronglySorted_weaken {A} (R R' : A → A → Prop) (l : list A) :
  (∀ x y, R x y → R' x y) → StronglySorted R l → StronglySorted R' l.
Proof.
  intros HR. induction 1 as [|x l _ IH Hx]; constructor; [done|].
  eapply Forall_impl; [exact Hx|]. auto.
Qed.


Lemma date_lt_false a b : date_lt b a = false ↔ date_le a b.
Proof.
  unfold date_lt, date_le.
  destruct (Z.ltb_spec (year b) (year a)), (Z.eqb_spec (year b) (year a)),
    (Z.ltb_spec (month b) (month a)), (Z.eqb_spec (month b) (month a)),
    (Z.ltb_spec (day b) (day a)); simpl; split; try done; lia.
Qed.



Lemma selected_elem P rows kept :
  selected P rows kept → ∀ r, r ∈ kept ↔ r ∈ rows ∧ P r.
Proof.
  induction 1 as [|r rows kept Hr _ IH|r rows kept Hr _ IH]; intros x.
  - split; [by intros ?%elem_of_nil | by intros [?%elem_of_nil _]].
  - rewrite !elem_of_cons, IH. split.
    + intros [->|[? ?]]; [by split; [left|] | by split; [right|]].
    + intros [[->|?] ?]; [by left | by right].
  - rewrite elem_of_cons, IH. split.
    + intros [? ?]. by split; [right|].
    + intros [[->|?] ?]; done.
Qed.

Lemma filter_rows_selected rows date_from date_to types query :
  selected (wanted date_from date_to types query) rows
    (filter_rows rows date_from date_to types (needle query)).
Proof.
  induction rows as [|r rows IH]; [constructor|]. cbn [filter_rows].
  destruct (dict_get (str "date") r) as [s|] eqn:Hs; simpl;
    [|apply selected_skip; [|done]; intros [(? & ? & ? & _) _];
      congruence].
  destruct (fromisoformat s) as [rd|] eqn:Hrd;
    [|apply selected_skip; [|done]; intros [(? & ? & ? & ? & _) _];
      congruence].
  destruct (date_lt rd date_from) eqn:Hfrom; simpl.
  { apply selected_skip; [|done].
    intros [(? & rd' & ? & ? & Hle%date_lt_false & _) _].
    assert (rd' = rd) as -> by congruence. congruence. }
  destruct (date_lt date_to rd) eqn:Hto; simpl.
  { apply selected_skip; [|done].
    intros [(? & rd' & ? & ? & _ & Hle%date_lt_false) _].
    assert (rd' = rd) as -> by congruence. congruence. }
  destruct (negb (bool_decide (types = []))
            && negb (match dict_get (str "issue_type") r with
                     | Some t => bool_decide (t ∈ types)
                     | None => false
                     end)) eqn:Htypes.
  { apply selected_skip; [|done]. intros (_ & Hty & _).
    apply andb_true_iff in Htypes as [Hne%negb_true_iff Hnot%negb_true_iff].
    apply bool_decide_eq_false in Hne. destruct (Hty Hne) as (t & Ht & Hin).
    rewrite Ht in Hnot. by apply bool_decide_eq_false in Hnot. }
  destruct (negb (bool_decide (needle query = []))
            && negb (str_in (needle query) (hay r))) eqn:Hq.
  { apply selected_skip; [|done]. intros (_ & _ & Hhay).
    apply andb_true_iff in Hq as [Hne%negb_true_iff Hnot%negb_true_iff].
    apply bool_decide_eq_false in Hne. unfold needle in *.
    rewrite lower_nil in Hne. apply Hhay in Hne.
    apply str_in_spec in Hne. congruence. }
  apply selected_keep; [|done]. split_and!.
  - exists s, rd. by rewrite <- !date_lt_false.
  - intros Hne. apply andb_false_iff in Htypes as [Ht|Ht].
    + by apply negb_false_iff, bool_decide_eq_true in Ht.
    + apply negb_false_iff in Ht.
      destruct (dict_get (str "issue_type") r) as [t|]; [|done].
      apply bool_decide_eq_true in Ht. eauto.
  - intros Hne. apply andb_false_iff in Hq as [Hq|Hq].
    + apply negb_false_iff, bool_decide_eq_true in Hq.
      unfold needle in Hq. by rewrite lower_nil in Hq.
    + by apply negb_false_iff, str_in_spec in Hq.
Qed.

(** C5, as amended: [filter_appointments] returns exactly the rows whose
    date parses and lies between [date_from] and [date_to], whose issue
    type is one of [types] when there are any, and whose name, contact and
    notes, lowercased and joined by single spaces, contain the stripped and
    lowercased query when the query is not blank; they come sorted by
    (date, time), rows with the same pair in their order in [rows]. *)
Theorem filter_appointments_spec rows date_from date_to types query :
  ∃ kept,
    selected (wanted date_from date_to types query) rows kept
    ∧ filter_appointments rows date_from date_to types query ≡ₚ kept
    ∧ (∀ r, r ∈ filter_appointments rows date_from date_to types query
            ↔ r ∈ rows ∧ wanted date_from date_to types query r)
    ∧ StronglySorted
        (λ x y, str_lt (get_or_empty "date" x) (get_or_empty "date" y) = true
                ∨ get_or_empty "date" x = get_or_empty "date" y
                  ∧ str_lt (get_or_empty "time" y) (get_or_empty "time" x)
                    = false)
        (filter_appointments rows date_from date_to types query)
    ∧ ∀ k, List.filter (λ y, bool_decide (sort_key y = k))
             (filter_appointments rows date_from date_to types query)
           = List.filter (λ y, bool_decide (sort_key y = k)) kept.
Proof.
  exists (filter_rows rows date_from date_to types (needle query)).
  pose proof (filter_rows_selected rows date_from date_to types query)
    as Hsel.
  unfold filter_appointments. split_and!.
  - done.
  - apply sort_rows_perm.
  - intros r. rewrite sort_rows_perm. by apply selected_elem.
  - eapply StronglySorted_weaken; [|apply sort_rows_sorted].
    intros x y. unfold key_le, key_lt, sort_key. simpl.
    rewrite orb_false_iff, andb_false_iff, bool_decide_eq_false.
    intros [Hd Ht].
    destruct (str_lt (get_or_empty "date" x) (get_or_empty "date" y))
      eqn:Hlt; [by left|]. right.
    assert (get_or_empty "date" x = get_or_empty "date" y) as Heq
      by by apply str_lt_total.
    split; [done|]. by destruct Ht.
  - intros k. apply sort_rows_stable.
Qed.
End filter_spec.

(** * The definitions on concrete inputs *)

Section examples.
Import AsciiLib Rational Tracker Examples.

Ltac by_compute := apply (bool_decide_unpack _); vm_compute; exact I.
Ltac refute :=
let Hn := fresh in
intros Hn; apply (bool_decide_pack _) in Hn; vm_compute in Hn; exact Hn.


(** Counterexample to C1 as stated: the two rows have distinct (date, time)
  pairs and share their timestamp; moving the first onto the slot of the
  second passes [find_conflict], which ignores both, and
  [update_appointment] then stores two rows for one slot. *)
Lemma update_shared_timestamp :
let fs := shared_timestamp in
let ts := str "2025-01-01T09:00:00.000001" in
NoDup (date_time <$> read_appointments APP_CSV fs)
∧ Forall (λ r, is_Some (row_minutes r)) (read_appointments APP_CSV fs)
∧ find_conflict APP_CSV (str "2025-01-11") (str "11:00") (Some ts) 0 fs
  = false
∧ ∃ fs', update_appointment APP_CSV ts
           (edit_row ts (str "Ann") (str "ann@example.org")
              (str "2025-01-11") (str "11:00") (str "Other") []) fs
         = Ret true fs'
         ∧ ¬ NoDup (date_time <$> read_appointments APP_CSV fs').
Proof.
simpl. split_and!; [by_compute | by_compute | by vm_compute |].
eexists. split; [by vm_compute | refute].
Qed.

(** Counterexample to C4 as stated: with a [new_row] of two keys, the row
  stored in place of the second booking is not [new_row] but a row with
  all seven keys; with a [new_row] that has a key of its own, the call
  raises [ValueError] and so returns neither [True] nor [False], although
  a row has the timestamp. *)
Lemma update_appointment_other_keys :
let ts := str "2025-01-01T09:05:00.000002" in
let new_row := [(Some (str "timestamp"), VStr ts);
                (Some (str "name"), VStr (str "Bob"))] in
(∃ fs' r1 r2,
   update_appointment APP_CSV ts new_row two_bookings = Ret true fs'
   ∧ read_appointments APP_CSV fs' = [r1; r2]
   ∧ ¬ dict_eq r2 new_row)
∧ (∃ fs',
     update_appointment APP_CSV ts
       (new_row ++ [(Some (str "phone"), VStr (str "555"))]) two_bookings
     = Raise ValueError fs').
Proof.
simpl. split.
- do 3 eexists. split_and!; [by vm_compute | by vm_compute |].
  intros Heq. specialize (Heq (Some (str "notes"))). by vm_compute in Heq.
- eexists. by vm_compute.
Qed.


Lemma two_bookings_header :
two_bookings !! APP_CSV = None
∨ ∃ body, two_bookings !! APP_CSV = Some (HEADER :: body).
Proof. right. eexists. by vm_compute. Qed.

Lemma two_bookings_str :
Forall str_dict (read_appointments APP_CSV two_bookings).
Proof.
apply Forall_forall. intros r Hr. apply str_dictb_spec.
revert r Hr. apply Forall_forall. by_compute.
Qed.

(** [no_double_booking] on [two_bookings]: a third booking, and an edit of
  the first. *)
Lemma no_double_booking_witness :
let ts := str "2025-01-01T09:00:00.000001" in
NoDup (date_time <$> read_appointments APP_CSV two_bookings)
∧ Forall (λ r, is_Some (row_minutes r))
    (read_appointments APP_CSV two_bookings)
∧ (∃ fs', append_appointment APP_CSV
            (form_row (str "2025-01-02T08:00:00.000003") (str "Cy")
               (str "cy@example.org") (str "2025-01-11") (str "12:30")
               (str "Other") []) two_bookings = Ret tt fs'
          ∧ NoDup (date_time <$> read_appointments APP_CSV fs'))
∧ (∃ fs',
     ((∃ b, update_appointment APP_CSV ts
              (edit_row ts (str "Ann") (str "ann@example.org")
                 (str "2025-01-11") (str "12:30") (str "Other") [])
              two_bookings = Ret b fs')
      ∨ update_appointment APP_CSV ts
          (edit_row ts (str "Ann") (str "ann@example.org")
             (str "2025-01-11") (str "12:30") (str "Other") [])
          two_bookings = Raise ValueError fs')
     ∧ NoDup (date_time <$> read_appointments APP_CSV fs')).
Proof.
simpl.
assert (NoDup (date_time <$> read_appointments APP_CSV two_bookings))
  as Hnd by by_compute.
assert (Forall (λ r, is_Some (row_minutes r))
          (read_appointments APP_CSV two_bookings)) as Hmin by by_compute.
split; [done|]. split; [done|].
pose proof (no_double_booking APP_CSV two_bookings (str "2025-01-11")
              (str "12:30")) as Hbook.
split.
- apply (proj1 (Hbook (str "2025-01-02T08:00:00.000003") _ _ _ _
                  two_bookings_header Hnd Hmin)).
  by vm_compute.
- apply (proj2 (Hbook (str "2025-01-01T09:00:00.000001") _ _ _ _
                  two_bookings_header Hnd Hmin)); [|by vm_compute].
  intros i j r r' Hi Hj Hr Hr'.
  destruct i as [|[|[|i]]], j as [|[|[|j]]]; try done;
    vm_compute in Hi, Hj; simplify_eq; by vm_compute in Hr, Hr'.
Defined.

(** [find_conflict_spec] on [two_bookings], for the slot of the second
  booking. *)
Lemma find_conflict_spec_witness :
let ign := Some (str "2025-01-01T09:00:00.000001") in
minutes (str "11:00") = Some 660
∧ Forall (λ r, is_Some (row_minutes r))
    (read_appointments APP_CSV two_bookings)
∧ (find_conflict APP_CSV (str "2025-01-11") (str "11:00") ign 0
     two_bookings = true
   ↔ ∃ r m, r ∈ read_appointments APP_CSV two_bookings
            ∧ (ign = None ∨ ign = Some []
               ∨ dict_get (Some (str "timestamp")) r ≠ VStr <$> ign)
            ∧ dict_get (Some (str "date")) r = Some (VStr (str "2025-01-11"))
            ∧ row_minutes r = Some m
            ∧ (0 < 0 ∧ Z.abs (m - 660) ≤ 0 ∨ 0 = 0 ∧ m = 660)).
Proof.
intros ign.
assert (Forall (λ r, is_Some (row_minutes r))
          (read_appointments APP_CSV two_bookings)) as Hmin by by_compute.
split; [done|]. split; [done|].
by apply (find_conflict_spec APP_CSV (str "2025-01-11") (str "11:00") ign 0
            two_bookings 660).
Defined.

(** Counterexample to C3 as stated: the third line has a surplus field,
    which [DictReader] keeps under the key [None]; deleting the first
    booking makes [DictWriter] raise [ValueError] on that key, so the call
    returns nothing and the booking stays. *)
Lemma delete_appointment_surplus_field :
  let ts := str "2025-01-01T09:00:00.000001" in
  (∃ r, r ∈ read_appointments APP_CSV surplus_field
        ∧ dict_get (Some (str "timestamp")) r = Some (VStr ts))
  ∧ ∃ fs', delete_appointment APP_CSV ts surplus_field = Raise ValueError fs'
           ∧ read_appointments APP_CSV fs'
             = read_appointments APP_CSV surplus_field.
Proof.
  simpl. split.
  - eexists. split; [apply list_elem_of_here | by vm_compute].
  - eexists. split; by vm_compute.
Qed.

(** [delete_appointment_spec] on [two_bookings]. *)
Lemma delete_appointment_spec_witness :
  let ts := str "2025-01-01T09:00:00.000001" in
  Forall str_dict (read_appointments APP_CSV two_bookings)
  ∧ ∃ b fs',
      delete_appointment APP_CSV ts two_bookings = Ret b fs'
      ∧ read_appointments APP_CSV fs'
        = List.filter
            (λ r, negb (bool_decide (dict_get (Some (str "timestamp")) r
                                     = Some (VStr ts))))
            (read_appointments APP_CSV two_bookings)
      ∧ (b = true
         ↔ ∃ r, r ∈ read_appointments APP_CSV two_bookings
                ∧ dict_get (Some (str "timestamp")) r = Some (VStr ts))
      ∧ (b = false → fs' = two_bookings).
Proof.
  simpl. split; [apply two_bookings_str|].
  apply (proj2 (delete_appointment_spec APP_CSV
                  (str "2025-01-01T09:00:00.000001") two_bookings)).
  apply two_bookings_str.
Defined.

(** [update_appointment_spec] on [two_bookings]: the second booking moves
  to another day. *)
Lemma update_appointment_spec_witness :
let ts := str "2025-01-01T09:05:00.000002" in
let new_row := edit_row ts (str "Bob") (str "bob@example.org")
                 (str "2025-01-12") (str "09:15") (str "Engine Problem") [] in
∃ fs', update_appointment APP_CSV ts new_row two_bookings = Ret true fs'
       ∧ Forall2 dict_eq (read_appointments APP_CSV fs')
           ([row_dict HEADER ann] ++ new_row :: []).
Proof.
intros ts new_row.
apply (proj2 (update_appointment_spec APP_CSV ts new_row two_bookings)
         two_bookings_str) with (r := row_dict HEADER bob).
- repeat constructor; simpl; eauto.
- by_compute.
- intros r k Hr. vm_compute in Hr.
  apply elem_of_cons in Hr as [->|Hr];
    [|apply elem_of_cons in Hr as [->|Hr]; [|by apply elem_of_nil in Hr]];
    by vm_compute.
- by vm_compute.
- repeat constructor. by vm_compute.
- by vm_compute.
Defined.



(** [cart_add_remove] on a cart of four products and a fifth one. *)
Lemma cart_add_remove_witness :
let cart := take 4 PRODUCTS in
let p := Product (str "Smart LED Bulb") (str "Home") (price_of 1299) in
Forall (λ q, name q ≠ name p) cart
∧ remove_from_cart (add_to_cart cart p) (name p) = cart.
Proof.
intros cart p.
assert (Forall (λ q, name q ≠ name p) cart) as Hcart
  by (repeat constructor; by vm_compute).
split; [done|]. by apply (proj1 (cart_add_remove cart p)).
Defined.

(** [average_price_nonempty] on [PRODUCTS]. *)
Lemma average_price_nonempty_witness :
PRODUCTS ≠ []
∧ average_price PRODUCTS
  = Ok (truediv (py_sum (price <$> PRODUCTS)) (length PRODUCTS))
∧ ∃ text, summary PRODUCTS = Ok text.
Proof.
split; [done|]. by apply (proj1 (average_price_nonempty PRODUCTS)).
Defined.
(** Counterexample to C5 as stated: the text searched is not the plain
    concatenation of name, contact and notes. A query that runs across two
    fields is in the concatenation, and the row is left out; a query with a
    space between the end of one field and the start of the next is not in
    the concatenation, and the row is returned. *)
Lemma filter_appointments_separator :
  let r : sdict :=
    [(str "timestamp", str "t1"); (str "name", str "ab");
     (str "contact", str "cd"); (str "date", str "2025-01-10");
     (str "time", str "10:00"); (str "issue_type", str "Other");
     (str "notes", [])] in
  let concatenated :=
    lower (get_or_empty "name" r) ++ lower (get_or_empty "contact" r)
    ++ lower (get_or_empty "notes" r) in
  let date_from := Date 2025 1 1 in
  let date_to := Date 2025 12 31 in
  dict_get (str "date") r ≫= fromisoformat = Some (Date 2025 1 10)
  ∧ date_lt (Date 2025 1 10) date_from = false
  ∧ date_lt date_to (Date 2025 1 10) = false
  ∧ (str_in (lower (strip (str "bc"))) concatenated = true
     ∧ filter_appointments [r] date_from date_to [] (Some (str "bc")) = [])
  ∧ (str_in (lower (strip (str "b c"))) concatenated = false
     ∧ filter_appointments [r] date_from date_to [] (Some (str "b c")) = [r]).
Proof. by vm_compute. Qed.
(** The definitions run. *)
Example find_conflict_buffer :
  find_conflict APP_CSV (str "2025-01-11") (str "11:20") None 30 two_bookings
  = true
  ∧ find_conflict APP_CSV (str "2025-01-11") (str "11:20") None 15 two_bookings
    = false
  ∧ find_conflict APP_CSV (str "2025-01-11") (str " 11:0_0") None 0
      two_bookings = true
  ∧ find_conflict APP_CSV (str "2025-01-12") (str "11:00") None 0 two_bookings
    = false.
Proof. by vm_compute. Qed.

Example read_ragged_lines :
  DictReader [[str "a"; str "b"]; [str "1"]; []; [str "1"; str "2"; str "3"]]
  = [[(Some (str "a"), VStr (str "1")); (Some (str "b"), VNone)];
     [(Some (str "a"), VStr (str "1")); (Some (str "b"), VStr (str "2"));
      (None, VList [str "3"])]].
Proof. by vm_compute. Qed.

Example filter_appointments_sorts :
  let row d t n : sdict :=
    [(str "name", str n); (str "contact", []); (str "date", str d);
     (str "time", str t); (str "issue_type", str "Other"); (str "notes", [])] in
  filter_appointments
    [row "2025-03-01" "10:00" "Cy"; row "2025-02-01" "12:00" "Bob";
     row "2025-02-30" "08:00" "Nobody"; row "2025-02-01" "09:30" "ANN";
     row "2026-02-01" "09:30" "Dee"]
    (Date 2025 1 1) (Date 2025 12 31) [str "Other"] (Some (str "  "))
  = [row "2025-02-01" "09:30" "ANN"; row "2025-02-01" "12:00" "Bob";
     row "2025-03-01" "10:00" "Cy"].
Proof. by vm_compute. Qed.

Example find_products_by_keyword_blue :
  find_products_by_keyword PRODUCTS (str "BLUE")
  = [Product (str "Bluetooth Speaker") (str "Electronics") (price_of 8999)]
  ∧ average_price PRODUCTS = Ok (Q2Qc (41484 # 1000))
  ∧ average_price [] = Error ZeroDivisionError.
Proof.
  split_and!; [by vm_compute | | done].
  unfold average_price, div_len. simpl. f_equal.
  apply Qc_is_canon. by vm_compute.
Qed.

Example analyze_text_hello :
  TextAnalyzer.analyze_text (str "  Hello  big World ") true
  = {| TextAnalyzer.original := str "  Hello  big World ";
       TextAnalyzer.processed := str "Hello  big World";
       TextAnalyzer.length_ := 16;
       TextAnalyzer.count_char := 16;
       TextAnalyzer.word_count := 3;
       TextAnalyzer.title_ := str "Hello  Big World";
       TextAnalyzer.lower_ := str "hello  big world";
       TextAnalyzer.upper_ := str "HELLO  BIG WORLD";
       TextAnalyzer.is_title := false;
       TextAnalyzer.is_lower := false;
       TextAnalyzer.is_upper := false |}.
Proof. by vm_compute. Qed.
End examples.

(** * More string facts *)

Section more_strings.
Implicit Types (s q w : pystr) (c : N).

Lemma replace_go_char c s fuel :
  (length s < fuel)%nat →
  replace_go fuel [c] [] s = List.filter (λ x, negb (N.eqb x c)) s.
Proof.
  revert fuel. induction s as [|x s IH]; intros [|fuel] Hlen; simpl in *;
    try lia; [done|].
  rewrite N.eqb_sym. destruct (x =? c)%N; simpl.
  - rewrite drop_0. apply IH. lia.
  - f_equal. apply IH. lia.
Qed.

(** Replacing a one-character string by nothing takes out that code
    point. *)
Lemma str_replace_char c s :
  str_replace [c] [] s = List.filter (λ x, negb (N.eqb x c)) s.
Proof. unfold str_replace. apply replace_go_char. lia. Qed.

Lemma filter_filter {A} (f g : A → bool) (l : list A) :
  List.filter f (List.filter g l) = List.filter (λ x, g x && f x) l.
Proof.
  induction l as [|x l IH]; simpl; [done|].
  destruct (g x); simpl; [|done]. destruct (f x); by rewrite IH.
Qed.

Lemma filter_reverse {A} (f : A → bool) (l : list A) :
  List.filter f (reverse l) = reverse (List.filter f l).
Proof.
  induction l as [|x l IH]; simpl; [done|].
  rewrite reverse_cons, List.filter_app, IH. simpl.
  destruct (f x); [by rewrite reverse_cons | by rewrite app_nil_r].
Qed.

Lemma str_in_char c s : str_in [c] s = true ↔ c ∈ s.
Proof.
  rewrite str_in_spec. split.
  - intros (l & r & ->). apply elem_of_app. right. by left.
  - intros (l & r & ->)%list_elem_of_split. by exists l, r.
Qed.

(** The first part of [split_on]: all of [s] when the separator does not
    occur, and what is before its first occurrence when it does. *)
Lemma split_on_go_head c w s :
  ∃ x tl, split_on_go c w s = x :: tl
          ∧ ((c ∉ s) ∧ x = w ++ s ∧ tl = []
             ∨ ∃ pre post, s = pre ++ c :: post ∧ (c ∉ pre) ∧ x = w ++ pre).
Proof.
  revert w. induction s as [|y s IH]; intros w; simpl.
  - exists w, []. split; [done|]. left.
    split_and!; [apply not_elem_of_nil | by rewrite app_nil_r | done].
  - destruct (N.eqb_spec y c) as [->|Hy].
    + eexists _, _. split; [done|]. right. exists [], s.
      split_and!; [done | apply not_elem_of_nil | by rewrite app_nil_r].
    + destruct (IH (w ++ [y])) as (x & tl & -> & Hx).
      exists x, tl. split; [done|].
      destruct Hx as [(Hc & -> & ->)|(pre & post & -> & Hc & ->)].
      * left. split_and!; [|by rewrite <- app_assoc|done].
        by intros [?|?]%elem_of_cons.
      * right. exists (y :: pre), post.
        split_and!; [done| |by rewrite <- app_assoc].
        by intros [?|?]%elem_of_cons.
Qed.

Lemma startswith_length q s :
  startswith q s = true → (length q ≤ length s)%nat.
Proof.
  intros [r ->]%startswith_spec. rewrite length_app. lia.
Qed.

(** [find]: the first place at which [q] occurs. *)
Lemma find_from_spec i q s :
  str_in q s = true →
  ∃ k : nat, find_from i q s = i + Z.of_nat k
             ∧ startswith q (drop k s) = true
             ∧ ∀ j : nat, (j < k)%nat → startswith q (drop j s) = false.
Proof.
  revert i. induction s as [|y s IH]; intros i; simpl.
  - rewrite orb_false_r. intros Hq. exists O. rewrite Hq.
    split_and!; [lia | done | lia].
  - destruct (startswith q (y :: s)) eqn:Hst; simpl.
    + intros _. exists O. split_and!; [lia | done | lia].
    + intros Hin. destruct (IH (i + 1) Hin) as (k & -> & Hk & Hmin).
      exists (S k). split_and!; [lia | done |].
      intros [|j] Hj; [done|]. apply Hmin. lia.
Qed.

Lemma find_from_absent i q s : str_in q s = false → find_from i q s = -1.
Proof.
  revert i. induction s as [|y s IH]; intros i; simpl.
  - rewrite orb_false_r. by intros ->.
  - intros [-> Hin]%orb_false_iff. by apply IH.
Qed.

(** [rfind]: the last place at which [q] occurs. *)
Lemma rfind_from_spec i q s :
  0 ≤ i → str_in q s = true →
  ∃ k : nat, rfind_from i q s = i + Z.of_nat k
             ∧ (k ≤ length s)%nat
             ∧ startswith q (drop k s) = true
             ∧ ∀ j : nat, (k < j ≤ length s)%nat →
                          startswith q (drop j s) = false.
Proof.
  revert i. induction s as [|y s IH]; intros i Hi; simpl.
  - rewrite orb_false_r. intros Hq. exists O. rewrite Hq.
    split_and!; [lia | done | done | lia].
  - intros Hin. destruct (str_in q s) eqn:Hs.
    + destruct (IH (i + 1) ltac:(lia) eq_refl) as (k & -> & Hlen & Hk & Hmax).
      destruct (Z.eqb_spec (i + 1 + Z.of_nat k) (-1)) as [?|_]; [lia|].
      exists (S k). split_and!; [lia | lia | done |].
      intros [|j] Hj; [lia|]. apply Hmax. lia.
    + rewrite orb_false_r in Hin. rewrite Hin.
      assert (rfind_from (i + 1) q s = -1) as ->.
      { clear -Hs. revert i. induction s as [|z s IH]; intros i; simpl in *.
        - rewrite orb_false_r in Hs. by rewrite Hs.
        - apply orb_false_iff in Hs as [-> Hs]. by rewrite IH. }
      simpl. exists O. split_and!; [lia | lia | done |].
      intros [|j] Hj; [lia|]. simpl.
      destruct (startswith q (drop j s)) eqn:Hst; [|done].
      assert (str_in q s = true); [|congruence].
      apply str_in_spec. apply startswith_spec in Hst as [r Hr].
      exists (take j s), r. by rewrite <- Hr, take_drop.
Qed.
End more_strings.

(** * More of the product tracker *)

Section buyer_facts.
Import Tracker Buyer.
Context `{PyStr} `{PyChars} `{PyNum} `{!PyFormat}.
Implicit Types (cart products : list product) (p : product).
Implicit Types (bid name email : pystr).

Lemma sanitize_buyer_id_as_filter bid :
  sanitize_buyer_id bid
  = List.filter (λ c, negb (bool_decide (c ∈ [32; 45; 46; 35]%N))) bid.
Proof.
  unfold sanitize_buyer_id.
  change FORBIDDEN_IN_ID with [[32]; [45]; [46]; [35]]%N. cbn [fold_left].
  rewrite !str_replace_char, !filter_filter. apply List.filter_ext.
  intros c.
  destruct (N.eqb_spec c 32) as [->|?]; [done|].
  destruct (N.eqb_spec c 45) as [->|?]; [done|].
  destruct (N.eqb_spec c 46) as [->|?]; [done|].
  destruct (N.eqb_spec c 35) as [->|?]; [done|].
  simpl. symmetry. apply negb_true_iff, bool_decide_eq_false.
  rewrite !elem_of_cons, elem_of_nil. intros [?|[?|[?|[?|[]]]]]; done.
Qed.

(** X1: [sanitize_buyer_id] takes the spaces, hyphens, dots and hash signs
    out of the buyer ID and keeps every other code point, in its order;
    none of the forbidden strings occurs in the result. *)
Theorem sanitize_buyer_id_spec bid :
  sanitize_buyer_id bid
  = List.filter (λ c, negb (bool_decide (c ∈ [32; 45; 46; 35]%N))) bid
  ∧ ∀ ch, ch ∈ FORBIDDEN_IN_ID → str_in ch (sanitize_buyer_id bid) = false.
Proof.
  split; [apply sanitize_buyer_id_as_filter|].
  intros ch Hch. rewrite sanitize_buyer_id_as_filter.
  change FORBIDDEN_IN_ID with [[32]; [45]; [46]; [35]]%N in Hch.
  assert (∃ c, ch = [c] ∧ c ∈ [32; 45; 46; 35]%N) as (c & -> & Hc).
  { rewrite !elem_of_cons, elem_of_nil in Hch.
    destruct Hch as [->|[->|[->|[->|[]]]]]; eexists; (split; [done|]);
      rewrite !elem_of_cons; auto. }
  destruct (str_in [c] _) eqn:Hin; [|done].
  apply str_in_char, list_elem_of_In, filter_In in Hin as [_ Hin].
  by rewrite bool_decide_eq_true_2 in Hin.
Qed.

(** X2: sanitizing twice is sanitizing once; the sanitized form of two
    parts put together is the two sanitized forms put together; and
    sanitizing commutes with the reversal that [interactive] applies to the
    result. *)
Theorem sanitize_buyer_id_compose a b :
  sanitize_buyer_id (sanitize_buyer_id a) = sanitize_buyer_id a
  ∧ sanitize_buyer_id (a ++ b) = sanitize_buyer_id a ++ sanitize_buyer_id b
  ∧ sanitize_buyer_id (reverse a) = reverse (sanitize_buyer_id a).
Proof.
  rewrite !sanitize_buyer_id_as_filter. split_and!.
  - rewrite filter_filter. apply List.filter_ext. intros c.
    by destruct (negb _).
  - apply List.filter_app.
  - apply filter_reverse.
Qed.

(** X3: [validate_name] accepts a name exactly when it has a code point
    other than a space and each of its code points is a space or
    alphabetic; the empty name and a name of spaces are refused. *)
Theorem validate_name_spec name :
  validate_name name = true
  ↔ (∃ c, c ∈ name ∧ c ≠ 32%N)
    ∧ ∀ c, c ∈ name → c = 32%N ∨ isalpha_char c = true.
Proof.
  unfold validate_name, isalpha. change (str " ") with [32%N].
  rewrite str_replace_char, andb_true_iff, negb_true_iff,
    bool_decide_eq_false, forallb_forall.
  split.
  - intros [Hne Hall]. split.
    + destruct (List.filter _ name) as [|c l] eqn:Hf; [done|].
      assert (In c (List.filter (λ x, negb (N.eqb x 32)) name)) as Hc
        by (rewrite Hf; by left).
      apply filter_In in Hc as [Hc Hc32]. exists c.
      split; [by apply list_elem_of_In|].
      by apply negb_true_iff, N.eqb_neq in Hc32.
    + intros c Hc. destruct (N.eqb_spec c 32) as [?|Hc32]; [by left|].
      right. apply Hall, filter_In. split; [by apply list_elem_of_In|].
      by apply negb_true_iff, N.eqb_neq.
  - intros [(c & Hc & Hc32) Hall]. split.
    + intros Hnil.
      assert (In c (List.filter (λ x, negb (N.eqb x 32)) name)) as Hin.
      { apply filter_In. split; [by apply list_elem_of_In|].
        by apply negb_true_iff, N.eqb_neq. }
      by rewrite Hnil in Hin.
    + intros x [Hx Hx32]%filter_In.
      apply negb_true_iff, N.eqb_neq in Hx32.
      destruct (Hall x) as [?|?]; [by apply list_elem_of_In|done..].
Qed.

Lemma slice_first3 {A} (l : list A) : slice None (Some 3) l = take 3 l.
Proof.
  unfold slice, slice_index. simpl. rewrite drop_0.
  destruct (Z.min_spec 3 (Z.of_nat (length l))) as [[? ->]|[? ->]].
  - done.
  - rewrite Nat2Z.id. rewrite !take_ge; [done|lia..].
Qed.

Lemma slice_last3 {A} (l : list A) :
  slice (Some (-3)) None l = drop (length l - 3) l.
Proof.
  unfold slice, slice_index. simpl. rewrite firstn_all. f_equal. lia.
Qed.

(** X4: [show_product_slices] shows the name, its first three and its last
    three code points; a name of at most three code points is shown whole
    in both places, and a longer one starts with the first and ends with
    the second slice, each of length three. *)
Theorem show_product_slices_spec p :
  ∃ first3 last3,
    show_product_slices p
    = str "'" ++ name p ++ str "' -> first3: '" ++ first3
      ++ str "', last3: '" ++ last3 ++ str "'"
    ∧ ((length (name p) ≤ 3)%nat → first3 = name p ∧ last3 = name p)
    ∧ ((3 ≤ length (name p))%nat →
       length first3 = 3%nat ∧ length last3 = 3%nat
       ∧ (∃ rest, name p = first3 ++ rest)
       ∧ ∃ rest, name p = rest ++ last3).
Proof.
  exists (take 3 (name p)), (drop (length (name p) - 3) (name p)).
  split_and!.
  - unfold show_product_slices. by rewrite slice_first3, slice_last3.
  - intros Hlen. split.
    + by apply take_ge.
    + replace (length (name p) - 3)%nat with O by lia. done.
  - intros Hlen. split_and!.
    + rewrite length_take. lia.
    + rewrite length_drop. lia.
    + exists (drop 3 (name p)). by rewrite take_drop.
    + exists (take (length (name p) - 3) (name p)). by rewrite take_drop.
Qed.

(** X5: when the cart already holds an item of the name of [p], adding [p]
    and removing that name takes out the older item and keeps [p], as the
    last item; the cart is as long as before. *)
Theorem cart_add_remove_older l q r p :
  Forall (λ x, name x ≠ name p) l → name q = name p →
  remove_from_cart (add_to_cart (l ++ q :: r) p) (name p) = l ++ r ++ [p]
  ∧ length (remove_from_cart (add_to_cart (l ++ q :: r) p) (name p))
    = length (l ++ q :: r).
Proof.
  intros Hl Hq. unfold add_to_cart.
  assert (remove_from_cart ((l ++ q :: r) ++ [p]) (name p) = l ++ r ++ [p])
    as ->.
  { rewrite <- app_assoc. simpl. rewrite <- Hq.
    apply remove_from_cart_first. by rewrite Hq. }
  split; [done|]. rewrite !length_app. simpl. lia.
Qed.

(** X6: [cart_summary] returns the text "Cart is empty." for the empty
    cart and for no other. *)
Theorem cart_summary_empty cart :
  cart_summary cart = str "Cart is empty." ↔ cart = [].
Proof.
  split; [|by intros ->].
  destruct cart as [|p cart]; [done|]. intros Heq. exfalso.
  assert (10%N ∈ cart_summary (p :: cart)) as Hnl.
  { unfold cart_summary. apply elem_of_app. right. by left. }
  rewrite Heq in Hnl. vm_compute in Hnl.
  repeat (apply elem_of_cons in Hnl as [?|Hnl]; [done|]).
  by apply elem_of_nil in Hnl.
Qed.

(** X7: the user name that [interactive] takes from an e-mail address has
    no "@"; it is the address itself when the address has none, and
    otherwise what stands before its first "@". *)
Theorem username_of_spec email :
  str_in (str "@") (username_of email) = false
  ∧ (str_in (str "@") email = false → username_of email = email)
  ∧ (str_in (str "@") email = true →
     ∃ rest, email = username_of email ++ str "@" ++ rest).
Proof.
  unfold username_of. change (str "@") with [64%N].
  destruct (split_on_go_head 64 [] email) as (x & tl & Hsp & Hx).
  unfold split_on. rewrite Hsp.
  destruct (str_in [64%N] email) eqn:Hin.
  - apply str_in_char in Hin.
    destruct Hx as [(Hno & _)|(pre & post & -> & Hpre & ->)]; [done|].
    simpl. split_and!; [|done|by exists post].
    destruct (str_in [64%N] pre) eqn:Hp; [|done].
    by apply str_in_char in Hp.
  - by split_and!.
Qed.

(** X8: for a product that [find_products_by_keyword] returns, the two
    positions that [interactive] prints are never [-1]: the first is at
    most the last, the lowercased keyword stands at both in the lowercased
    name, and it fits into the name from the last. *)
Theorem match_positions_found products keyword p :
  p ∈ find_products_by_keyword products keyword →
  ∃ first last : nat,
    match_positions keyword p = (Z.of_nat first, Z.of_nat last)
    ∧ (first ≤ last)%nat
    ∧ (last + length (lower keyword) ≤ length (lower (name p)))%nat
    ∧ startswith (lower keyword) (drop first (lower (name p))) = true
    ∧ startswith (lower keyword) (drop last (lower (name p))) = true.
Proof.
  rewrite find_products_by_keyword_filter, list_elem_of_In, filter_In.
  intros [_ Hin]. unfold match_positions, find, rfind.
  destruct (find_from_spec 0 _ _ Hin) as (a & -> & Ha & Hmin).
  destruct (rfind_from_spec 0 _ _ ltac:(lia) Hin)
    as (b & -> & Hlen & Hb & Hmax).
  exists a, b. split_and!; try done.
  - destruct (decide (a ≤ b)%nat) as [?|Hab]; [done|].
    rewrite Hmin in Hb; [done | lia].
  - apply startswith_length in Hb. rewrite length_drop in Hb. lia.
Qed.
End buyer_facts.

(** * More of the text analyzer *)

Section split_facts.
Implicit Types (s w l r : pystr).

Lemma split_go_spaces w r :
  forallb isspace r = true →
  split_go w r = match w with [] => [] | _ => [w] end.
Proof.
  revert w. induction r as [|c r IH]; intros w Hr; simpl in *; [done|].
  apply andb_true_iff in Hr as [-> Hr]. rewrite (IH []) by done.
  by destruct w.
Qed.

Lemma split_go_app_spaces w s r :
  forallb isspace r = true → split_go w (s ++ r) = split_go w s.
Proof.
  intros Hr. revert w. induction s as [|c s IH]; intros w; simpl.
  - by apply split_go_spaces.
  - destruct (isspace c); [|apply IH]. rewrite IH. done.
Qed.

Lemma split_go_spaces_app l s :
  forallb isspace l = true → split_go [] (l ++ s) = split_go [] s.
Proof.
  induction l as [|c l IH]; simpl; [done|].
  intros [-> Hl]%andb_true_iff. by apply IH.
Qed.

(** The words of a string are the words of the stripped string. *)
Lemma split_strip s : split (strip s) = split s.
Proof.
  destruct (strip_spec s) as (l & r & Hs & Hl & Hr & _).
  unfold split. rewrite Hs at 2.
  by rewrite split_go_spaces_app, split_go_app_spaces.
Qed.

Lemma split_go_nonempty w s : w ≠ [] → split_go w s ≠ [].
Proof.
  revert w. induction s as [|c s IH]; intros w Hw; simpl.
  - by destruct w.
  - destruct (isspace c); [by destruct w|]. apply IH. by destruct w.
Qed.

Lemma split_nil s : split s = [] ↔ forallb isspace s = true.
Proof.
  unfold split. induction s as [|c s IH]; simpl; [done|].
  destruct (isspace c); simpl; [done|]. split; [|done].
  intros Hnil. by apply split_go_nonempty in Hnil.
Qed.

Lemma strip_nil s : strip s = [] ↔ forallb isspace s = true.
Proof.
  destruct (strip_spec s) as (l & r & Hs & Hl & Hr & Hhd & _). split.
  - intros Hnil. rewrite Hs, Hnil, !forallb_app, Hl, Hr. done.
  - intros Hall. destruct (strip s) as [|c p]; [done|].
    rewrite Hs, !forallb_app in Hall. simpl in Hall.
    rewrite (Hhd c) in Hall by done. by rewrite andb_false_r in Hall.
Qed.

Lemma lstrip_id s :
  (∀ c, head s = Some c → isspace c = false) → lstrip s = s.
Proof. destruct s as [|c s]; simpl; [done|]. intros Hc. by rewrite Hc. Qed.

Lemma strip_strip s : strip (strip s) = strip s.
Proof.
  destruct (strip_spec s) as (_ & _ & _ & _ & _ & Hhd & Hlast).
  unfold strip at 1. rewrite lstrip_id by done. unfold rstrip.
  rewrite lstrip_id; [apply reverse_involutive|].
  intros c. rewrite head_reverse. apply Hlast.
Qed.
End split_facts.

Section analyzer_more.
Import TextAnalyzer Repl.
Context `{PyStr}.

(** X9: [analyze_text] counts the same words with and without
    [strip_spaces], and the processed string is never longer with it. *)
Theorem analyze_text_strip_words (s : pystr) :
  word_count (analyze_text s true) = word_count (analyze_text s false)
  ∧ (length_ (analyze_text s true) ≤ length_ (analyze_text s false))%nat.
Proof.
  simpl. split; [by rewrite split_strip|].
  destruct (strip_spec s) as (l & r & Hs & _). rewrite Hs at 2.
  rewrite !length_app. lia.
Qed.

(** X10: the word count is zero exactly when the input consists of
    whitespace only, which is when stripping leaves the empty string. *)
Theorem analyze_text_no_words (s : pystr) (strip_spaces : bool) :
  (word_count (analyze_text s strip_spaces) = 0%nat
   ↔ forallb isspace s = true)
  ∧ (processed (analyze_text s true) = [] ↔ forallb isspace s = true).
Proof.
  split; [|apply strip_nil].
  rewrite <- split_nil. simpl.
  destruct strip_spaces; [rewrite split_strip|];
    (split; [apply nil_length_inv | by intros ->]).
Qed.

(** X11: analysing the processed string again, with or without
    [strip_spaces], changes nothing but ['original']. *)
Theorem analyze_text_processed (s : pystr) (strip_spaces : bool) :
  let a := analyze_text s true in
  analyze_text (processed a) strip_spaces
  = {| original := processed a; processed := processed a;
       length_ := length_ a; count_char := count_char a;
       word_count := word_count a; title_ := title_ a;
       lower_ := lower_ a; upper_ := upper_ a; is_title := is_title a;
       is_lower := is_lower a; is_upper := is_upper a |}.
Proof.
  simpl. unfold analyze_text.
  destruct strip_spaces; [by rewrite strip_strip | done].
Qed.

Lemma loop_no_command (lines : list pystr) :
  Forall (λ s, lower s ∉ [str "exit"; str "quit"]) lines →
  loop lines
  = ((λ s, if bool_decide (s = []) then EmptyString
           else PrettyPrint (analyze_text s true)) <$> lines)
    ++ [EndOfInput].
Proof.
  induction 1 as [|s lines Hs _ IH]; [done|]. cbn [loop].
  rewrite fmap_cons. case_bool_decide; [by rewrite IH|].
  rewrite bool_decide_eq_false_2 by done. by rewrite IH.
Qed.

Lemma loop_command (before after : list pystr) (command : pystr) :
  Forall (λ s, lower s ∉ [str "exit"; str "quit"]) before →
  lower command ∈ [str "exit"; str "quit"] →
  loop (before ++ command :: after)
  = ((λ s, if bool_decide (s = []) then EmptyString
           else PrettyPrint (analyze_text s true)) <$> before)
    ++ [Exiting].
Proof.
  intros Hbefore Hcmd. induction Hbefore as [|s lines Hs _ IH].
  - cbn [app loop fmap list_fmap].
    rewrite bool_decide_eq_false_2, bool_decide_eq_true_2; [done..|].
    intros ->. assert (lower [] = []) as Hlow by by apply lower_nil.
    rewrite Hlow in Hcmd. vm_compute in Hcmd.
    repeat (apply elem_of_cons in Hcmd as [?|Hcmd]; [done|]).
    by apply elem_of_nil in Hcmd.
  - rewrite <- app_comm_cons. cbn [loop]. rewrite fmap_cons.
    case_bool_decide; [by rewrite IH|].
    rewrite bool_decide_eq_false_2 by done. by rewrite IH.
Qed.

(** X12: [main] prints the banner, then one result for every non-empty
    line and the reminder for every empty one, in their order, up to the
    first line that is "exit" or "quit" in any case; it stops there, and
    no later line has an effect. Without such a line it ends when the
    input does. *)
Theorem main_trace (before after : list pystr) (command : pystr) :
  Forall (λ s, lower s ∉ [str "exit"; str "quit"]) before →
  (lower command ∈ [str "exit"; str "quit"] →
   main (before ++ command :: after)
   = Banner
     :: ((λ s, if bool_decide (s = []) then EmptyString
               else PrettyPrint (analyze_text s true)) <$> before)
     ++ [Exiting])
  ∧ main before
    = Banner
      :: ((λ s, if bool_decide (s = []) then EmptyString
                else PrettyPrint (analyze_text s true)) <$> before)
      ++ [EndOfInput].
Proof.
  intros Hbefore. unfold main. split.
  - intros Hcmd. by rewrite loop_command.
  - by rewrite loop_no_command.
Qed.
End analyzer_more.

(** * More of the conflict check *)

Section conflict_more.
Context `{PyStr}.
Implicit Types (r : rdict) (rows : list rdict) (fs : fsys).
Implicit Types (path d t : pystr) (ign : option pystr) (b : Z).

(** The loop returns [True] at a row or goes on to the next. *)
Lemma find_conflict_rows_cons r rows d t ign b req :
  find_conflict_rows (r :: rows) d t ign b req
  = find_conflict_rows [r] d t ign b req
    || find_conflict_rows rows d t ign b req.
Proof. cbn [find_conflict_rows]. repeat case_match; done. Qed.

Lemma find_conflict_rows_exists rows d t ign b req :
  find_conflict_rows rows d t ign b req = true
  ↔ ∃ r, r ∈ rows ∧ find_conflict_rows [r] d t ign b req = true.
Proof.
  induction rows as [|r rows IH].
  - split; [done | by intros (r & ?%elem_of_nil & _)].
  - rewrite find_conflict_rows_cons, orb_true_iff, IH. split.
    + intros [?|(r' & ? & ?)]; [exists r | exists r'];
        (split; [by constructor | done]).
    + intros (r' & [->|?]%elem_of_cons & ?); eauto.
Qed.

(** What makes the loop return [True] at one row. *)
Lemma find_conflict_row r d t ign b req :
  find_conflict_rows [r] d t ign b req = true
  ↔ ¬ ignored ign r
    ∧ dict_get (Some (str "date")) r = Some (VStr d)
    ∧ ∃ other, dict_get (Some (str "time")) r = Some other
               ∧ truthy other = true
               ∧ match req, value_minutes other with
                 | Some n, Some m =>
                     b ≠ 0 ∧ Z.abs (m - n) ≤ b ∨ m = n ∧ b = 0
                 | _, _ => other = VStr t
                 end.
Proof.
  cbn [find_conflict_rows]. pose proof (ignored_test ign r) as Hign.
  destruct (match ign with Some _ => _ | None => _ end).
  { split; [done | intros [Hn _]]. destruct Hn. by apply Hign. }
  assert (¬ ignored ign r) as Hnign by (rewrite <- Hign; done).
  case_bool_decide as Hd; simpl;
    [|split; [done | by intros (_ & ? & _)]].
  destruct (dict_get (Some (str "time")) r) as [other|] eqn:Htime;
    [|split; [done | by intros (_ & _ & ? & ? & _)]].
  destruct (truthy other) eqn:Htr; simpl;
    [|split; [done | intros (_ & _ & ? & [= <-] & ? & _); congruence]].
  destruct req as [n|]; [destruct (value_minutes other) as [m|] eqn:Hm|].
  - split.
    + intros Hbody. split_and!; [done..|]. exists other.
      split_and!; [done..|]. rewrite Hm.
      destruct (Z.eqb_spec b 0), (Z.leb_spec (Z.abs (m - n)) b),
        (Z.eqb_spec m n); simpl in Hbody; try done; lia.
    + intros (_ & _ & other' & [= <-] & _ & HP). rewrite Hm in HP.
      destruct (Z.eqb_spec b 0), (Z.leb_spec (Z.abs (m - n)) b),
        (Z.eqb_spec m n); simpl; try done; lia.
  - split.
    + intros Hbody. split_and!; [done..|]. exists other.
      split_and!; [done..|]. rewrite Hm. by case_bool_decide.
    + intros (_ & _ & other' & [= <-] & _ & HP). rewrite Hm in HP.
      by rewrite bool_decide_eq_true_2.
  - split.
    + intros Hbody. split_and!; [done..|]. exists other.
      split_and!; [done..|]. by case_bool_decide.
    + intros (_ & _ & other' & [= <-] & _ & HP).
      by rewrite bool_decide_eq_true_2.
Qed.
(** A row with the requested date and time, letter for letter, makes the
    loop return [True]. *)
Lemma find_conflict_rows_exact rows r d t ign b :
  0 ≤ b → t ≠ [] → r ∈ rows → ¬ ignored ign r →
  date_time r = (Some (VStr d), Some (VStr t)) →
  find_conflict_rows rows d t ign b (minutes t) = true.
Proof.
  intros Hb Ht Hr Hign [= Hd Htime].
  apply find_conflict_rows_exists. exists r. split; [done|].
  apply find_conflict_row. split_and!; [done..|]. exists (VStr t).
  split_and!; [done| |].
  - simpl. by rewrite bool_decide_eq_false_2.
  - simpl. destruct (minutes t) as [n|]; [|done].
    destruct (decide (b = 0)) as [->|?]; [by right|]. left. lia.
Qed.
End conflict_more.

Section conflict_extras.
Context `{PyStr}.
Implicit Types (r : rdict) (rows : list rdict) (fs : fsys).
Implicit Types (path d t : pystr) (ign : option pystr) (b : Z).

(** X13: in every store and for every buffer that is not negative,
    [find_conflict] returns [True] as soon as a row that is not ignored has
    the requested date and the requested time, letter for letter, unless
    that time is the empty string. *)
Theorem find_conflict_exact_slot path d t ign b fs r :
  0 ≤ b → t ≠ [] →
  r ∈ read_appointments path fs →
  ¬ ignored ign r →
  date_time r = (Some (VStr d), Some (VStr t)) →
  find_conflict path d t ign b fs = true.
Proof.
  intros Hb Ht Hr Hign Hdt. unfold find_conflict.
  by apply (find_conflict_rows_exact _ r).
Qed.

(** X14: a wider buffer finds every conflict that a narrower one finds: for
    [0 <= b <= b'], in every store, a conflict with buffer [b] is a
    conflict with buffer [b']. *)
Theorem find_conflict_buffer_mono path d t ign b b' fs :
  0 ≤ b ≤ b' →
  find_conflict path d t ign b fs = true →
  find_conflict path d t ign b' fs = true.
Proof.
  intros Hb. unfold find_conflict. rewrite !find_conflict_rows_exists.
  intros (r & Hr & Hhit). exists r. split; [done|].
  apply find_conflict_row in Hhit as (Hign & Hd & other & Ho & Htr & Hm).
  apply find_conflict_row. split_and!; [done..|]. exists other.
  split_and!; [done..|].
  destruct (minutes t) as [n|]; [|done].
  destruct (value_minutes other) as [m|]; [|done].
  destruct (decide (b' = 0)) as [->|?]; [right; lia | left; lia].
Qed.

(** X15: when the requested time does not parse as hours and minutes,
    [find_conflict] compares the time strings: whatever the buffer, it
    returns [True] exactly when a row that is not ignored has the requested
    date and, letter for letter, the requested time, which is not the
    empty string. *)
Theorem find_conflict_unparsed path d t ign b fs :
  minutes t = None →
  find_conflict path d t ign b fs = true
  ↔ t ≠ []
    ∧ ∃ r, r ∈ read_appointments path fs
           ∧ ¬ ignored ign r
           ∧ date_time r = (Some (VStr d), Some (VStr t)).
Proof.
  intros Ht. unfold find_conflict. rewrite Ht, find_conflict_rows_exists.
  split.
  - intros (r & Hr & Hhit).
    apply find_conflict_row in Hhit as (Hign & Hd & other & Ho & Htr & ->).
    split.
    + intros ->. by vm_compute in Htr.
    + exists r. split_and!; [done..|]. unfold date_time. by rewrite Hd, Ho.
  - intros (Hne & r & Hr & Hign & [= Hd Ho]). exists r. split; [done|].
    apply find_conflict_row. split_and!; [done..|]. exists (VStr t).
    split_and!; [done| |done]. simpl. by rewrite bool_decide_eq_false_2.
Qed.

(** X16: a requested time that parses counts only through its minute of
    the day: two ways of writing one minute get the same answer, in every
    store. *)
Theorem find_conflict_same_minute path d t t' ign b fs n :
  minutes t = Some n → minutes t' = Some n →
  find_conflict path d t ign b fs = find_conflict path d t' ign b fs.
Proof.
  intros Ht Ht'. unfold find_conflict. rewrite Ht, Ht'.
  assert (∀ t1 t2, minutes t1 = Some n →
            find_conflict_rows (read_appointments path fs) d t1 ign b (Some n)
            = true →
            find_conflict_rows (read_appointments path fs) d t2 ign b (Some n)
            = true) as Himp.
  { intros t1 t2 Ht1. rewrite !find_conflict_rows_exists.
    intros (r & Hr & Hhit). exists r. split; [done|].
    apply find_conflict_row in Hhit as (Hign & Hd & other & Ho & Htr & Hm).
    apply find_conflict_row. split_and!; [done..|]. exists other.
    split_and!; [done..|].
    destruct (value_minutes other) as [m|] eqn:Hom; [done|].
    subst other. simpl in Hom. congruence. }
  destruct (find_conflict_rows _ d t ign b (Some n)) eqn:H1.
  - symmetry. by apply (Himp t t').
  - destruct (find_conflict_rows _ d t' ign b (Some n)) eqn:H2; [|done].
    rewrite (Himp t' t) in H1; done.
Qed.
End conflict_extras.

(** * More of the store *)

Section store_more.
Context `{PyStr}.
Implicit Types (r : rdict) (rows : list rdict) (fs : fsys) (ks : list key).
Implicit Types (path ts : pystr).

Lemma forallb_false {A} (f : A → bool) (l : list A) :
  forallb f l = false → ∃ x, x ∈ l ∧ f x = false.
Proof.
  induction l as [|x l IH]; simpl; [done|].
  destruct (f x) eqn:Hx; simpl.
  - intros (y & ? & ?)%IH. exists y. split; [by right | done].
  - intros _. exists x. split; [by left | done].
Qed.

Lemma dict_to_list_None ks r :
  dict_to_list ks r = None → ∃ k, k ∈ dict_keys r ∧ k ∉ ks.
Proof.
  unfold dict_to_list. destruct (forallb _ _) eqn:Hall; [done|]. intros _.
  apply forallb_false in Hall as (k & Hk & Hin). exists k.
  split; [done|]. by apply bool_decide_eq_false in Hin.
Qed.

Lemma dict_to_list_Some ks r rec :
  dict_to_list ks r = Some rec → dict_keys r ⊆ ks ∧ rec = to_record ks r.
Proof.
  unfold dict_to_list. destruct (forallb _ _) eqn:Hall; [|done].
  intros [= <-]. split; [|done]. intros k Hk.
  rewrite forallb_forall in Hall.
  by apply (bool_decide_unpack _), Is_true_true, Hall, list_elem_of_In.
Qed.

(** The loop of [DictWriter.writerow] stops at the first row with a key
    that is no field name, and otherwise writes one record for each row. *)
Lemma writerows_inv ks rows f f' res :
  writerows ks rows f = (f', res) →
  match res with
  | None =>
      f' = f ++ (to_record ks <$> rows)
      ∧ Forall (λ r, dict_keys r ⊆ ks) rows
  | Some e =>
      e = ValueError ∧ ∃ r k, r ∈ rows ∧ k ∈ dict_keys r ∧ k ∉ ks
  end.
Proof.
  revert f. induction rows as [|r rows IH]; intros f; simpl.
  - intros [= <- <-]. by rewrite app_nil_r.
  - destruct (dict_to_list ks r) as [rec|] eqn:Hr.
    + apply dict_to_list_Some in Hr as [Hsub ->]. intros Hw%IH.
      destruct res as [e|].
      * destruct Hw as (-> & r' & k & ? & ? & ?). split; [done|].
        exists r', k. split_and!; [by right | done..].
      * destruct Hw as [-> Hrows]. split; [|by constructor].
        by rewrite <- app_assoc.
    + intros [= <- <-]. apply dict_to_list_None in Hr as (k & ? & ?).
      split; [done|]. exists r, k. split_and!; [by left | done..].
Qed.

(** The loop writes the records of the rows before the first one with a
    key that is no field name, and raises at that row. *)
Lemma writerows_raise ks rows f r k :
  r ∈ rows → k ∈ dict_keys r → k ∉ ks →
  ∃ good bad rest,
    rows = good ++ bad :: rest
    ∧ Forall (λ r, dict_keys r ⊆ ks) good
    ∧ ¬ dict_keys bad ⊆ ks
    ∧ writerows ks rows f = (f ++ (to_record ks <$> good), Some ValueError).
Proof.
  intros Hr Hk Hks. revert f.
  induction rows as [|x rows IH]; intros f; [by apply elem_of_nil in Hr|].
  simpl. destruct (dict_to_list ks x) as [rec|] eqn:Hx.
  - apply dict_to_list_Some in Hx as [Hsub ->].
    apply elem_of_cons in Hr as [->|Hr]; [destruct Hks; by apply Hsub|].
    destruct (IH Hr (f ++ [to_record ks x]))
      as (good & bad & rest & -> & Hgood & Hbad & ->).
    exists (x :: good), bad, rest.
    split_and!; [done | by constructor | done |].
    by rewrite <- app_assoc.
  - apply dict_to_list_None in Hx as (k' & Hk' & Hks').
    exists [], x, rows. split_and!; [done | done | | by rewrite app_nil_r].
    intros Hsub. by apply Hks', Hsub.
Qed.

(** X17: [overwrite_appointments] fails without harm: when some row has a
    key that the first row lacks, [DictWriter] raises [ValueError] at the
    first such row, before the file is replaced; the file at [path], hence
    the rows read from it, and every other file but the temporary one are
    as they were, and the temporary file is left with the header and the
    records of the rows before that row. *)
Theorem overwrite_appointments_failure path rows r0 r k fs :
  head rows = Some r0 →
  r ∈ rows → k ∈ dict_keys r → k ∉ dict_keys r0 →
  ∃ fs' good bad rest,
    overwrite_appointments path rows fs = Raise ValueError fs'
    ∧ rows = good ++ bad :: rest
    ∧ Forall (λ r, dict_keys r ⊆ dict_keys r0) good
    ∧ ¬ dict_keys bad ⊆ dict_keys r0
    ∧ fs' !! (path ++ str ".tmp")
      = Some (header_record (dict_keys r0)
                :: (to_record (dict_keys r0) <$> good))
    ∧ fs' !! path = fs !! path
    ∧ read_appointments path fs' = read_appointments path fs
    ∧ ∀ p, p ≠ path ++ str ".tmp" → fs' !! p = fs !! p.
Proof.
  intros Hhead Hr Hk Hk0.
  destruct rows as [|r0' rows]; [done|]. injection Hhead as ->.
  destruct (writerows_raise (dict_keys r0) (r0 :: rows)
              [header_record (dict_keys r0)] r k Hr Hk Hk0)
    as (good & bad & rest & Heq & Hgood & Hbad & Hw).
  unfold overwrite_appointments. rewrite Hw.
  unfold mbind, M_bind, modify, raise.
  assert (∀ p, p ≠ path ++ str ".tmp" →
               <[path ++ str ".tmp" :=
                   [header_record (dict_keys r0)]
                   ++ (to_record (dict_keys r0) <$> good)]> fs !! p
               = fs !! p) as Hframe
    by (intros p Hp; by rewrite lookup_insert_ne).
  eexists _, good, bad, rest.
  split_and!; [done | done | done | done | | | | done].
  - by rewrite lookup_insert_eq.
  - apply Hframe. intros Hp. by apply (tmp_ne path).
  - unfold read_appointments. rewrite Hframe; [done|].
    intros Hp. by apply (tmp_ne path).
Qed.

(** X18: after [overwrite_appointments] returned, the file at [path] holds
    the header line, which is the keys of the first row, the key [None] as
    the empty string, and after it one record for each row, in their
    order: the text of the row's value under each of these keys, and the
    empty string where the row lacks the key; for no rows it holds the
    header of the application alone. No temporary file is left when there
    were rows; every other file is as it was; and every row had only keys
    of the first. *)
Theorem overwrite_appointments_success path rows fs fs' :
  overwrite_appointments path rows fs = Ret tt fs' →
  fs' !! path
  = Some match rows with
         | [] => [HEADER]
         | r0 :: _ =>
             header_record (dict_keys r0)
               :: ((λ r, (λ k, field_str (default (VStr []) (dict_get k r)))
                           <$> dict_keys r0) <$> rows)
         end
  ∧ (rows ≠ [] → fs' !! (path ++ str ".tmp") = None)
  ∧ (∀ p, p ≠ path → p ≠ path ++ str ".tmp" → fs' !! p = fs !! p)
  ∧ ∀ r0, head rows = Some r0 →
          Forall (λ r, dict_keys r ⊆ dict_keys r0) rows.
Proof.
  destruct rows as [|r0 rows]; unfold overwrite_appointments.
  - unfold modify. intros [= <-]. split_and!; [|done| |done].
    + by rewrite lookup_insert_eq.
    + intros p Hp _. by rewrite lookup_insert_ne.
  - destruct (writerows _ _ _) as [f res] eqn:Hw.
    apply writerows_inv in Hw. destruct res as [e'|]; [done|].
    destruct Hw as [-> Hrows].
    unfold mbind, M_bind, modify. intros [= <-]. split_and!.
    + rewrite lookup_delete_ne by apply tmp_ne.
      by rewrite lookup_insert_eq.
    + intros _. by rewrite lookup_delete_eq.
    + intros p Hp Htmp. by rewrite lookup_delete_ne, !lookup_insert_ne.
    + by intros ? [= <-].
Qed.


(** X20: after [delete_appointment] no stored row has the timestamp, and
    deleting it once more returns [False] and changes nothing, when the
    stored rows are [Dict[str, str]]. *)
Theorem delete_appointment_twice path ts fs :
  Forall str_dict (read_appointments path fs) →
  ∃ b fs',
    delete_appointment path ts fs = Ret b fs'
    ∧ Forall (λ r, dict_get (Some (str "timestamp")) r ≠ Some (VStr ts))
        (read_appointments path fs')
    ∧ delete_appointment path ts fs' = Ret false fs'.
Proof.
  intros Hrows.
  assert (∀ rows, Forall (λ r, dict_get (Some (str "timestamp")) r
                               ≠ Some (VStr ts))
                    (List.filter (ts_differs ts) rows)) as Hgone.
  { intros rows. apply Forall_forall. intros r Hr.
    apply list_elem_of_In, filter_In in Hr as [_ Hr]. unfold ts_differs in Hr.
    by apply negb_true_iff, bool_decide_eq_false in Hr. }
  assert (∀ fs', Forall (λ r, dict_get (Some (str "timestamp")) r
                              ≠ Some (VStr ts))
                   (read_appointments path fs') →
                 delete_appointment path ts fs' = Ret false fs') as Hagain.
  { intros fs' Hfs'. rewrite delete_appointment_unfold. simpl.
    rewrite forallb_filter_id, Nat.eqb_refl; [done|].
    apply forallb_forall. intros r Hr%list_elem_of_In.
    apply (proj1 (Forall_forall _ _) Hfs') in Hr. unfold ts_differs.
    by rewrite bool_decide_eq_false_2. }
  rewrite delete_appointment_unfold. simpl.
  destruct (Nat.eqb_spec (length (List.filter (ts_differs ts)
                                    (read_appointments path fs)))
              (length (read_appointments path fs))) as [Hlen|Hlen].
  - apply filter_length_eq in Hlen. exists false, fs.
    assert (Forall (λ r, dict_get (Some (str "timestamp")) r
                         ≠ Some (VStr ts)) (read_appointments path fs))
      as Hnone by (rewrite <- Hlen; apply Hgone).
    split_and!; [done | done | by apply Hagain].
  - destruct (read_appointments_table _ _ Hrows) as [ks Ht].
    destruct (overwrite_table path ks
                (List.filter (ts_differs ts) (read_appointments path fs)) fs)
      as (fs' & -> & Hread).
    { eapply table_sublist; [|exact Ht].
      intros r Hr. apply list_elem_of_In, filter_In in Hr as [Hr _].
      by apply list_elem_of_In. }
    exists true, fs'.
    assert (Forall (λ r, dict_get (Some (str "timestamp")) r
                         ≠ Some (VStr ts)) (read_appointments path fs'))
      as Hnone by (rewrite Hread; apply Hgone).
    split_and!; [done | done | by apply Hagain].
Qed.

(** X21: when every stored row has the timestamp, and there is one,
    [delete_appointment] returns [True] and leaves the file with the header
    of the application alone, whatever header it had. *)
Theorem delete_appointment_all path ts fs :
  read_appointments path fs ≠ [] →
  Forall (λ r, dict_get (Some (str "timestamp")) r = Some (VStr ts))
    (read_appointments path fs) →
  delete_appointment path ts fs = Ret true (<[path := [HEADER]]> fs)
  ∧ read_appointments path (<[path := [HEADER]]> fs) = [].
Proof.
  intros Hne Hall. rewrite delete_appointment_unfold. simpl.
  assert (List.filter (ts_differs ts) (read_appointments path fs) = [])
    as ->.
  { induction Hall as [|r rows Hr _ IH]; [done|]. simpl. unfold ts_differs.
    rewrite bool_decide_eq_true_2 by done. simpl.
    destruct rows; [done|]. by apply IH. }
  split.
  - by destruct (read_appointments path fs).
  - unfold read_appointments. by rewrite lookup_insert_eq.
Qed.
End store_more.

(** * More of the list of appointments *)

Section filter_more.
Context `{PyStr}.
Implicit Types (r : sdict) (rows kept l : list sdict).

Lemma selected_all (P : sdict → Prop) rows kept :
  selected P rows kept → Forall P rows → kept = rows.
Proof.
  induction 1 as [|r rows kept Hr _ IH|r rows kept Hr _ IH];
    intros Hall; [done|..].
  - apply Forall_cons in Hall as [_ Hall]. by rewrite IH.
  - by apply Forall_cons in Hall as [? _].
Qed.

Lemma sort_rows_id l : sorted_rows l → sort_rows l = l.
Proof.
  unfold sorted_rows. induction 1 as [|x l Hl IH Hx]; [done|].
  cbn [sort_rows foldr]. fold (sort_rows l). rewrite IH.
  destruct l as [|y l]; [done|]. simpl.
  apply Forall_cons in Hx as [Hxy _]. unfold key_le in Hxy. by rewrite Hxy.
Qed.

(** X22: filtering the result of [filter_appointments] again, with the
    same range, types and query, changes nothing. *)
Theorem filter_appointments_idempotent rows date_from date_to types query :
  filter_appointments
    (filter_appointments rows date_from date_to types query)
    date_from date_to types query
  = filter_appointments rows date_from date_to types query.
Proof.
  unfold filter_appointments.
  pose proof (filter_rows_selected rows date_from date_to types query)
    as Hsel.
  set (out := filter_rows rows date_from date_to types (needle query)) in *.
  rewrite (selected_all _ _ _
             (filter_rows_selected (sort_rows out) date_from date_to types
                query)).
  - apply sort_rows_id, sort_rows_sorted.
  - apply Forall_forall. intros r Hr. rewrite sort_rows_perm in Hr.
    by apply (selected_elem _ _ _ Hsel) in Hr as [_ ?].
Qed.

Lemma slice_range {A} (a b : nat) (l : list A) :
  slice (Some (Z.of_nat a)) (Some (Z.of_nat b)) l = drop a (take b l).
Proof.
  unfold slice, slice_index. simpl.
  destruct (Z.ltb_spec (Z.of_nat a) 0), (Z.ltb_spec (Z.of_nat b) 0);
    try lia.
  destruct (decide (b ≤ length l)%nat).
  - replace (Z.to_nat (Z.of_nat b `min` Z.of_nat (length l))) with b by lia.
    destruct (decide (a ≤ length l)%nat).
    + by replace (Z.to_nat (Z.of_nat a `min` Z.of_nat (length l))) with a
        by lia.
    + rewrite !drop_ge; [done | rewrite length_take; lia..].
  - replace (Z.to_nat (Z.of_nat b `min` Z.of_nat (length l)))
      with (length l) by lia.
    rewrite (take_ge l b) by lia. rewrite firstn_all.
    destruct (decide (a ≤ length l)%nat).
    + by replace (Z.to_nat (Z.of_nat a `min` Z.of_nat (length l))) with a
        by lia.
    + rewrite !drop_ge; [done | lia..].
Qed.

Lemma page_rows_chunk {A} (l : list A) (i n : nat) :
  page_rows l (Z.of_nat (S i)) (Z.of_nat n) = take n (drop (i * n) l).
Proof.
  unfold page_rows.
  replace ((Z.of_nat (S i) - 1) * Z.of_nat n) with (Z.of_nat (i * n)) by lia.
  replace (Z.of_nat (i * n) + Z.of_nat n) with (Z.of_nat (i * n + n)) by lia.
  by rewrite slice_range, take_drop_commute.
Qed.

Lemma chunks_take {A} (l : list A) (n k : nat) :
  mjoin ((λ i, take n (drop (i * n) l)) <$> seq 0 k) = take (k * n) l.
Proof.
  induction k as [|k IH]; [done|].
  rewrite seq_S, fmap_app, join_app, IH. simpl. rewrite app_nil_r.
  rewrite take_take_drop. f_equal. lia.
Qed.

Lemma pages_bounds (total page_size : Z) :
  0 < page_size → 0 ≤ total →
  1 ≤ pages total page_size
  ∧ total ≤ pages total page_size * page_size
  ∧ (pages total page_size - 1) * page_size < Z.max 1 total.
Proof.
  intros Hps Htotal. unfold pages.
  pose proof (Z.mul_div_le (total + page_size - 1) page_size Hps).
  pose proof (Z.mul_succ_div_gt (total + page_size - 1) page_size Hps).
  split_and!; [lia | nia |].
  destruct (decide (total = 0)) as [->|].
  - rewrite Z.div_small by lia. lia.
  - assert (1 ≤ (total + page_size - 1) / page_size)
      by (apply Z.div_le_lower_bound; lia).
    nia.
Qed.

(** X23: the pages cut the list in pieces: one after the other, the rows
    of the pages [1] to [pages] are the filtered rows; a page before the
    last has [page_size] rows, no page has more, and the last page of a
    list that is not empty has a row. *)
Theorem page_rows_partition {A} (filtered : list A) (page_size : Z) :
  0 < page_size →
  let total := Z.of_nat (length filtered) in
  mjoin ((λ i, page_rows filtered (Z.of_nat (S i)) page_size)
           <$> seq 0 (Z.to_nat (pages total page_size)))
  = filtered
  ∧ (∀ page, 1 ≤ page →
       Z.of_nat (length (page_rows filtered page page_size)) ≤ page_size)
  ∧ (∀ page, 1 ≤ page < pages total page_size →
       Z.of_nat (length (page_rows filtered page page_size)) = page_size)
  ∧ (filtered ≠ [] →
     page_rows filtered (pages total page_size) page_size ≠ []).
Proof.
  intros Hps total.
  destruct (pages_bounds total page_size Hps ltac:(lia))
    as (Hp1 & Hcover & Hlast).
  generalize dependent (pages total page_size). intros last Hp1 Hcover Hlast.
  assert (∃ n, page_size = Z.of_nat n) as [n ->]
    by (exists (Z.to_nat page_size); lia).
  assert (∀ page, 1 ≤ page →
            page_rows filtered page (Z.of_nat n)
            = take n (drop (Z.to_nat (page - 1) * n) filtered)) as Hpage.
  { intros page Hpage.
    replace page with (Z.of_nat (S (Z.to_nat (page - 1)))) at 1 by lia.
    apply page_rows_chunk. }
  subst total. split_and!.
  - rewrite (list_fmap_ext _ (λ i, take n (drop (i * n) filtered)))
      by (intros; apply page_rows_chunk).
    rewrite chunks_take. apply take_ge. nia.
  - intros page Hpage1. rewrite Hpage by done. rewrite length_take. lia.
  - intros page Hrange. rewrite Hpage by lia.
    rewrite length_take, length_drop.
    assert (Z.of_nat (Z.to_nat (page - 1) * n) + Z.of_nat n
            ≤ Z.of_nat (length filtered)); [|lia].
    rewrite Nat2Z.inj_mul, Z2Nat.id by lia. nia.
  - intros Hne. rewrite Hpage by lia.
    assert (0 < length filtered)%nat
      by (destruct filtered; simpl; [done | lia]).
    intros Hnil%(f_equal length).
    rewrite length_take, length_drop in Hnil. simpl in Hnil.
    assert (Z.of_nat (Z.to_nat (last - 1) * n)
            < Z.of_nat (length filtered)); [|lia].
    rewrite Nat2Z.inj_mul, Z2Nat.id by lia. lia.
Qed.

(** X24: the page of the session stays a page that exists: from a page of
    at least [1], the page after the range check and the two buttons lies
    between [1] and the number of pages; without a button, a page in the
    range stays. *)
Theorem page_after_range (page total page_size : Z) (prev next : bool) :
  1 ≤ page →
  1 ≤ page_after page total page_size prev next ≤ pages total page_size
  ∧ (page ≤ pages total page_size →
     page_after page total page_size false false = page).
Proof.
  intros Hpage. unfold page_after.
  assert (1 ≤ pages total page_size) by (unfold pages; lia).
  destruct (Z.ltb_spec (pages total page_size) page); simpl;
    destruct prev, next; simpl;
    repeat match goal with
           | |- context [Z.ltb ?a ?b] => destruct (Z.ltb_spec a b)
           end; lia.
Qed.
End filter_more.

(** * The export *)

Section export_facts.
Implicit Types (c : N) (w x s sep : pystr) (l : list pystr).

Lemma split_on_go_notin c w x s :
  c ∉ x → split_on_go c w (x ++ s) = split_on_go c (w ++ x) s.
Proof.
  revert w. induction x as [|a x IH]; intros w Hx; simpl.
  - by rewrite app_nil_r.
  - apply not_elem_of_cons in Hx as [Ha Hx].
    destruct (N.eqb_spec a c) as [->|_]; [done|].
    rewrite IH by done. by rewrite <- app_assoc.
Qed.

Lemma split_on_join c l :
  l ≠ [] → Forall (λ x, c ∉ x) l →
  split_on c (AsciiLib.join [c] l) = l.
Proof.
  intros Hne Hl. unfold split_on.
  induction Hl as [|x l Hx Hl IH]; [done|]. clear Hne.
  destruct l as [|y l].
  - simpl. rewrite <- (app_nil_r x) at 1.
    by rewrite split_on_go_notin.
  - change (AsciiLib.join [c] (x :: y :: l))
      with (x ++ c :: AsciiLib.join [c] (y :: l)).
    rewrite split_on_go_notin by done. cbn [split_on_go app].
    rewrite N.eqb_refl. by rewrite IH.
Qed.

Lemma join_notin c sep l :
  c ∉ sep → Forall (λ x, c ∉ x) l → c ∉ AsciiLib.join sep l.
Proof.
  intros Hsep. induction 1 as [|x l Hx Hl IH]; [apply not_elem_of_nil|].
  destruct l as [|y l]; [done|].
  change (AsciiLib.join sep (x :: y :: l))
    with (x ++ sep ++ AsciiLib.join sep (y :: l)).
  rewrite !not_elem_of_app. auto.
Qed.

(** X25: the exported text reads back: cut at the newlines and then at the
    commas, it gives the keys of the first row and then, row by row, the
    values under these keys, the empty string for a key that a row lacks,
    provided that the first row has a key and that no key and no exported
    value holds a comma or a newline. *)
Theorem export_csv_parse (r0 : sdict) (rest : list sdict) :
  let rows := r0 :: rest in
  let keys := dict_keys r0 in
  let cells := λ r : sdict, (λ k, default [] (dict_get k r)) <$> keys in
  keys ≠ [] →
  Forall (λ x, (10%N ∉ x) ∧ (44%N ∉ x)) keys →
  Forall (λ r, Forall (λ x, (10%N ∉ x) ∧ (44%N ∉ x)) (cells r)) rows →
  ∃ text,
    export_csv rows = Some text
    ∧ split_on 44 <$> split_on 10 text = keys :: (cells <$> rows).
Proof.
  intros rows keys cells Hne Hkeys Hcells. eexists. split; [done|].
  fold keys. change (str ",") with [44%N].
  set (line := λ fields, AsciiLib.join [44%N] fields).
  change (λ r : sdict, AsciiLib.join [44%N]
                          ((λ k, default [] (dict_get k r)) <$> keys))
    with (λ r, line (cells r)).
  change (AsciiLib.join [44%N] keys) with (line keys).
  assert (∀ fields, Forall (λ x, (10%N ∉ x) ∧ (44%N ∉ x)) fields →
                    10%N ∉ line fields) as Hline.
  { intros fields Hf. apply join_notin.
    - by intros [=]%list_elem_of_singleton.
    - eapply Forall_impl; [exact Hf|]. by intros ? [? _]. }
  assert (∀ fields, fields ≠ [] →
            Forall (λ x, (10%N ∉ x) ∧ (44%N ∉ x)) fields →
            split_on 44 (line fields) = fields) as Hback.
  { intros fields Hf0 Hf. apply split_on_join; [done|].
    eapply Forall_impl; [exact Hf|]. by intros ? [_ ?]. }
  rewrite split_on_join.
  - rewrite fmap_cons, Hback by done. f_equal.
    rewrite <- list_fmap_compose. apply Forall_fmap_ext_1.
    eapply Forall_impl; [exact Hcells|]. intros r Hr. simpl.
    apply Hback; [|done]. unfold cells. by destruct keys.
  - done.
  - constructor; [by apply Hline|]. rewrite Forall_fmap.
    eapply Forall_impl; [exact Hcells|]. intros r Hr. by apply Hline.
Qed.
End export_facts.

(** * The booking form *)

Section form_strings.
Implicit Types (w : nat) (n a b : Z) (x y s : pystr).

Lemma length_zero_padded w n : length (zero_padded w n) = w.
Proof.
  revert n. induction w as [|w IH]; intros n; simpl; [done|].
  rewrite length_app, IH. simpl. lia.
Qed.

Lemma strftime_HM_ne t : strftime_HM t ≠ [].
Proof.
  intros Heq%(f_equal length). unfold strftime_HM in Heq.
  rewrite !length_app, !length_zero_padded in Heq. simpl in Heq. lia.
Qed.

Lemma str_lt_app x y s s' :
  length x = length y →
  str_lt (x ++ s) (y ++ s')
  = str_lt x y || bool_decide (x = y) && str_lt s s'.
Proof.
  revert y. induction x as [|c x IH]; intros [|d y] Hlen; try done.
  simpl in Hlen. cbn [app str_lt]. rewrite IH by lia.
  destruct (N.ltb_spec c d), (N.eqb_spec c d); try lia; simpl.
  - subst d. f_equal. f_equal. apply bool_decide_ext.
    split; [by intros -> | by intros [= ->]].
  - by rewrite bool_decide_eq_false_2 by (by intros [= ? _]).
Qed.

(** Numbers of [w] digits, padded, are ordered as strings as they are as
    numbers. *)
Lemma zero_padded_order w a b :
  0 ≤ a < 10 ^ Z.of_nat w → 0 ≤ b < 10 ^ Z.of_nat w →
  str_lt (zero_padded w a) (zero_padded w b) = (a <? b)
  ∧ (zero_padded w a = zero_padded w b ↔ a = b).
Proof.
  revert a b. induction w as [|w IH]; intros a b Ha Hb.
  - simpl in *. assert (a = 0 ∧ b = 0) as [-> ->] by lia. done.
  - rewrite Nat2Z.inj_succ, Z.pow_succ_r in Ha, Hb by lia.
    pose proof (Z.div_mod a 10 ltac:(lia)) as Hda.
    pose proof (Z.div_mod b 10 ltac:(lia)) as Hdb.
    pose proof (Z.mod_pos_bound a 10 ltac:(lia)) as Hma.
    pose proof (Z.mod_pos_bound b 10 ltac:(lia)) as Hmb.
    destruct (IH (a / 10) (b / 10)) as [Hlt Heq].
    { split; [apply Z.div_pos; lia | apply Z.div_lt_upper_bound; lia]. }
    { split; [apply Z.div_pos; lia | apply Z.div_lt_upper_bound; lia]. }
    cbn [zero_padded]. split.
    + rewrite str_lt_app by (by rewrite !length_zero_padded).
      rewrite Hlt. cbn [str_lt]. rewrite andb_false_r, orb_false_r.
      case_bool_decide as Hq; rewrite Heq in Hq;
        destruct (Z.ltb_spec (a / 10) (b / 10)), (Z.ltb_spec a b),
          (N.ltb_spec (Z.to_N (48 + a mod 10)) (Z.to_N (48 + b mod 10)));
        simpl; try done; lia.
    + split; [|by intros ->].
      intros [Hq Hl]%app_inj_2; [|done]. apply Heq in Hq.
      injection Hl as Hl. lia.
Qed.
End form_strings.

Section form_order.
Context `{PyStr}.
Implicit Types (a b : date) (t u : time) (x y : sdict).

Lemma days_in_month_le (y m : Z) : AsciiLib.days_in_month y m ≤ 31.
Proof. unfold AsciiLib.days_in_month. repeat case_match; lia. Qed.

Lemma isoformat_order a b :
  is_date a → is_date b →
  str_lt (isoformat a) (isoformat b) = date_lt a b
  ∧ (isoformat a = isoformat b ↔ a = b).
Proof.
  intros (Hya & Hma & Hda) (Hyb & Hmb & Hdb).
  pose proof (days_in_month_le (year a) (month a)).
  pose proof (days_in_month_le (year b) (month b)).
  destruct (zero_padded_order 4 (year a) (year b)) as [Hy Hyeq];
    [simpl; lia..|].
  destruct (zero_padded_order 2 (month a) (month b)) as [Hm Hmeq];
    [simpl; lia..|].
  destruct (zero_padded_order 2 (day a) (day b)) as [Hd Hdeq];
    [simpl; lia..|].
  assert (isoformat a = isoformat b ↔ a = b) as Heq.
  { split; [|by intros ->]. unfold isoformat.
    intros [Hy' Hrest]%app_inj_1; [|by rewrite !length_zero_padded].
    apply app_inj_1 in Hrest as [_ Hrest]; [|done].
    apply app_inj_1 in Hrest as [Hm' Hrest];
      [|by rewrite !length_zero_padded].
    apply app_inj_1 in Hrest as [_ Hd']; [|done].
    apply Hyeq in Hy'. apply Hmeq in Hm'. apply Hdeq in Hd'.
    destruct a, b. simpl in *. congruence. }
  split; [|done]. unfold isoformat, date_lt.
  rewrite str_lt_app by (by rewrite !length_zero_padded).
  rewrite (str_lt_app (str "-")) by done.
  rewrite str_lt_app by (by rewrite !length_zero_padded).
  rewrite (str_lt_app (str "-")) by done.
  rewrite Hy, Hm, Hd.
  rewrite (bool_decide_eq_true_2 (str "-" = str "-")) by done.
  replace (str_lt (str "-") (str "-")) with false by done.
  rewrite (bool_decide_ext _ _ Hyeq), (bool_decide_ext _ _ Hmeq).
  do 2 case_bool_decide;
    destruct (Z.ltb_spec (year a) (year b)), (Z.eqb_spec (year a) (year b)),
      (Z.ltb_spec (month a) (month b)), (Z.eqb_spec (month a) (month b));
    simpl; try done; lia.
Qed.

Lemma strftime_HM_order t u :
  is_time t → is_time u →
  str_lt (strftime_HM t) (strftime_HM u) = time_lt t u.
Proof.
  intros [Hht Hmt] [Hhu Hmu].
  destruct (zero_padded_order 2 (hour t) (hour u)) as [Hh Hheq];
    [simpl; lia..|].
  destruct (zero_padded_order 2 (minute t) (minute u)) as [Hm _];
    [simpl; lia..|].
  unfold strftime_HM, time_lt.
  rewrite str_lt_app by (by rewrite !length_zero_padded).
  rewrite (str_lt_app (str ":")) by done.
  rewrite Hh, Hm.
  rewrite (bool_decide_eq_true_2 (str ":" = str ":")) by done.
  replace (str_lt (str ":") (str ":")) with false by done.
  rewrite (bool_decide_ext _ _ Hheq).
  case_bool_decide;
    destruct (Z.ltb_spec (hour t) (hour u)), (Z.eqb_spec (hour t) (hour u));
    simpl; try done; lia.
Qed.

Lemma StronglySorted_lookup {A} (R : relation A) (l : list A) i j
    (p q : A) :
  StronglySorted R l → l !! i = Some p → l !! j = Some q → (i < j)%nat →
  R p q.
Proof.
  intros Hl Hi Hj Hij. rewrite <- (take_drop j l) in Hl.
  apply (StronglySorted_app_1_elem_of _ _ _ p q Hl).
  - apply list_elem_of_lookup. exists i. by rewrite lookup_take_lt.
  - apply list_elem_of_lookup. exists O. by rewrite lookup_drop, Nat.add_0_r.
Qed.

(** X28: the list is in the order of the calendar: of two rows that
    [filter_appointments] returns, with dates and times as the booking
    form writes them, the one that comes first is not the later one. *)
Theorem filter_appointments_chronological rows date_from date_to types query
    i j x y a b t u :
  filter_appointments rows date_from date_to types query !! i = Some x →
  filter_appointments rows date_from date_to types query !! j = Some y →
  (i < j)%nat →
  is_date a → is_time t →
  dict_get (str "date") x = Some (isoformat a) →
  dict_get (str "time") x = Some (strftime_HM t) →
  is_date b → is_time u →
  dict_get (str "date") y = Some (isoformat b) →
  dict_get (str "time") y = Some (strftime_HM u) →
  date_lt b a = false ∧ (a = b → time_lt u t = false).
Proof.
  intros Hi Hj Hij Ha Ht Hxd Hxt Hb Hu Hyd Hyt.
  pose proof (StronglySorted_lookup _ _ _ _ _ _
                (sort_rows_sorted _) Hi Hj Hij) as Hle.
  unfold key_le, key_lt, sort_key, get_or_empty in Hle.
  cbn [fst snd] in Hle. rewrite Hxd, Hxt, Hyd, Hyt in Hle.
  cbn [default from_option] in Hle. unfold id in Hle.
  destruct (isoformat_order b a) as [Hlt Heq]; [done..|].
  rewrite Hlt, (strftime_HM_order u t) in Hle by done.
  apply orb_false_iff in Hle as [Hdate Htime]. split; [done|].
  intros ->. by rewrite bool_decide_eq_true_2 in Htime.
Qed.
End form_order.

Section form_submit.
Context `{PyStr}.
Implicit Types (r : rdict) (fs : fsys) (d today : date) (t : time).
Implicit Types (name contact issue notes ts : pystr) (b : Z).

(** The three ways through the handler: errors, a conflict, a booking. *)
Lemma appointment_form_submit_cases name contact d t issue notes today b ts
    fs :
  let submit :=
    appointment_form_submit name contact d t issue notes today b ts in
  let valid :=
    strip name ≠ [] ∧ strip contact ≠ [] ∧ date_lt d today = false in
  (∃ errors,
     submit fs = Ret errors fs ∧ errors ≠ [] ∧ (Saved ∉ errors) ∧ ¬ valid)
  ∨ (valid
     ∧ find_conflict APP_CSV (isoformat d) (strftime_HM t) None b fs = true
     ∧ submit fs = Ret [ConflictFound b] fs)
  ∨ (valid
     ∧ find_conflict APP_CSV (isoformat d) (strftime_HM t) None b fs = false
     ∧ ∃ fs',
         append_appointment APP_CSV
           (form_row ts (strip name) (strip contact) (isoformat d)
              (strftime_HM t) issue (strip notes)) fs = Ret tt fs'
         ∧ submit fs = Ret [Saved] fs').
Proof.
  intros submit valid. subst submit valid. unfold appointment_form_submit.
  destruct (bool_decide (strip name = [])) eqn:Hname,
    (bool_decide (strip contact = [])) eqn:Hcontact,
    (date_lt d today) eqn:Hdate; simpl;
    try apply bool_decide_eq_true in Hname;
    try apply bool_decide_eq_false in Hname;
    try apply bool_decide_eq_true in Hcontact;
    try apply bool_decide_eq_false in Hcontact;
    try (left; eexists; split_and!;
         [ done | done
         | intros Hin;
           repeat (apply elem_of_cons in Hin as [?|Hin]; [done|]);
           by apply elem_of_nil in Hin
         | by intros (? & ? & ?) ]).
  right. unfold mbind, M_bind, gets.
  destruct (find_conflict _ _ _ _ _ fs) eqn:Hconflict.
  - left. done.
  - right. split_and!; [done..|].
    destruct (append_appointment _ _ fs) as [[] fs'|e fs'] eqn:Happ.
    + by exists fs'.
    + unfold append_appointment, ensure_csv_exists, mbind, M_bind, gets,
        modify, mret, M_ret in Happ.
      by destruct (negb _).
Qed.


End form_submit.

(** * The buffer, with the ASCII instance of the library *)

Section form_buffer.
Import AsciiLib.
Implicit Types (r : rdict) (rows : list rdict) (fs : fsys) (t : time).
Implicit Types (nd : pystr) (ign : option pystr) (b : Z).

(** [find_conflict] reads the minute of the day back from a time that the
    form wrote. *)
Lemma minutes_strftime_HM t :
  is_time t → minutes (strftime_HM t) = Some (minute_of_day t).
Proof.
  destruct t as [h m]. intros [Hh Hm]. simpl in Hh, Hm.
  assert (Forall (λ h, Forall (λ m, minutes (strftime_HM (Time h m))
                                    = Some (minute_of_day (Time h m)))
                         (seqZ 0 60)) (seqZ 0 24)) as Hall
    by (apply (bool_decide_unpack _); by vm_compute).
  rewrite Forall_forall in Hall.
  specialize (Hall h ltac:(apply elem_of_seqZ; lia)).
  rewrite Forall_forall in Hall.
  apply Hall, elem_of_seqZ. lia.
Qed.

Lemma find_conflict_rows_times rows nd t ign b :
  is_time t → 0 ≤ b →
  Forall (λ r, ∃ t', is_time t'
                     ∧ dict_get (Some (str "time")) r
                       = Some (VStr (strftime_HM t'))) rows →
  find_conflict_rows rows nd (strftime_HM t) ign b
    (minutes (strftime_HM t)) = true
  ↔ ∃ r t', r ∈ rows ∧ ¬ ignored ign r ∧ slot_of r nd t'
            ∧ Z.abs (minute_of_day t' - minute_of_day t) ≤ b.
Proof.
  intros Ht Hb Hrows. rewrite minutes_strftime_HM by done.
  rewrite find_conflict_rows_exists. split.
  - intros (r & Hr & Hhit).
    apply find_conflict_row in Hhit as (Hign & Hd & other & Ho & _ & Hm).
    destruct (proj1 (Forall_forall _ _) Hrows r Hr) as (t' & Ht' & Htime).
    rewrite Htime in Ho. injection Ho as <-. cbn [value_minutes] in Hm.
    rewrite minutes_strftime_HM in Hm by done.
    exists r, t'. split_and!; [done | done | | lia].
    split; [done|]. unfold date_time. by rewrite Hd, Htime.
  - intros (r & t' & Hr & Hign & [Ht' [= Hd Htime]] & Hnear).
    exists r. split; [done|]. apply find_conflict_row.
    split_and!; [done..|]. exists (VStr (strftime_HM t')).
    split_and!; [done| |].
    + unfold truthy.
      rewrite bool_decide_eq_false_2; [done|apply strftime_HM_ne].
    + cbn [value_minutes]. rewrite minutes_strftime_HM by done.
      destruct (decide (b = 0)) as [->|?]; [right; lia | by left].
Qed.

(** X29: on rows whose times the booking form wrote, [find_conflict]
    measures minutes: for a time of the form and a buffer that is not
    negative, it returns [True] exactly when a row that is not ignored has
    the requested date and a time at most [buffer_minutes] minutes from
    the requested one. *)
Theorem find_conflict_form_times path nd t ign b fs :
  is_time t → 0 ≤ b →
  Forall (λ r, ∃ t', is_time t'
                     ∧ dict_get (Some (str "time")) r
                       = Some (VStr (strftime_HM t')))
    (read_appointments path fs) →
  find_conflict path nd (strftime_HM t) ign b fs = true
  ↔ ∃ r t', r ∈ read_appointments path fs ∧ ¬ ignored ign r
            ∧ slot_of r nd t'
            ∧ Z.abs (minute_of_day t' - minute_of_day t) ≤ b.
Proof.
  intros Ht Hb Hrows. unfold find_conflict.
  by apply find_conflict_rows_times.
Qed.

(** X30: the buffer keeps its promise: when the bookings of each date in a
    file with the header of the application, or none, whose times the form
    wrote, are more than [b] minutes apart, they still are after the
    booking form was handled with the buffer [b], for a time of the
    form. *)
Theorem appointment_form_submit_spaced name contact d t issue notes today b
    ts fs :
  (fs !! APP_CSV = None ∨ ∃ body, fs !! APP_CSV = Some (HEADER :: body)) →
  is_time t → 0 ≤ b →
  Forall (λ r, ∃ t', is_time t'
                     ∧ dict_get (Some (str "time")) r
                       = Some (VStr (strftime_HM t')))
    (read_appointments APP_CSV fs) →
  spaced b (read_appointments APP_CSV fs) →
  ∃ notices fs',
    appointment_form_submit name contact d t issue notes today b ts fs
    = Ret notices fs'
    ∧ spaced b (read_appointments APP_CSV fs').
Proof.
  intros Hfile Ht Hb Hrows Hspaced.
  destruct (appointment_form_submit_cases name contact d t issue notes today
              b ts fs)
    as [(errors & -> & _)|[(_ & _ & ->)|(_ & Hfree & fs' & Happ & ->)]];
    [by eexists _, _..|].
  destruct (append_appointment_read APP_CSV
              (form_row ts (strip name) (strip contact) (isoformat d)
                 (strftime_HM t) issue (strip notes)) fs)
    as (fs'' & Happ' & Hread); [done..|].
  rewrite Happ in Happ'. injection Happ' as <-.
  exists [Saved], fs'. split; [done|]. rewrite Hread.
  set (rows := read_appointments APP_CSV fs) in *.
  set (new := row_dict HEADER _) in *.
  assert (∀ r nd t1 t2, r ∈ rows → slot_of r nd t1 → slot_of new nd t2 →
            b < Z.abs (minute_of_day t1 - minute_of_day t2)) as Hnew.
  { intros r nd t1 t2 Hr Hslot [Ht2 Hdt].
    assert (date_time new
            = (Some (VStr (isoformat d)), Some (VStr (strftime_HM t))))
      as Hnewdt by done.
    rewrite Hnewdt in Hdt. apply pair_equal_spec in Hdt as [Hd Heq].
    assert (nd = isoformat d) as -> by congruence.
    assert (minute_of_day t2 = minute_of_day t) as ->.
    { assert (strftime_HM t = strftime_HM t2) as Hstr by congruence.
      apply (f_equal minutes) in Hstr.
      rewrite !minutes_strftime_HM in Hstr by done. congruence. }
    destruct (Z.lt_ge_cases b (Z.abs (minute_of_day t1 - minute_of_day t)))
      as [?|Hnear]; [done|].
    unfold find_conflict in Hfree. fold rows in Hfree.
    rewrite (proj2 (find_conflict_rows_times rows (isoformat d) t None b
                      Ht Hb Hrows)) in Hfree; [done|].
    exists r, t1. split_and!; [done | by intros (? & ? & _) | done | lia]. }
  intros i j r r' nd t1 t2 Hij Hi Hj Hr Hr'.
  apply lookup_app_Some in Hi as [Hi|[Hi1 Hi2]];
    apply lookup_app_Some in Hj as [Hj|[Hj1 Hj2]].
  - by apply (Hspaced i j r r' nd).
  - apply list_lookup_singleton_Some in Hj2 as [_ <-].
    apply (Hnew r nd); [by eapply list_elem_of_lookup_2 | done..].
  - apply list_lookup_singleton_Some in Hi2 as [_ <-].
    rewrite <- Z.abs_opp.
    replace (- (minute_of_day t1 - minute_of_day t2))
      with (minute_of_day t2 - minute_of_day t1) by lia.
    apply (Hnew r' nd); [by eapply list_elem_of_lookup_2 | done..].
  - apply list_lookup_singleton_Some in Hi2 as [? _].
    apply list_lookup_singleton_Some in Hj2 as [? _]. lia.
Qed.
End form_buffer.

(** * The further theorems on concrete inputs *)

Section more_examples.
Import AsciiLib Rational Tracker Examples Buyer Repl.

Ltac by_compute := apply (bool_decide_unpack _); vm_compute; exact I.
Ltac numbers := repeat split; by vm_compute.

Lemma two_bookings_read :
  read_appointments APP_CSV two_bookings
  = [row_dict HEADER ann; row_dict HEADER bob].
Proof. by vm_compute. Qed.

Lemma two_bookings_times :
  Forall (λ r, ∃ t', is_time t'
                     ∧ dict_get (Some (str "time")) r
                       = Some (VStr (strftime_HM t')))
    (read_appointments APP_CSV two_bookings).
Proof.
  rewrite two_bookings_read. repeat constructor.
  - exists (Time 10 0). split; [numbers | by vm_compute].
  - exists (Time 11 0). split; [numbers | by vm_compute].
Qed.


(** The two bookings are on two days. *)
Lemma two_bookings_spaced b :
  spaced b (read_appointments APP_CSV two_bookings).
Proof.
  rewrite two_bookings_read.
  intros i j r r' nd t t' Hij Hi Hj [_ Hr] [_ Hr'].
  apply pair_equal_spec in Hr as [Hr _].
  apply pair_equal_spec in Hr' as [Hr' _].
  destruct i as [|[|i]], j as [|[|j]]; try done;
    injection Hi as <-; injection Hj as <-;
    vm_compute in Hr, Hr'; congruence.
Qed.

(** [cart_add_remove_older] on a cart that holds a yoga mat at another
    price. *)
Lemma cart_add_remove_older_witness :
  let p := Product (str "Yoga Mat") (str "Sports") (price_of 2450) in
  let q := Product (str "Yoga Mat") (str "Sports") (price_of 1999) in
  let l := take 1 PRODUCTS in
  let r := drop 2 PRODUCTS in
  Forall (λ x, name x ≠ name p) l
  ∧ name q = name p
  ∧ remove_from_cart (add_to_cart (l ++ q :: r) p) (name p) = l ++ r ++ [p]
  ∧ length (remove_from_cart (add_to_cart (l ++ q :: r) p) (name p))
    = length (l ++ q :: r).
Proof.
  intros p q l r.
  assert (Forall (λ x, name x ≠ name p) l) as Hl
    by (repeat constructor; by vm_compute).
  split; [done|]. split; [done|]. by apply cart_add_remove_older.
Defined.

(** [match_positions_found] on the speaker, found by "BLUE". *)
Lemma match_positions_found_witness :
  let p := Product (str "Bluetooth Speaker") (str "Electronics")
             (price_of 8999) in
  p ∈ find_products_by_keyword PRODUCTS (str "BLUE")
  ∧ ∃ first last : nat,
      match_positions (str "BLUE") p = (Z.of_nat first, Z.of_nat last)
      ∧ (first ≤ last)%nat
      ∧ (last + length (lower (str "BLUE")) ≤ length (lower (name p)))%nat
      ∧ startswith (lower (str "BLUE")) (drop first (lower (name p))) = true
      ∧ startswith (lower (str "BLUE")) (drop last (lower (name p))) = true.
Proof.
  intros p.
  assert (p ∈ find_products_by_keyword PRODUCTS (str "BLUE")) as Hp.
  { assert (find_products_by_keyword PRODUCTS (str "BLUE") = [p]) as ->
      by (by vm_compute).
    apply list_elem_of_here. }
  split; [done|]. by apply (match_positions_found PRODUCTS).
Defined.

(** [main_trace] on a line, an empty line and the command. *)
Lemma main_trace_witness :
  let before := [str "Hello"; []] in
  let command := str "QUIT" in
  let after := [str "not read"] in
  let shown :=
    (λ s, if bool_decide (s = []) then EmptyString
          else PrettyPrint (TextAnalyzer.analyze_text s true)) <$> before in
  Forall (λ s, lower s ∉ [str "exit"; str "quit"]) before
  ∧ lower command ∈ [str "exit"; str "quit"]
  ∧ main (before ++ command :: after) = Banner :: shown ++ [Exiting]
  ∧ main before = Banner :: shown ++ [EndOfInput].
Proof.
  intros before command after shown.
  assert (Forall (λ s, lower s ∉ [str "exit"; str "quit"]) before)
    as Hbefore by by_compute.
  assert (lower command ∈ [str "exit"; str "quit"]) as Hcommand
    by by_compute.
  destruct (main_trace before after command Hbefore) as [Hexit Hend].
  split_and!; [done | done | by apply Hexit | done].
Defined.

(** [find_conflict_exact_slot] on the slot of the second booking. *)
Lemma find_conflict_exact_slot_witness :
  let r := row_dict HEADER bob in
  0 ≤ 15
  ∧ str "11:00" ≠ []
  ∧ r ∈ read_appointments APP_CSV two_bookings
  ∧ ¬ ignored None r
  ∧ date_time r = (Some (VStr (str "2025-01-11")), Some (VStr (str "11:00")))
  ∧ find_conflict APP_CSV (str "2025-01-11") (str "11:00") None 15
      two_bookings = true.
Proof.
  intros r.
  assert (r ∈ read_appointments APP_CSV two_bookings) as Hr
    by (rewrite two_bookings_read; apply list_elem_of_further,
          list_elem_of_here).
  assert (¬ ignored None r) as Hign by (by intros (? & ? & _)).
  split_and!; [lia | done | done | done | done |].
  by apply (find_conflict_exact_slot APP_CSV _ _ None 15 two_bookings r).
Defined.

(** [find_conflict_buffer_mono]: ten minutes after the second booking. *)
Lemma find_conflict_buffer_mono_witness :
  0 ≤ 15 ≤ 30
  ∧ find_conflict APP_CSV (str "2025-01-11") (str "11:10") None 15
      two_bookings = true
  ∧ find_conflict APP_CSV (str "2025-01-11") (str "11:10") None 30
      two_bookings = true.
Proof.
  assert (find_conflict APP_CSV (str "2025-01-11") (str "11:10") None 15
            two_bookings = true) as Hnear by (by vm_compute).
  split_and!; [lia | lia | done |].
  apply (find_conflict_buffer_mono APP_CSV _ _ None 15 30 two_bookings);
    [lia | done].
Defined.

(** [find_conflict_unparsed] on a time that is no time. *)
Lemma find_conflict_unparsed_witness :
  minutes (str "noon") = None
  ∧ (find_conflict APP_CSV (str "2025-01-11") (str "noon") None 15
       two_bookings = true
     ↔ str "noon" ≠ []
       ∧ ∃ r, r ∈ read_appointments APP_CSV two_bookings
              ∧ ¬ ignored None r
              ∧ date_time r
                = (Some (VStr (str "2025-01-11")), Some (VStr (str "noon")))).
Proof.
  assert (minutes (str "noon") = None) as Hnoon by (by vm_compute).
  split; [done|]. by apply find_conflict_unparsed.
Defined.

(** [find_conflict_same_minute] on two ways of writing eleven o'clock. *)
Lemma find_conflict_same_minute_witness :
  minutes (str "11:00") = Some 660
  ∧ minutes (str " 11:0_0") = Some 660
  ∧ find_conflict APP_CSV (str "2025-01-11") (str "11:00") None 0
      two_bookings
    = find_conflict APP_CSV (str "2025-01-11") (str " 11:0_0") None 0
        two_bookings.
Proof.
  assert (minutes (str "11:00") = Some 660) as H1 by (by vm_compute).
  assert (minutes (str " 11:0_0") = Some 660) as H2 by (by vm_compute).
  split; [done|]. split; [done|].
  by apply (find_conflict_same_minute _ _ _ _ _ _ _ 660).
Defined.

(** [overwrite_appointments_failure] on a third row with a key of its
    own. *)
Lemma overwrite_appointments_failure_witness :
  let r0 := row_dict HEADER ann in
  let r1 := row_dict HEADER bob in
  let r2 := r0 ++ [(Some (str "phone"), VStr (str "555"))] in
  let rows := [r0; r1; r2; r1] in
  head rows = Some r0
  ∧ r2 ∈ rows
  ∧ Some (str "phone") ∈ dict_keys r2
  ∧ (Some (str "phone") ∉ dict_keys r0)
  ∧ ∃ fs' good bad rest,
      overwrite_appointments APP_CSV rows two_bookings
      = Raise ValueError fs'
      ∧ rows = good ++ bad :: rest
      ∧ Forall (λ r, dict_keys r ⊆ dict_keys r0) good
      ∧ ¬ dict_keys bad ⊆ dict_keys r0
      ∧ fs' !! (APP_CSV ++ str ".tmp")
        = Some (header_record (dict_keys r0)
                  :: (to_record (dict_keys r0) <$> good))
      ∧ fs' !! APP_CSV = two_bookings !! APP_CSV
      ∧ read_appointments APP_CSV fs'
        = read_appointments APP_CSV two_bookings
      ∧ ∀ p, p ≠ APP_CSV ++ str ".tmp" → fs' !! p = two_bookings !! p.
Proof.
  intros r0 r1 r2 rows.
  assert (r2 ∈ rows) as Hr by (do 2 apply list_elem_of_further; by left).
  assert (Some (str "phone") ∈ dict_keys r2) as Hk by by_compute.
  assert (Some (str "phone") ∉ dict_keys r0) as Hk0 by by_compute.
  split; [done|]. split; [done|]. split; [done|]. split; [done|].
  by apply (overwrite_appointments_failure APP_CSV rows r0 r2
              (Some (str "phone")) two_bookings).
Defined.

(** [overwrite_appointments_success] on the two bookings, written to a
    directory without files. *)
Lemma overwrite_appointments_success_witness :
  let rows := [row_dict HEADER ann; row_dict HEADER bob] in
  let fs' :=
    match overwrite_appointments APP_CSV rows ∅ with
    | Ret _ fs' | Raise _ fs' => fs'
    end in
  overwrite_appointments APP_CSV rows ∅ = Ret tt fs'
  ∧ fs' !! APP_CSV = Some [HEADER; ann; bob]
  ∧ (rows ≠ [] → fs' !! (APP_CSV ++ str ".tmp") = None)
  ∧ (∀ p, p ≠ APP_CSV → p ≠ APP_CSV ++ str ".tmp" →
     fs' !! p = (∅ : fsys) !! p)
  ∧ ∀ r0, head rows = Some r0 →
          Forall (λ r, dict_keys r ⊆ dict_keys r0) rows.
Proof.
  intros rows fs'.
  assert (overwrite_appointments APP_CSV rows ∅ = Ret tt fs') as Hret
    by (by vm_compute).
  split; [done|].
  by apply (overwrite_appointments_success APP_CSV rows ∅ fs').
Defined.

(** [delete_appointment_twice] on the first of the two bookings. *)
Lemma delete_appointment_twice_witness :
  let ts := str "2025-01-01T09:00:00.000001" in
  Forall str_dict (read_appointments APP_CSV two_bookings)
  ∧ ∃ b fs',
      delete_appointment APP_CSV ts two_bookings = Ret b fs'
      ∧ Forall (λ r, dict_get (Some (str "timestamp")) r ≠ Some (VStr ts))
          (read_appointments APP_CSV fs')
      ∧ delete_appointment APP_CSV ts fs' = Ret false fs'.
Proof.
  intros ts. split; [apply two_bookings_str|].
  apply delete_appointment_twice, two_bookings_str.
Defined.

(** [delete_appointment_all] on a file with one booking. *)
Lemma delete_appointment_all_witness :
  let fs : fsys := {[ APP_CSV := [HEADER; ann] ]} in
  let ts := str "2025-01-01T09:00:00.000001" in
  read_appointments APP_CSV fs ≠ []
  ∧ Forall (λ r, dict_get (Some (str "timestamp")) r = Some (VStr ts))
      (read_appointments APP_CSV fs)
  ∧ delete_appointment APP_CSV ts fs = Ret true (<[APP_CSV := [HEADER]]> fs)
  ∧ read_appointments APP_CSV (<[APP_CSV := [HEADER]]> fs) = [].
Proof.
  intros fs ts.
  assert (read_appointments APP_CSV fs ≠ []) as Hne by (by vm_compute).
  assert (Forall (λ r, dict_get (Some (str "timestamp")) r
                       = Some (VStr ts))
            (read_appointments APP_CSV fs)) as Hall by by_compute.
  split; [done|]. split; [done|]. by apply delete_appointment_all.
Defined.

(** [page_rows_partition] on seven rows, five to the page. *)
Lemma page_rows_partition_witness :
  let filtered := [1; 2; 3; 4; 5; 6; 7]%nat in
  let total := Z.of_nat (length filtered) in
  0 < 5
  ∧ mjoin ((λ i, page_rows filtered (Z.of_nat (S i)) 5)
             <$> seq 0 (Z.to_nat (pages total 5)))
    = filtered
  ∧ (∀ page, 1 ≤ page →
       Z.of_nat (length (page_rows filtered page 5)) ≤ 5)
  ∧ (∀ page, 1 ≤ page < pages total 5 →
       Z.of_nat (length (page_rows filtered page 5)) = 5)
  ∧ (filtered ≠ [] → page_rows filtered (pages total 5) 5 ≠ []).
Proof.
  intros filtered total. split; [lia|].
  apply (page_rows_partition filtered 5). lia.
Defined.

(** [page_after_range] on the third page of two. *)
Lemma page_after_range_witness :
  1 ≤ 3
  ∧ 1 ≤ page_after 3 7 5 false true ≤ pages 7 5
  ∧ (3 ≤ pages 7 5 → page_after 3 7 5 false false = 3).
Proof. split; [lia|]. apply page_after_range. lia. Defined.

(** [export_csv_parse] on two rows, the second without a name. *)
Lemma export_csv_parse_witness :
  let r0 : sdict := [(str "name", str "Ann"); (str "date", str "2025-01-10")] in
  let rest : list sdict := [[(str "date", str "2025-01-11")]] in
  let keys := dict_keys r0 in
  let cells := λ r : sdict, (λ k, default [] (dict_get k r)) <$> keys in
  keys ≠ []
  ∧ Forall (λ x, (10%N ∉ x) ∧ (44%N ∉ x)) keys
  ∧ Forall (λ r, Forall (λ x, (10%N ∉ x) ∧ (44%N ∉ x)) (cells r))
      (r0 :: rest)
  ∧ ∃ text,
      export_csv (r0 :: rest) = Some text
      ∧ split_on 44 <$> split_on 10 text = keys :: (cells <$> r0 :: rest).
Proof.
  intros r0 rest keys cells.
  assert (keys ≠ []) as Hne by done.
  assert (Forall (λ x, (10%N ∉ x) ∧ (44%N ∉ x)) keys) as Hkeys
    by by_compute.
  assert (Forall (λ r, Forall (λ x, (10%N ∉ x) ∧ (44%N ∉ x)) (cells r))
            (r0 :: rest)) as Hcells by by_compute.
  split_and!; [done..|]. by apply (export_csv_parse r0 rest).
Defined.



(** [filter_appointments_chronological] on two rows stored in the other
    order. *)
Lemma filter_appointments_chronological_witness :
  let row d t : sdict :=
    [(str "name", str "Ann"); (str "contact", []); (str "date", d);
     (str "time", t); (str "issue_type", str "Other"); (str "notes", [])] in
  let a := Date 2025 2 1 in
  let t := Time 12 0 in
  let b := Date 2025 3 1 in
  let u := Time 10 0 in
  let x := row (isoformat a) (strftime_HM t) in
  let y := row (isoformat b) (strftime_HM u) in
  let shown :=
    filter_appointments [y; x] (Date 2025 1 1) (Date 2025 12 31) [] None in
  shown !! 0%nat = Some x
  ∧ shown !! 1%nat = Some y
  ∧ (0 < 1)%nat
  ∧ is_date a ∧ is_time t
  ∧ dict_get (str "date") x = Some (isoformat a)
  ∧ dict_get (str "time") x = Some (strftime_HM t)
  ∧ is_date b ∧ is_time u
  ∧ dict_get (str "date") y = Some (isoformat b)
  ∧ dict_get (str "time") y = Some (strftime_HM u)
  ∧ date_lt b a = false ∧ (a = b → time_lt u t = false).
Proof.
  intros row a t b u x y shown.
  assert (shown !! 0%nat = Some x) as Hx by (by vm_compute).
  assert (shown !! 1%nat = Some y) as Hy by (by vm_compute).
  assert (is_date a) as Ha by numbers.
  assert (is_time t) as Ht by numbers.
  assert (is_date b) as Hb by numbers.
  assert (is_time u) as Hu by numbers.
  assert (dict_get (str "date") x = Some (isoformat a)) as Hxd
    by (by vm_compute).
  assert (dict_get (str "time") x = Some (strftime_HM t)) as Hxt
    by (by vm_compute).
  assert (dict_get (str "date") y = Some (isoformat b)) as Hyd
    by (by vm_compute).
  assert (dict_get (str "time") y = Some (strftime_HM u)) as Hyt
    by (by vm_compute).
  assert (0 < 1)%nat as Hlt by lia.
  do 11 (split; [done|]).
  exact (filter_appointments_chronological [y; x] (Date 2025 1 1)
           (Date 2025 12 31) [] None 0 1 x y a b t u Hx Hy Hlt Ha Ht Hxd Hxt
           Hb Hu Hyd Hyt).
Defined.

(** [find_conflict_form_times]: ten minutes after the second booking. *)
Lemma find_conflict_form_times_witness :
  let t := Time 11 10 in
  let rows := read_appointments APP_CSV two_bookings in
  is_time t
  ∧ 0 ≤ 15
  ∧ Forall (λ r, ∃ t', is_time t'
                       ∧ dict_get (Some (str "time")) r
                         = Some (VStr (strftime_HM t'))) rows
  ∧ (find_conflict APP_CSV (str "2025-01-11") (strftime_HM t) None 15
       two_bookings = true
     ↔ ∃ r t', r ∈ rows ∧ ¬ ignored None r
               ∧ slot_of r (str "2025-01-11") t'
               ∧ Z.abs (minute_of_day t' - minute_of_day t) ≤ 15).
Proof.
  intros t rows.
  assert (is_time t) as Ht by numbers.
  split; [done|]. split; [lia|]. split; [apply two_bookings_times|].
  apply find_conflict_form_times; [done | lia | apply two_bookings_times].
Defined.

(** [appointment_form_submit_spaced]: a third booking, an hour and a half
    after the second. *)
Lemma appointment_form_submit_spaced_witness :
  let t := Time 12 30 in
  let rows := read_appointments APP_CSV two_bookings in
  (two_bookings !! APP_CSV = None
   ∨ ∃ body, two_bookings !! APP_CSV = Some (HEADER :: body))
  ∧ is_time t
  ∧ 0 ≤ 15
  ∧ Forall (λ r, ∃ t', is_time t'
                       ∧ dict_get (Some (str "time")) r
                         = Some (VStr (strftime_HM t'))) rows
  ∧ spaced 15 rows
  ∧ ∃ notices fs',
      appointment_form_submit (str " Cy ") (str "cy@example.org")
        (Date 2025 1 11) t (str "Other") [] (Date 2025 1 1) 15
        (str "2025-01-02T08:00:00.000003") two_bookings
      = Ret notices fs'
      ∧ spaced 15 (read_appointments APP_CSV fs').
Proof.
  intros t rows.
  assert (is_time t) as Ht by numbers.
  split; [apply two_bookings_header|]. split; [done|]. split; [lia|].
  split; [apply two_bookings_times|].
  split; [apply two_bookings_spaced|].
  apply appointment_form_submit_spaced;
    [apply two_bookings_header | done | lia | apply two_bookings_times
    | apply two_bookings_spaced].
Defined.
End more_examples.
